(** * The Gmail agent's message-dispatch contract

    A shallow embedding of [gmail_agent.py]: the three dataclasses
    ([AgentMessage], [EmailRequest], [EmailResponse]) and the methods of
    [GmailAgent] ([authenticate], [create_message], [send_email],
    [process_agent_message], [handle_message_json]).

    Python values are dynamically typed.  The values this program handles are
    the ones [json.loads] produces, so one inductive type [json] stands for
    "any Python object" ([Any]); of the floating-point numbers it holds the
    three that are no finite number, and the finite ones are left out of the
    value universe.  Python exceptions are explicit: every function that can
    raise lives in the monad [M], and a [try]/[except] is the combinator
    [try_except]; only exceptions that derive from [Exception] are modelled
    (not a keyboard interrupt).  Everything outside the repository (the Google client
    libraries, the [email] and [json] packages, the file system, the clock) is
    an interface, [Platform] and [JsonLibrary], over which the program is
    parametric.

    The rest of the repository follows the agent's methods: [_setup_logging]
    over the logger registry of [logging], the agent's [main], and, in the
    module [ConexionNextcloud], the WebDAV client of [ConexionNextcloud.py]
    with its own interface [Environment] for the server and the file
    system. *)

From Stdlib Require Import String Ascii List ZArith NArith Bool Arith Lia.
From Stdlib Require Import DecimalString DecimalFacts DecimalPos DecimalZ.
Import ListNotations.
Local Open Scope list_scope.
Local Open Scope string_scope.

(* ================================================================== *)
(** ** Python values *)
(* ================================================================== *)

(** The floats of the model: [float('nan')], [float('inf')] and
    [float('-inf')], which [json] writes and reads as [NaN], [Infinity] and
    [-Infinity].  A finite float is not a value of the model. *)
Inductive pyfloat : Type :=
| NaN
| Infinity (negative : bool).

(** The objects [json.loads] can build: [None], [bool], [int], [str],
    [list] and [dict] with [str] keys, and the floats of [pyfloat].  A
    [dict] keeps its insertion order, which [json.dumps] and
    keyword-argument errors depend on, so it is an association list; Python
    keeps its keys distinct ([json_wf]). *)
#[local] Unset Elimination Schemes.
Inductive json : Type :=
| JNull
| JBool (b : bool)
| JInt (z : Z)
| JStr (s : string)
| JArr (items : list json)
| JObj (fields : list (string * json))
| JFloat (f : pyfloat).
#[local] Set Elimination Schemes.

Definition pydict := list (string * json).

(** [None] is how Python spells "absent" for an [Optional] field. *)
Definition absent (v : json) : Prop := v = JNull.
Definition present (v : json) : Prop := v <> JNull.

Fixpoint dict_get (d : pydict) (k : string) : option json :=
  match d with
  | [] => None
  | (k', v) :: d' => if String.eqb k' k then Some v else dict_get d' k
  end.

Definition dict_keys (d : pydict) : list string := map fst d.

Definition dict_has (d : pydict) (k : string) : bool :=
  match dict_get d k with Some _ => true | None => false end.

(** [d.get(k)]: [None] when the key is missing. *)
Definition dict_get_or_none (d : pydict) (k : string) : json :=
  match dict_get d k with Some v => v | None => JNull end.

(** Truth value testing: [if x:] / [if not x:]. *)
Definition truthy (v : json) : bool :=
  match v with
  | JNull => false
  | JBool b => b
  | JInt z => negb (Z.eqb z 0)
  | JStr s => negb (String.eqb s EmptyString)
  | JArr l => match l with [] => false | _ => true end
  | JObj d => match d with [] => false | _ => true end
  | JFloat _ => true
  end.

(** [v == s] for a string literal [s]: only an equal [str] compares equal. *)
Definition eq_str (v : json) (s : string) : bool :=
  match v with
  | JStr t => String.eqb t s
  | _ => false
  end.

Definition type_name (v : json) : string :=
  match v with
  | JNull => "NoneType"
  | JBool _ => "bool"
  | JInt _ => "int"
  | JStr _ => "str"
  | JArr _ => "list"
  | JObj _ => "dict"
  | JFloat _ => "float"
  end.

Definition some_or_none (o : option string) : json :=
  match o with Some s => JStr s | None => JNull end.

(* ================================================================== *)
(** ** Exceptions and results *)
(* ================================================================== *)

(** The classes the handlers tell apart; every one derives from
    [Exception].  [exc_str] is [str(e)]. *)
Inductive ExcClass : Type :=
| TypeError
| KeyError
| HttpError
| JSONDecodeError
| OtherException.

Record Exception : Type := mkExc { exc_class : ExcClass; exc_str : string }.

Inductive Result (A : Type) : Type :=
| Ok (a : A)
| Raise (e : Exception).
Arguments Ok {A} a.
Arguments Raise {A} e.

Definition is_HttpError (e : Exception) : bool :=
  match exc_class e with HttpError => true | _ => false end.

Definition is_JSONDecodeError (e : Exception) : bool :=
  match exc_class e with JSONDecodeError => true | _ => false end.

(* ================================================================== *)
(** ** Strings *)
(* ================================================================== *)


(** The same test as a function. *)
Fixpoint containsb (needle s : string) : bool :=
  if String.prefix needle s then true
  else match s with
       | EmptyString => false
       | String _ s' => containsb needle s'
       end.

Definition quoted (s : string) : string := "'" ++ s ++ "'".

Definition nat_to_string (n : nat) : string :=
  NilEmpty.string_of_uint (Nat.to_uint n).

(** [os.path.basename] on POSIX: what follows the last slash. *)
Fixpoint basename_aux (s acc : string) : string :=
  match s with
  | EmptyString => acc
  | String c s' =>
      if Ascii.eqb c "/"%char then basename_aux s' EmptyString
      else basename_aux s' (acc ++ String c EmptyString)
  end.

Definition basename (p : string) : string := basename_aux p EmptyString.

(** The items a [for] loop or [str.join] sees when it iterates a value:
    the elements of a list, the keys of a dict, the characters of a string;
    [None], booleans, integers and floats are not iterable. *)
Fixpoint chars_of (s : string) : list json :=
  match s with
  | EmptyString => []
  | String c s' => JStr (String c EmptyString) :: chars_of s'
  end.

Definition py_iter (v : json) : Result (list json) :=
  match v with
  | JArr l => Ok l
  | JObj d => Ok (map (fun kv => JStr (fst kv)) d)
  | JStr s => Ok (chars_of s)
  | _ => Raise (mkExc TypeError (quoted (type_name v) ++ " object is not iterable"))
  end.

Fixpoint all_strs (l : list json) : option (list string) :=
  match l with
  | [] => Some []
  | JStr s :: l' =>
      match all_strs l' with Some r => Some (s :: r) | None => None end
  | _ :: _ => None
  end.

(** [sep.join(v)]. *)
Definition str_join (sep : string) (v : json) : Result string :=
  match py_iter v with
  | Raise _ => Raise (mkExc TypeError "can only join an iterable")
  | Ok items =>
      match all_strs items with
      | Some strs => Ok (String.concat sep strs)
      | None => Raise (mkExc TypeError "sequence item: expected str instance")
      end
  end.

(* ================================================================== *)
(** ** Dataclass construction: keyword construction from a mapping *)
(* ================================================================== *)

(** A field is its name and its default; [None] marks a required field. *)
Definition field_spec := (string * option json)%type.

Definition required_fields (fs : list field_spec) : list string :=
  map fst (filter (fun f => match snd f with None => true | Some _ => false end) fs).

Definition is_field (fs : list field_spec) (k : string) : bool :=
  existsb (fun f => String.eqb (fst f) k) fs.

(** The first keyword that names no field, in the order of the mapping. *)
Definition unexpected_keyword (fs : list field_spec) (kw : pydict) : option string :=
  find (fun k => negb (is_field fs k)) (dict_keys kw).

Definition missing_arguments (fs : list field_spec) (kw : pydict) : list string :=
  filter (fun k => negb (dict_has kw k)) (required_fields fs).

(** CPython's rendering of the missing names: ['a'], ['a' and 'b'],
    ['a', 'b', and 'c']. *)
Fixpoint format_names (names : list string) : string :=
  match names with
  | [] => EmptyString
  | [a] => quoted a
  | [a; b] => quoted a ++ " and " ++ quoted b
  | a :: rest =>
      match rest with
      | [b; c] => quoted a ++ ", " ++ quoted b ++ ", and " ++ quoted c
      | _ => quoted a ++ ", " ++ format_names rest
      end
  end.

Definition missing_message (cls : string) (names : list string) : string :=
  cls ++ ".__init__() missing " ++ nat_to_string (List.length names)
      ++ " required positional argument"
      ++ (if Nat.eqb (List.length names) 1 then EmptyString else "s")
      ++ ": " ++ format_names names.

(** A keyword that names no field is unexpected; the keyword [self] names
    the parameter the instance already fills. *)
Definition unexpected_message (cls k : string) : string :=
  if String.eqb k "self"
  then cls ++ ".__init__() got multiple values for argument 'self'"
  else cls ++ ".__init__() got an unexpected keyword argument " ++ quoted k.

(** The name under which the module is imported; the interpreter names a
    class with it when it refuses the argument of [**]. *)
Definition module_name : string := "gmail_agent".

Definition not_mapping_message (cls : string) (v : json) : string :=
  module_name ++ "." ++ cls ++ "() argument after ** must be a mapping, not "
  ++ type_name v.

(** The checks Python makes when a dataclass [Cls] is called with the
    keywords of [v]: [v] is a mapping, every keyword names a field, every
    required field is given.
    Values are not type-checked.  The result is the keyword mapping itself,
    from which the constructor reads the fields. *)
Definition bind_keywords (cls : string) (fs : list field_spec) (v : json)
  : Result pydict :=
  match v with
  | JObj kw =>
      match unexpected_keyword fs kw with
      | Some k => Raise (mkExc TypeError (unexpected_message cls k))
      | None =>
          match missing_arguments fs kw with
          | [] => Ok kw
          | names => Raise (mkExc TypeError (missing_message cls names))
          end
      end
  | _ => Raise (mkExc TypeError (not_mapping_message cls v))
  end.

(** The six fields of the message envelope.  The declared types are
    [str], [str], [str], [Dict[str, Any]], [Optional[str]], [Optional[str]];
    a dataclass does not enforce them. *)
Record AgentMessage : Type := mkAgentMessage {
  agent_id : json;
  message_type : json;
  timestamp : json;
  payload : json;
  correlation_id : json;
  reply_to : json
}.

Record EmailRequest : Type := mkEmailRequest {
  to : json;
  subject : json;
  body : json;
  cc : json;
  bcc : json;
  attachments : json;
  html_body : json
}.

Record EmailResponse : Type := mkEmailResponse {
  success : bool;
  message_id : json;
  error : json;
  details : json
}.

Definition AgentMessage_fields : list field_spec :=
  [("agent_id", None); ("message_type", None); ("timestamp", None);
   ("payload", None); ("correlation_id", Some JNull); ("reply_to", Some JNull)].

Definition EmailRequest_fields : list field_spec :=
  [("to", None); ("subject", None); ("body", None); ("cc", Some JNull);
   ("bcc", Some JNull); ("attachments", Some JNull); ("html_body", Some JNull)].

(** [AgentMessage] built from the keywords of [v]. *)
Definition AgentMessage_of (v : json) : Result AgentMessage :=
  match bind_keywords "AgentMessage" AgentMessage_fields v with
  | Raise e => Raise e
  | Ok kw =>
      Ok {| agent_id := dict_get_or_none kw "agent_id";
            message_type := dict_get_or_none kw "message_type";
            timestamp := dict_get_or_none kw "timestamp";
            payload := dict_get_or_none kw "payload";
            correlation_id := dict_get_or_none kw "correlation_id";
            reply_to := dict_get_or_none kw "reply_to" |}
  end.

(** [EmailRequest] built from the keywords of [v]. *)
Definition EmailRequest_of (v : json) : Result EmailRequest :=
  match bind_keywords "EmailRequest" EmailRequest_fields v with
  | Raise e => Raise e
  | Ok kw =>
      Ok {| to := dict_get_or_none kw "to";
            subject := dict_get_or_none kw "subject";
            body := dict_get_or_none kw "body";
            cc := dict_get_or_none kw "cc";
            bcc := dict_get_or_none kw "bcc";
            attachments := dict_get_or_none kw "attachments";
            html_body := dict_get_or_none kw "html_body" |}
  end.

(** [dataclasses.asdict]: the fields in declaration order. *)
Definition asdict_message (m : AgentMessage) : pydict :=
  [("agent_id", agent_id m); ("message_type", message_type m);
   ("timestamp", timestamp m); ("payload", payload m);
   ("correlation_id", correlation_id m); ("reply_to", reply_to m)].

Definition asdict_request (r : EmailRequest) : pydict :=
  [("to", to r); ("subject", subject r); ("body", body r); ("cc", cc r);
   ("bcc", bcc r); ("attachments", attachments r); ("html_body", html_body r)].

Definition asdict_response (r : EmailResponse) : pydict :=
  [("success", JBool (success r)); ("message_id", message_id r);
   ("error", error r); ("details", details r)].

(* ================================================================== *)
(** ** MIME messages, as the [email] package builds them *)
(* ================================================================== *)

(** A message object: the headers the program sets, in the order it sets
    them, and the content.  [MIMEMultipart] holds the attached parts. *)
#[local] Unset Elimination Schemes.
Inductive MIME : Type :=
| MIMEText (headers : list (string * json)) (text : string) (subtype : string)
| MIMEBase (headers : list (string * json)) (maintype subtype : string)
           (content : string)
| MIMEMultipart (headers : list (string * json)) (subtype : string)
                (parts : list MIME).
#[local] Set Elimination Schemes.

(** [message[name] = value] appends a header. *)
Definition set_header (m : MIME) (name : string) (value : json) : MIME :=
  match m with
  | MIMEText h t s => MIMEText (h ++ [(name, value)])%list t s
  | MIMEBase h mt s c => MIMEBase (h ++ [(name, value)])%list mt s c
  | MIMEMultipart h s ps => MIMEMultipart (h ++ [(name, value)])%list s ps
  end.

Definition is_multipart (m : MIME) : bool :=
  match m with MIMEMultipart _ _ _ => true | _ => false end.

(** [message.attach(part)]; only a multipart container takes parts. *)
Definition attach (m part : MIME) : Result MIME :=
  match m with
  | MIMEMultipart h s ps => Ok (MIMEMultipart h s (ps ++ [part])%list)
  | _ => Raise (mkExc OtherException
                  "Cannot attach additional subparts to non-multipart/*")
  end.

(** [MIMEText(text, subtype)] needs a [str]: it calls [text.encode]. *)
Definition new_MIMEText (text : json) (subtype : string) : Result MIME :=
  match text with
  | JStr s => Ok (MIMEText [] s subtype)
  | _ => Raise (mkExc OtherException
                  (quoted (type_name text) ++ " object has no attribute 'encode'"))
  end.

(** The parts of a message that carry a file. *)
Definition is_attachment (m : MIME) : bool :=
  match m with MIMEBase _ _ _ _ => true | _ => false end.

Definition attachment_parts (m : MIME) : list MIME :=
  match m with
  | MIMEMultipart _ _ ps => filter is_attachment ps
  | _ => []
  end.

(* ================================================================== *)
(** ** The world outside the repository *)
(* ================================================================== *)

(** The file system, the clock, the interpreter's [repr], the [email]
    serializer and the Google client libraries.  [World] is the state they
    read and change; a call that can raise returns a [Result]. *)
Class Platform : Type := {
  World : Type;
  Credentials : Type;
  Service : Type;
  (** [repr] of a value that is not a [str] *)
  repr : json -> string;
  (** [datetime.utcnow().isoformat()] *)
  utcnow_isoformat : World -> string;
  (** [os.path.exists] *)
  os_path_exists : World -> json -> bool;
  (** [open(path, 'rb')] followed by [read()] *)
  read_binary : World -> json -> Result string;
  (** [open(path, 'w')] followed by [write(text)] *)
  write_text : World -> string -> string -> Result unit * World;
  (** the payload transformation of [encoders.encode_base64] *)
  encode_base64 : string -> string;
  (** [base64.urlsafe_b64encode(message.as_bytes()).decode()] *)
  raw_bytes : MIME -> Result string;
  (** [Credentials.from_authorized_user_file] *)
  from_authorized_user_file : World -> string -> list string -> Result Credentials;
  creds_valid : World -> Credentials -> bool;
  creds_expired : World -> Credentials -> bool;
  creds_refresh_token : Credentials -> bool;
  (** [creds.refresh(Request())] *)
  refresh : World -> Credentials -> Result Credentials * World;
  (** [InstalledAppFlow.from_client_secrets_file] and [run_local_server] *)
  run_local_server : World -> string -> list string -> Result Credentials * World;
  to_json : Credentials -> string;
  (** [build('gmail', 'v1', credentials=creds)] *)
  build : World -> Credentials -> Result Service * World;
  (** [service.users().messages().send(userId='me', body=message).execute()] *)
  execute_send : World -> Service -> pydict -> Result pydict * World
}.

(** The [json] package: [json.loads], and [json.dumps] with [indent=2]. *)
Class JsonLibrary : Type := {
  json_loads : string -> Result json;
  json_dumps : json -> string
}.

Inductive LogLevel : Type := INFO | ERROR.

(** The calls that leave the process for the delivery backend. *)
Inductive Call : Type :=
| CallLoadToken
| CallRefresh
| CallConsentFlow
| CallStoreToken
| CallBuild
| CallSend (body : pydict).

Inductive Event : Type :=
| EvLog (level : LogLevel) (msg : string)
| EvCall (c : Call).

Definition is_call (e : Event) : bool :=
  match e with EvCall _ => true | EvLog _ _ => false end.

Definition backend_calls (t : list Event) : list Event := filter is_call t.

Section Agent.
Context {P : Platform} {J : JsonLibrary}.

(** [str(v)], as an f-string formats a value. *)
Definition py_str (v : json) : string :=
  match v with
  | JStr s => s
  | _ => repr v
  end.

(** The instance: [agent_id], the file names and scopes set by [__init__],
    and [service], the backend session handle ([None] until authenticated). *)
Record GmailAgent : Type := mkGmailAgent {
  self_agent_id : string;
  credentials_file : string;
  token_file : string;
  scopes : list string;
  service : option Service
}.

(** [GmailAgent(agent_id, credentials_file)] *)
Definition init (aid : string) (cred_file : string) : GmailAgent :=
  {| self_agent_id := aid;
     credentials_file := cred_file;
     token_file := "token.json";
     scopes := ["https://www.googleapis.com/auth/gmail.send"];
     service := None |}.

(** What a method can read and change: the instance, the world, and the
    record of what was logged and which backend calls were made. *)
Record State : Type := mkState {
  self : GmailAgent;
  world : World;
  trace : list Event
}.

Definition M (A : Type) : Type := State -> Result A * State.

Definition ret {A} (a : A) : M A := fun st => (Ok a, st).

Definition bind {A B} (m : M A) (k : A -> M B) : M B :=
  fun st =>
    match m st with
    | (Ok a, st') => k a st'
    | (Raise e, st') => (Raise e, st')
    end.

Definition raise {A} (e : Exception) : M A := fun st => (Raise e, st).

(** [try: m  except Exception as e: handler e] *)
Definition try_except {A} (m : M A) (handler : Exception -> M A) : M A :=
  fun st =>
    match m st with
    | (Ok a, st') => (Ok a, st')
    | (Raise e, st') => handler e st'
    end.

Definition lift {A} (r : Result A) : M A := fun st => (r, st).

Definition get_self : M GmailAgent := fun st => (Ok (self st), st).

Definition observe {A} (f : World -> A) : M A := fun st => (Ok (f (world st)), st).

Definition set_service (s : Service) : M unit :=
  fun st =>
    (Ok tt,
     {| self := {| self_agent_id := self_agent_id (self st);
                   credentials_file := credentials_file (self st);
                   token_file := token_file (self st);
                   scopes := scopes (self st);
                   service := Some s |};
        world := world st;
        trace := trace st |}).

Definition emit (e : Event) : M unit :=
  fun st => (Ok tt, {| self := self st; world := world st;
                       trace := (trace st ++ [e])%list |}).

(** [self.logger.info] and [self.logger.error] *)
Definition log_info (msg : string) : M unit := emit (EvLog INFO msg).
Definition log_error (msg : string) : M unit := emit (EvLog ERROR msg).

(** A call into the backend: recorded, then answered by the platform. *)
Definition call {A} (c : Call) (f : World -> Result A * World) : M A :=
  fun st =>
    let (r, w') := f (world st) in
    (r, {| self := self st; world := w'; trace := (trace st ++ [EvCall c])%list |}).

Notation "x <- m ;; k" := (bind m (fun x => k))
  (at level 61, m at next level, right associativity).
Notation "m ;;; k" := (bind m (fun _ => k))
  (at level 61, right associativity).

(* ------------------------------------------------------------------ *)
(** *** [authenticate] *)

(** [creds.refresh(Request())] when the stored credentials have expired and
    can be refreshed, the consent flow otherwise; then the token file is
    rewritten. *)
Definition renew_credentials (a : GmailAgent) (creds : option Credentials)
  : M Credentials :=
  refreshable <- observe (fun w => match creds with
                                   | Some c => creds_expired w c && creds_refresh_token c
                                   | None => false
                                   end) ;;
  fresh <- match creds, refreshable with
           | Some c, true => call CallRefresh (fun w => refresh w c)
           | _, _ => call CallConsentFlow
                       (fun w => run_local_server w (credentials_file a) (scopes a))
           end ;;
  call CallStoreToken (fun w => write_text w (token_file a) (to_json fresh)) ;;;
  ret fresh.

Definition obtain_credentials (a : GmailAgent) : M Credentials :=
  exists_token <- observe (fun w => os_path_exists w (JStr (token_file a))) ;;
  creds <- (if exists_token
            then c <- call CallLoadToken
                        (fun w => (from_authorized_user_file w (token_file a) (scopes a), w)) ;;
                 ret (Some c)
            else ret None) ;;
  match creds with
  | Some c =>
      valid <- observe (fun w => creds_valid w c) ;;
      if valid then ret c else renew_credentials a creds
  | None => renew_credentials a creds
  end.

Definition authenticate : M bool :=
  try_except
    (a <- get_self ;;
     creds <- obtain_credentials a ;;
     svc <- call CallBuild (fun w => build w creds) ;;
     set_service svc ;;;
     log_info ("Agent " ++ self_agent_id a ++ " authenticated successfully") ;;;
     ret true)
    (fun e =>
       log_error ("Authentication failed: " ++ exc_str e) ;;;
       ret false).

(* ------------------------------------------------------------------ *)
(** *** [create_message] *)

(** The part built for one attachment once its file has been read. *)
Definition attachment_part (path content : string) : MIME :=
  MIMEBase [("Content-Transfer-Encoding", JStr "base64");
            ("Content-Disposition",
             JStr ("attachment; filename= " ++ basename path))]
           "application" "octet-stream" (encode_base64 content).

(** One round of the loop over [email_req.attachments]. *)
Definition attach_one (w : World) (message : MIME) (attachment_path : json)
  : Result MIME :=
  if os_path_exists w attachment_path then
    match read_binary w attachment_path with
    | Raise e => Raise e
    | Ok content =>
        match attachment_path with
        | JStr p => attach message (attachment_part p content)
        | _ => Raise (mkExc TypeError
                        "expected str, bytes or os.PathLike object")
        end
    end
  else Ok message.

Fixpoint attach_all (w : World) (message : MIME) (paths : list json)
  : Result MIME :=
  match paths with
  | [] => Ok message
  | p :: rest =>
      match attach_one w message p with
      | Raise e => Raise e
      | Ok message' => attach_all w message' rest
      end
  end.

Definition rbind {A B} (r : Result A) (k : A -> Result B) : Result B :=
  match r with Ok a => k a | Raise e => Raise e end.

(** The message once its text and its address headers are set: the first
    half of [create_message], up to the [bcc] header. *)
Definition message_with_headers (email_req : EmailRequest) : Result MIME :=
  rbind (if truthy (html_body email_req)
         then rbind (new_MIMEText (body email_req) "plain") (fun text_part =>
              rbind (new_MIMEText (html_body email_req) "html") (fun html_part =>
              Ok (MIMEMultipart [] "alternative" [text_part; html_part])))
         else new_MIMEText (body email_req) "plain") (fun message =>
  rbind (str_join ", " (to email_req)) (fun to_line =>
  let message := set_header message "to" (JStr to_line) in
  let message := set_header message "subject" (subject email_req) in
  rbind (if truthy (cc email_req)
         then rbind (str_join ", " (cc email_req)) (fun l =>
              Ok (set_header message "cc" (JStr l)))
         else Ok message) (fun message =>
  if truthy (bcc email_req)
  then rbind (str_join ", " (bcc email_req)) (fun l =>
       Ok (set_header message "bcc" (JStr l)))
  else Ok message))).

(** The message object [create_message] has built when it reaches
    [message.as_bytes()]: the attachments are added to a multipart
    container, which wraps the message if it is not one already. *)
Definition build_message (w : World) (email_req : EmailRequest) : Result MIME :=
  rbind (message_with_headers email_req) (fun message =>
  if truthy (attachments email_req)
  then
    let message := if negb (is_multipart message)
                   then MIMEMultipart [] "mixed" [message]
                   else message in
    rbind (py_iter (attachments email_req)) (fun paths =>
    attach_all w message paths)
  else Ok message).

Definition create_message (email_req : EmailRequest) : M (option pydict) :=
  try_except
    (w <- observe (fun w => w) ;;
     message <- lift (build_message w email_req) ;;
     raw_message <- lift (raw_bytes message) ;;
     ret (Some [("raw", JStr raw_message)]))
    (fun e =>
       log_error ("Failed to create message: " ++ exc_str e) ;;;
       ret None).

(* ------------------------------------------------------------------ *)
(** *** [send_email] *)

Definition getitem (d : pydict) (k : string) : Result json :=
  match dict_get d k with
  | Some v => Ok v
  | None => Raise (mkExc KeyError (quoted k))
  end.

Definition send_email (email_req : EmailRequest) : M EmailResponse :=
  try_except
    (a <- get_self ;;
     authenticated <- match service a with
                      | None => authenticate
                      | Some _ => ret true
                      end ;;
     if negb authenticated
     then ret {| success := false; message_id := JNull;
                 error := JStr "Authentication failed"; details := JNull |}
     else
       message <- create_message email_req ;;
       match message with
       | None =>
           ret {| success := false; message_id := JNull;
                  error := JStr "Failed to create email message";
                  details := JNull |}
       | Some msg =>
           a' <- get_self ;;
           result <- match service a' with
                     | Some svc => call (CallSend msg)
                                     (fun w => execute_send w svc msg)
                     | None => raise (mkExc OtherException
                                 "'NoneType' object has no attribute 'users'")
                     end ;;
           id <- lift (getitem result "id") ;;
           log_info ("Email sent successfully. Message ID: " ++ py_str id) ;;;
           ret {| success := true; message_id := id; error := JNull;
                  details := JObj [("thread_id", dict_get_or_none result "threadId")] |}
       end)
    (fun e =>
       if is_HttpError e
       then let error_msg := "Gmail API error: " ++ exc_str e in
            log_error error_msg ;;;
            ret {| success := false; message_id := JNull;
                   error := JStr error_msg; details := JNull |}
       else let error_msg := "Unexpected error: " ++ exc_str e in
            log_error error_msg ;;;
            ret {| success := false; message_id := JNull;
                   error := JStr error_msg; details := JNull |}).

(* ------------------------------------------------------------------ *)
(** *** [process_agent_message] *)

Definition capabilities_payload : pydict :=
  [("capabilities", JArr [JStr "email_send"; JStr "html_email";
                          JStr "attachments"; JStr "cc_bcc_support"]);
   ("agent_type", JStr "gmail_agent");
   ("version", JStr "1.0")].

(** The [try] block: the response type and payload chosen for a message. *)
Definition dispatch (message : AgentMessage) : M (string * pydict) :=
  if eq_str (message_type message) "email_send_request" then
    email_req <- lift (EmailRequest_of (payload message)) ;;
    email_response <- send_email email_req ;;
    ret ("email_send_response", asdict_response email_response)
  else if eq_str (message_type message) "health_check" then
    a <- get_self ;;
    ret ("health_check_response",
         [("status", JStr "healthy");
          ("agent_id", JStr (self_agent_id a));
          ("authenticated", JBool (match service a with
                                   | Some _ => true
                                   | None => false
                                   end))])
  else if eq_str (message_type message) "capability_inquiry" then
    ret ("capability_response", capabilities_payload)
  else
    ret ("error_response",
         [("error", JStr ("Unknown message type: " ++ py_str (message_type message)))]).

Definition process_agent_message (message : AgentMessage) : M AgentMessage :=
  log_info ("Processing message from " ++ py_str (agent_id message) ++ ": "
              ++ py_str (message_type message)) ;;;
  r <- try_except (dispatch message)
         (fun e =>
            log_error ("Error processing message: " ++ exc_str e) ;;;
            ret ("error_response",
                 [("error", JStr ("Processing error: " ++ exc_str e))])) ;;
  a <- get_self ;;
  now <- observe utcnow_isoformat ;;
  ret {| agent_id := JStr (self_agent_id a);
         message_type := JStr (fst r);
         timestamp := JStr now;
         payload := JObj (snd r);
         correlation_id := correlation_id message;
         reply_to := agent_id message |}.

(* ------------------------------------------------------------------ *)
(** *** [handle_message_json] *)

(** The envelope both [except] clauses build: no [correlation_id], no
    [reply_to]. *)
Definition error_envelope (a : GmailAgent) (now : string) (text : string)
  : AgentMessage :=
  {| agent_id := JStr (self_agent_id a);
     message_type := JStr "error_response";
     timestamp := JStr now;
     payload := JObj [("error", JStr text)];
     correlation_id := JNull;
     reply_to := JNull |}.

Definition handle_message_json (message_json : string) : M string :=
  try_except
    (message_data <- lift (json_loads message_json) ;;
     message <- lift (AgentMessage_of message_data) ;;
     response <- process_agent_message message ;;
     ret (json_dumps (JObj (asdict_message response))))
    (fun e =>
       a <- get_self ;;
       now <- observe utcnow_isoformat ;;
       if is_JSONDecodeError e
       then ret (json_dumps (JObj (asdict_message
                   (error_envelope a now ("Invalid JSON: " ++ exc_str e)))))
       else ret (json_dumps (JObj (asdict_message
                   (error_envelope a now ("Message handling error: " ++ exc_str e)))))).

End Agent.

Arguments M {P} A.
Arguments State {P}.
Arguments GmailAgent {P}.


(* ================================================================== *)
(** ** A reference implementation of the wire format *)
(* ================================================================== *)

(** [d[k] = v]: a key already there keeps its place and takes the new
    value, a new key goes last. *)
Fixpoint dict_set (d : pydict) (k : string) (v : json) : pydict :=
  match d with
  | [] => [(k, v)]
  | (k', v') :: d' =>
      if String.eqb k' k then (k', v) :: d' else (k', v') :: dict_set d' k v
  end.

(** The text [json.dumps(obj, indent=2)] writes and the objects
    [json.loads] reads back, for the values of [json].  A character is a
    code point below 256, and the floats are [NaN], [Infinity] and
    [-Infinity]; a backslash-u escape of a larger code point and a number
    with a fraction or an exponent are texts whose value lies outside
    [json], and the decoder says so instead of returning one. *)
Module Wire.
Local Open Scope nat_scope.

Definition dquote : ascii := "034"%char.
Definition backslash : ascii := "092"%char.
Definition newline : ascii := "010"%char.

Definition is_ws (c : ascii) : bool :=
  Ascii.eqb c " " || Ascii.eqb c "009" || Ascii.eqb c "010" || Ascii.eqb c "013".

Definition is_digit (c : ascii) : bool :=
  (48 <=? nat_of_ascii c) && (nat_of_ascii c <=? 57).

(* ------------------------------------------------------------------ *)
(** *** Encoding *)

Definition hex_char (n : nat) : ascii :=
  match n with
  | 0 => "0" | 1 => "1" | 2 => "2" | 3 => "3" | 4 => "4" | 5 => "5"
  | 6 => "6" | 7 => "7" | 8 => "8" | 9 => "9" | 10 => "a" | 11 => "b"
  | 12 => "c" | 13 => "d" | 14 => "e" | _ => "f"
  end%char.

(** [ensure_ascii]: the quote and the backslash are escaped, five control
    characters have a short escape, printable ASCII stands for itself and
    everything else becomes a four-digit escape. *)
Definition escape_char (c : ascii) : string :=
  let n := nat_of_ascii c in
  if Ascii.eqb c dquote then String backslash (String dquote EmptyString)
  else if Ascii.eqb c backslash then String backslash (String backslash EmptyString)
  else if n =? 8 then String backslash "b"
  else if n =? 12 then String backslash "f"
  else if n =? 10 then String backslash "n"
  else if n =? 13 then String backslash "r"
  else if n =? 9 then String backslash "t"
  else if (32 <=? n) && (n <=? 126) then String c EmptyString
  else String backslash
         (String "u" (String "0" (String "0"
            (String (hex_char (n / 16)) (String (hex_char (n mod 16)) EmptyString))))).

Fixpoint escape (s : string) : string :=
  match s with
  | EmptyString => EmptyString
  | String c s' => escape_char c ++ escape s'
  end.

Definition encode_string (s : string) : string :=
  String dquote (escape s ++ String dquote EmptyString).

Definition encode_int (z : Z) : string := NilZero.string_of_int (Z.to_int z).

(** [allow_nan] is on by default: the three floats are written by name. *)
Definition encode_float (f : pyfloat) : string :=
  match f with
  | NaN => "NaN"
  | Infinity false => "Infinity"
  | Infinity true => "-Infinity"
  end.

Fixpoint spaces (n : nat) : string :=
  match n with
  | O => EmptyString
  | S k => String " " (spaces k)
  end.

(** A line break and the indentation of nesting level [lvl]. *)
Definition newline_indent (lvl : nat) : string :=
  String newline (spaces (2 * lvl)).

Fixpoint encode (lvl : nat) (v : json) {struct v} : string :=
  match v with
  | JNull => "null"
  | JBool true => "true"
  | JBool false => "false"
  | JInt z => encode_int z
  | JFloat f => encode_float f
  | JStr s => encode_string s
  | JArr items =>
      match items with
      | [] => "[]"
      | x :: xs =>
          "[" ++ newline_indent (S lvl) ++ encode (S lvl) x
              ++ (fix more (l : list json) : string :=
                    match l with
                    | [] => EmptyString
                    | y :: l' =>
                        "," ++ newline_indent (S lvl) ++ encode (S lvl) y ++ more l'
                    end) xs
              ++ newline_indent lvl ++ "]"
      end
  | JObj fields =>
      match fields with
      | [] => "{}"
      | (k, x) :: kvs =>
          "{" ++ newline_indent (S lvl) ++ encode_string k ++ ": "
              ++ encode (S lvl) x
              ++ (fix more (l : list (string * json)) : string :=
                    match l with
                    | [] => EmptyString
                    | (k', y) :: l' =>
                        "," ++ newline_indent (S lvl) ++ encode_string k' ++ ": "
                            ++ encode (S lvl) y ++ more l'
                    end) kvs
              ++ newline_indent lvl ++ "}"
      end
  end.

(** [json.dumps(obj, indent=2)] *)
Definition dumps (v : json) : string := encode 0 v.

(* ------------------------------------------------------------------ *)
(** *** Decoding *)

(** A scanner stops with a value and the text after it, with a syntax
    error at some suffix of the document, or on a text it does not model. *)
Inductive Parsed (A : Type) : Type :=
| Done (a : A) (rest : string)
| Failed (msg : string) (where_ : string)
| Unsupported (what : string).
Arguments Done {A} a rest.
Arguments Failed {A} msg where_.
Arguments Unsupported {A} what.

Definition pmap {A B} (f : A -> B) (p : Parsed A) : Parsed B :=
  match p with
  | Done a r => Done (f a) r
  | Failed m w => Failed m w
  | Unsupported x => Unsupported x
  end.

Fixpoint skip_ws (s : string) : string :=
  match s with
  | EmptyString => s
  | String c s' => if is_ws c then skip_ws s' else s
  end.

Fixpoint strip_prefix (p s : string) : option string :=
  match p with
  | EmptyString => Some s
  | String a p' =>
      match s with
      | EmptyString => None
      | String b s' => if Ascii.eqb a b then strip_prefix p' s' else None
      end
  end.

Definition hex_value (c : ascii) : option nat :=
  let n := nat_of_ascii c in
  if (48 <=? n) && (n <=? 57) then Some (n - 48)
  else if (97 <=? n) && (n <=? 102) then Some (n - 87)
  else if (65 <=? n) && (n <=? 70) then Some (n - 55)
  else None.

Definition hex4 (a b c d : ascii) : option nat :=
  match hex_value a, hex_value b, hex_value c, hex_value d with
  | Some x, Some y, Some z, Some w => Some (((x * 16 + y) * 16 + z) * 16 + w)
  | _, _, _, _ => None
  end.

(** The single-character escapes. *)
Definition unescape (e : ascii) : option ascii :=
  if Ascii.eqb e dquote then Some dquote
  else if Ascii.eqb e backslash then Some backslash
  else if Ascii.eqb e "/" then Some "/"%char
  else if Ascii.eqb e "b" then Some "008"%char
  else if Ascii.eqb e "f" then Some "012"%char
  else if Ascii.eqb e "n" then Some "010"%char
  else if Ascii.eqb e "r" then Some "013"%char
  else if Ascii.eqb e "t" then Some "009"%char
  else None.

(** The body of a string literal, from just after its opening quote, which
    stands at [begin]. *)
Fixpoint scan_string (begin s : string) {struct s} : Parsed string :=
  match s with
  | EmptyString => Failed "Unterminated string starting at" begin
  | String c rest =>
      if Ascii.eqb c dquote then Done EmptyString rest
      else if Ascii.eqb c backslash then
        match rest with
        | EmptyString => Failed "Unterminated string starting at" begin
        | String e rest' =>
            if Ascii.eqb e "u" then
              match rest' with
              | String h1 (String h2 (String h3 (String h4 rest''))) =>
                  match hex4 h1 h2 h3 h4 with
                  | Some n =>
                      if n <? 256
                      then pmap (String (ascii_of_nat n)) (scan_string begin rest'')
                      else Unsupported "code point above U+00FF"
                  | None => Failed "Invalid \uXXXX escape" rest
                  end
              | _ => Failed "Invalid \uXXXX escape" rest
              end
            else
              match unescape e with
              | Some ch => pmap (String ch) (scan_string begin rest')
              | None => Failed "Invalid \escape" s
              end
        end
      else if nat_of_ascii c <? 32 then Failed "Invalid control character at" s
      else pmap (String c) (scan_string begin rest)
  end.

Fixpoint span_digits (s : string) : string * string :=
  match s with
  | EmptyString => (EmptyString, EmptyString)
  | String c s' =>
      if is_digit c
      then let (d, r) := span_digits s' in (String c d, r)
      else (EmptyString, s)
  end.

(** The integer part of a number: a lone zero, or a non-zero digit and the
    digits after it. *)
Definition scan_digits (s : string) : option (string * string) :=
  match s with
  | EmptyString => None
  | String c s' =>
      if Ascii.eqb c "0" then Some ("0", s')
      else if is_digit c then Some (span_digits s)
      else None
  end.

(** Whether a fraction or an exponent follows, which makes the number a
    float. *)
Definition float_follows (s : string) : bool :=
  match s with
  | String c (String d rest) =>
      if Ascii.eqb c "." then is_digit d
      else if Ascii.eqb c "e" || Ascii.eqb c "E" then
        if is_digit d then true
        else if Ascii.eqb d "+" || Ascii.eqb d "-" then
          match rest with
          | String d' _ => is_digit d'
          | EmptyString => false
          end
        else false
      else false
  | _ => false
  end.

Definition digits_value (d : string) : Z :=
  match NilZero.uint_of_string d with
  | Some u => Z.of_uint u
  | None => 0%Z
  end.

Definition scan_number (s : string) : option (Parsed json) :=
  let (negative, s1) :=
    match s with
    | String c s' => if Ascii.eqb c "-" then (true, s') else (false, s)
    | EmptyString => (false, s)
    end in
  match scan_digits s1 with
  | None => None
  | Some (d, rest) =>
      if float_follows rest then Some (Unsupported "float")
      else Some (Done (JInt (if negative then Z.opp (digits_value d)
                             else digits_value d)) rest)
  end.

Definition scan_literal (s : string) : Parsed json :=
  match strip_prefix "null" s with
  | Some r => Done JNull r
  | None =>
  match strip_prefix "true" s with
  | Some r => Done (JBool true) r
  | None =>
  match strip_prefix "false" s with
  | Some r => Done (JBool false) r
  | None =>
  match scan_number s with
  | Some p => p
  | None =>
  match strip_prefix "NaN" s with
  | Some r => Done (JFloat NaN) r
  | None =>
  match strip_prefix "Infinity" s with
  | Some r => Done (JFloat (Infinity false)) r
  | None =>
  match strip_prefix "-Infinity" s with
  | Some r => Done (JFloat (Infinity true)) r
  | None => Failed "Expecting value" s
  end end end end end end end.

Fixpoint parse_value (fuel : nat) (s : string) {struct fuel} : Parsed json :=
  match fuel with
  | O => Unsupported "maximum recursion depth exceeded"
  | S fuel' =>
      match s with
      | EmptyString => Failed "Expecting value" s
      | String c rest =>
          if Ascii.eqb c dquote then pmap JStr (scan_string s rest)
          else if Ascii.eqb c "{" then
            match skip_ws rest with
            | String c1 r1 =>
                if Ascii.eqb c1 "}" then Done (JObj []) r1
                else pmap JObj (parse_members fuel' (skip_ws rest) [])
            | EmptyString =>
                Failed "Expecting property name enclosed in double quotes" EmptyString
            end
          else if Ascii.eqb c "[" then
            match skip_ws rest with
            | String c1 r1 =>
                if Ascii.eqb c1 "]" then Done (JArr []) r1
                else pmap JArr (parse_elements fuel' (skip_ws rest) [])
            | EmptyString => Failed "Expecting value" EmptyString
            end
          else scan_literal s
      end
  end

with parse_elements (fuel : nat) (s : string) (acc : list json) {struct fuel}
  : Parsed (list json) :=
  match fuel with
  | O => Unsupported "maximum recursion depth exceeded"
  | S fuel' =>
      match parse_value fuel' s with
      | Done v r =>
          match skip_ws r with
          | String c r' =>
              if Ascii.eqb c "]" then Done (acc ++ [v])%list r'
              else if Ascii.eqb c ","
              then parse_elements fuel' (skip_ws r') (acc ++ [v])%list
              else Failed "Expecting ',' delimiter" (skip_ws r)
          | EmptyString => Failed "Expecting ',' delimiter" EmptyString
          end
      | Failed m w => Failed m w
      | Unsupported x => Unsupported x
      end
  end

with parse_members (fuel : nat) (s : string) (acc : pydict) {struct fuel}
  : Parsed pydict :=
  match fuel with
  | O => Unsupported "maximum recursion depth exceeded"
  | S fuel' =>
      match s with
      | EmptyString =>
          Failed "Expecting property name enclosed in double quotes" s
      | String c rest =>
          if Ascii.eqb c dquote then
            match scan_string s rest with
            | Done k r1 =>
                match skip_ws r1 with
                | String c2 r2 =>
                    if Ascii.eqb c2 ":" then
                      match parse_value fuel' (skip_ws r2) with
                      | Done v r3 =>
                          match skip_ws r3 with
                          | String c4 r4 =>
                              if Ascii.eqb c4 "}" then Done (dict_set acc k v) r4
                              else if Ascii.eqb c4 ","
                              then parse_members fuel' (skip_ws r4) (dict_set acc k v)
                              else Failed "Expecting ',' delimiter" (skip_ws r3)
                          | EmptyString => Failed "Expecting ',' delimiter" EmptyString
                          end
                      | Failed m w => Failed m w
                      | Unsupported x => Unsupported x
                      end
                    else Failed "Expecting ':' delimiter" (skip_ws r1)
                | EmptyString => Failed "Expecting ':' delimiter" EmptyString
                end
            | Failed m w => Failed m w
            | Unsupported x => Unsupported x
            end
          else Failed "Expecting property name enclosed in double quotes" s
      end
  end.

(** Line and column of the position [pos] in [doc], both counted from 1. *)
Fixpoint line_col (doc : string) (pos : nat) (line col : nat) : nat * nat :=
  match pos, doc with
  | S pos', String c doc' =>
      if Ascii.eqb c newline then line_col doc' pos' (S line) 1
      else line_col doc' pos' line (S col)
  | _, _ => (line, col)
  end.

(** [str(e)] of a [JSONDecodeError] raised at the suffix [where_]. *)
Definition describe (doc msg where_ : string) : string :=
  let pos := String.length doc - String.length where_ in
  let (line, col) := line_col doc pos 1 1 in
  msg ++ ": line " ++ nat_to_string line ++ " column " ++ nat_to_string col
      ++ " (char " ++ nat_to_string pos ++ ")".

(** [json.loads(s)] *)
Definition loads (s : string) : Result json :=
  match parse_value (2 * String.length s + 2) (skip_ws s) with
  | Done v r =>
      match skip_ws r with
      | EmptyString => Ok v
      | rest => Raise (mkExc JSONDecodeError (describe s "Extra data" rest))
      end
  | Failed msg w => Raise (mkExc JSONDecodeError (describe s msg w))
  | Unsupported what => Raise (mkExc OtherException what)
  end.

End Wire.

#[export] Instance wire_json : JsonLibrary := {|
  json_loads := Wire.loads;
  json_dumps := Wire.dumps
|}.

(** Writes a JSON text with apostrophes where the double quotes go. *)
Fixpoint jtext (s : string) : string :=
  match s with
  | EmptyString => EmptyString
  | String c s' =>
      String (if Ascii.eqb c "'" then Wire.dquote else c) (jtext s')
  end.

(** A value Python can hold and JSON can carry: the keys of every dict in
    it are distinct. *)
Fixpoint distinct (l : list string) : bool :=
  match l with
  | [] => true
  | k :: l' => negb (existsb (String.eqb k) l') && distinct l'
  end.

Fixpoint json_wf (v : json) {struct v} : bool :=
  match v with
  | JArr items => forallb json_wf items
  | JObj fields =>
      distinct (map fst fields) && forallb (fun kv => json_wf (snd kv)) fields
  | _ => true
  end.

(** The message envelope holds only such values. *)
Definition message_wf (m : AgentMessage) : bool :=
  json_wf (agent_id m) && json_wf (message_type m) && json_wf (timestamp m)
  && json_wf (payload m) && json_wf (correlation_id m) && json_wf (reply_to m).







Section WireFormat.
Context {J : JsonLibrary}.

(** What goes on the wire for a message: [json.dumps(asdict(m), indent=2)]. *)
Definition serialize (m : AgentMessage) : string :=
  json_dumps (JObj (asdict_message m)).

(** How [handle_message_json] reads a message off the wire: [json.loads],
    then the [AgentMessage] constructor on the keywords it finds. *)
Definition deserialize (s : string) : Result AgentMessage :=
  match json_loads s with
  | Ok message_data => AgentMessage_of message_data
  | Raise e => Raise e
  end.

End WireFormat.

(** Structural induction on [json], with the induction hypothesis for every
    element of a list and every value of a dict. *)
Fixpoint json_induction (Q : json -> Prop)
  (Hnull : Q JNull) (Hbool : forall b, Q (JBool b)) (Hint : forall z, Q (JInt z))
  (Hstr : forall s, Q (JStr s))
  (Harr : forall l, Forall Q l -> Q (JArr l))
  (Hobj : forall d, Forall (fun kv => Q (snd kv)) d -> Q (JObj d))
  (Hfloat : forall f, Q (JFloat f))
  (v : json) {struct v} : Q v :=
  match v with
  | JNull => Hnull
  | JBool b => Hbool b
  | JInt z => Hint z
  | JStr s => Hstr s
  | JArr l =>
      Harr l ((fix all (l : list json) : Forall Q l :=
                 match l with
                 | [] => Forall_nil Q
                 | x :: l' =>
                     Forall_cons x
                       (json_induction Q Hnull Hbool Hint Hstr Harr Hobj Hfloat x)
                       (all l')
                 end) l)
  | JObj d =>
      Hobj d ((fix all (d : pydict) : Forall (fun kv => Q (snd kv)) d :=
                 match d with
                 | [] => Forall_nil _
                 | kv :: d' =>
                     Forall_cons kv
                       (json_induction Q Hnull Hbool Hint Hstr Harr Hobj Hfloat
                          (snd kv))
                       (all d')
                 end) d)
  | JFloat f => Hfloat f
  end.

Module WireTerms.
Import Wire.
Local Open Scope nat_scope.

(** The text after the first element of a list, and after the first member
    of a dict, up to the line break before the closing bracket. *)
Fixpoint more_items (lvl : nat) (l : list json) : string :=
  match l with
  | [] => EmptyString
  | y :: l' => "," ++ newline_indent lvl ++ encode lvl y ++ more_items lvl l'
  end.

Fixpoint more_fields (lvl : nat) (l : pydict) : string :=
  match l with
  | [] => EmptyString
  | (k, y) :: l' =>
      "," ++ newline_indent lvl ++ encode_string k ++ ": " ++ encode lvl y
          ++ more_fields lvl l'
  end.

(** Fuel that suffices to decode the encoding of a value. *)
Fixpoint need (v : json) {struct v} : nat :=
  match v with
  | JArr items =>
      S ((fix sum (l : list json) : nat :=
            match l with
            | [] => 0
            | x :: l' => S (need x + sum l')
            end) items)
  | JObj fields =>
      S ((fix sum (l : pydict) : nat :=
            match l with
            | [] => 0
            | (_, x) :: l' => S (need x + sum l')
            end) fields)
  | _ => 1
  end.

Fixpoint need_items (l : list json) : nat :=
  match l with
  | [] => 0
  | x :: l' => S (need x + need_items l')
  end.

Fixpoint need_fields (l : pydict) : nat :=
  match l with
  | [] => 0
  | (_, x) :: l' => S (need x + need_fields l')
  end.

(** What the encoder writes after a value: nothing, a comma, a line break. *)
Definition boundary (rest : string) : Prop :=
  match rest with
  | EmptyString => True
  | String c _ => c = ","%char \/ c = newline
  end.

(** Decoding the encoding of [v], at any nesting level and before any text
    the encoder can put after a value, gives [v] back. *)
Definition reads_back (v : json) : Prop :=
  json_wf v = true ->
  forall lvl rest fuel,
    boundary rest -> need v <= fuel ->
    parse_value fuel (encode lvl v ++ rest) = Done v rest.

(** One step of building a dict from the pairs of an object. *)
Definition set_pair (d : pydict) (kv : string * json) : pydict :=
  dict_set d (fst kv) (snd kv).

End WireTerms.

(* ================================================================== *)
(** ** The vocabulary of the specification *)
(* ================================================================== *)

Section Vocabulary.
Context {P : Platform}.

(** The agent never renames itself: no method assigns [self.agent_id]. *)
Definition keeps_id {A} (m : M A) : Prop :=
  forall st r st', m st = (r, st') ->
                   self_agent_id (self st') = self_agent_id (self st).

(** The state once the opening [logger.info] line has run. *)
Definition entered (m : AgentMessage) (st : State) : State :=
  {| self := self st; world := world st;
     trace := (trace st ++
               [EvLog INFO ("Processing message from " ++ py_str (agent_id m)
                            ++ ": " ++ py_str (message_type m))])%list |}.

(** The invariant of section 3 on an [EmailResponse]. *)
Definition EmailResponse_invariant (r : EmailResponse) : Prop :=
  (success r = true -> present (message_id r) /\ absent (error r))
  /\ (success r = false -> present (error r)).

(** What the delivery backend promises about a send it reports as done: the
    message id it returns, if any, is not [None]. *)
Definition backend_ids_present : Prop :=
  forall w svc body res w',
    execute_send w svc body = (Ok res, w') -> dict_get res "id" <> Some JNull.

(** An [EmailRequest] whose fields have their declared types. *)
Record TypedEmailRequest : Type := mkTyped {
  to_ : list string;
  subject_ : string;
  body_ : string;
  cc_ : option (list string);
  bcc_ : option (list string);
  attachments_ : option (list string);
  html_body_ : option string
}.

Definition str_list (l : list string) : json := JArr (map JStr l).

Definition opt_str_list (o : option (list string)) : json :=
  match o with Some l => str_list l | None => JNull end.

Definition well_typed (t : TypedEmailRequest) : EmailRequest :=
  {| to := str_list (to_ t);
     subject := JStr (subject_ t);
     body := JStr (body_ t);
     cc := opt_str_list (cc_ t);
     bcc := opt_str_list (bcc_ t);
     attachments := opt_str_list (attachments_ t);
     html_body := some_or_none (html_body_ t) |}.

(** The paths of a list that exist in the world, in the order of the list. *)
Definition existing (w : World) (paths : list string) : list string :=
  filter (fun p => os_path_exists w (JStr p)) paths.

(** Every file of the list that exists can be opened and read. *)
Definition readable (w : World) (paths : list string) : Prop :=
  forall p, In p paths -> os_path_exists w (JStr p) = true ->
            exists content, read_binary w (JStr p) = Ok content.

Definition file_content (w : World) (p : string) : string :=
  match read_binary w (JStr p) with Ok c => c | Raise _ => EmptyString end.

End Vocabulary.
(* ================================================================== *)
(** ** A concrete platform *)
(* ================================================================== *)

(** A small world to run the agent in: named files, a switch for whether
    the mail API answers, the credentials a consent flow would hand out, and
    the reading of the clock. *)
Record DemoWorld : Type := mkDemoWorld {
  files : list (string * string);
  gmail_up : bool;
  consent : option string;
  clock : string
}.

Fixpoint lookup_file (fs : list (string * string)) (p : string) : option string :=
  match fs with
  | [] => None
  | (q, c) :: fs' => if String.eqb q p then Some c else lookup_file fs' p
  end.

Definition demo_repr (v : json) : string :=
  match v with
  | JNull => "None"
  | JBool true => "True"
  | JBool false => "False"
  | JInt z => NilZero.string_of_int (Z.to_int z)
  | JStr s => quoted s
  | JArr _ => "[...]"
  | JObj _ => "{...}"
  | JFloat NaN => "nan"
  | JFloat (Infinity false) => "inf"
  | JFloat (Infinity true) => "-inf"
  end.

Definition demo_exists (w : DemoWorld) (p : json) : bool :=
  match p with
  | JStr s => match lookup_file (files w) s with Some _ => true | None => false end
  | _ => false
  end.

Definition demo_read (w : DemoWorld) (p : json) : Result string :=
  match p with
  | JStr s =>
      match lookup_file (files w) s with
      | Some c => Ok c
      | None => Raise (mkExc OtherException "No such file or directory")
      end
  | _ => Raise (mkExc TypeError "expected str, bytes or os.PathLike object")
  end.

Definition demo_write (w : DemoWorld) (p text : string) : Result unit * DemoWorld :=
  (Ok tt, {| files := (p, text) :: files w; gmail_up := gmail_up w;
             consent := consent w; clock := clock w |}).

Definition demo_consent (w : DemoWorld) (cred_file : string) (sc : list string)
  : Result string * DemoWorld :=
  match consent w with
  | Some c => (Ok c, w)
  | None => (Raise (mkExc OtherException "No such file or directory: 'credentials.json'"), w)
  end.

Definition demo_execute (w : DemoWorld) (svc : unit) (body : pydict)
  : Result pydict * DemoWorld :=
  if gmail_up w
  then (Ok [("id", JStr "18c0ffee"); ("threadId", JStr "18c0ffee");
            ("labelIds", JArr [JStr "SENT"])], w)
  else (Raise (mkExc HttpError "<HttpError 503 Service Unavailable>"), w).

Fixpoint demo_render (m : MIME) : string :=
  match m with
  | MIMEText _ t _ => t
  | MIMEBase _ _ _ c => c
  | MIMEMultipart _ _ ps =>
      (fix go (l : list MIME) : string :=
         match l with
         | [] => EmptyString
         | p :: l' => demo_render p ++ "|" ++ go l'
         end) ps
  end.

#[export] Instance demo_platform : Platform := {|
  World := DemoWorld;
  Credentials := string;
  Service := unit;
  repr := demo_repr;
  utcnow_isoformat := clock;
  os_path_exists := demo_exists;
  read_binary := demo_read;
  write_text := demo_write;
  encode_base64 := fun s => s;
  raw_bytes := fun m => Ok (demo_render m);
  from_authorized_user_file := fun w p _ => demo_read w (JStr p);
  creds_valid := fun _ _ => true;
  creds_expired := fun _ _ => false;
  creds_refresh_token := fun _ => true;
  refresh := fun w c => (Ok c, w);
  run_local_server := demo_consent;
  to_json := fun c => c;
  build := fun w _ => (Ok tt, w);
  execute_send := demo_execute
|}.

Definition demo_world : DemoWorld :=
  {| files := [("notes.txt", "hello")]; gmail_up := true;
     consent := Some "token"; clock := "2024-01-01T00:00:00" |}.

Definition demo_world_down : DemoWorld :=
  {| files := [("notes.txt", "hello")]; gmail_up := false;
     consent := Some "token"; clock := "2024-01-01T00:00:00" |}.

(** A fresh agent in a given world, nothing logged or called yet. *)
Definition fresh_state (w : DemoWorld) : @State demo_platform :=
  {| self := init "gmail-agent-001" "credentials.json"; world := w; trace := [] |}.


(** An agent that has authenticated already. *)
Definition authenticated_state (w : DemoWorld) : @State demo_platform :=
  {| self := {| self_agent_id := "gmail-agent-001";
                credentials_file := "credentials.json";
                token_file := "token.json";
                scopes := ["https://www.googleapis.com/auth/gmail.send"];
                service := Some tt |};
     world := w; trace := [] |}.

(** The request of the module's [main]: a send with [to], [subject],
    [body] and [cc], from [client-agent-001], correlation id [test-001]. *)
Definition demo_request : EmailRequest :=
  {| to := JArr [JStr "alice@example.org"];
     subject := JStr "Test Email from Gmail Agent";
     body := JStr "This is a test email.";
     cc := JArr [JStr "bob@example.org"];
     bcc := JNull; attachments := JNull; html_body := JNull |}.

Definition demo_send : AgentMessage :=
  {| agent_id := JStr "client-agent-001";
     message_type := JStr "email_send_request";
     timestamp := JStr "2024-01-01T00:00:00";
     payload := JObj (asdict_request demo_request);
     correlation_id := JStr "test-001";
     reply_to := JNull |}.



Definition demo_health : AgentMessage :=
  {| agent_id := JStr "c1";
     message_type := JStr "health_check";
     timestamp := JStr "t";
     payload := JObj [];
     correlation_id := JNull;
     reply_to := JNull |}.

Definition demo_capability : AgentMessage :=
  {| agent_id := JStr "c1";
     message_type := JStr "capability_inquiry";
     timestamp := JStr "t";
     payload := JObj [];
     correlation_id := JStr "q-7";
     reply_to := JNull |}.

Definition demo_unknown : AgentMessage :=
  {| agent_id := JStr "c1";
     message_type := JStr "email_sent_request";
     timestamp := JStr "t";
     payload := JObj [];
     correlation_id := JStr "q-8";
     reply_to := JNull |}.

(** A typed request that lists one file that exists in [demo_world] and one
    that does not. *)
Definition demo_typed : TypedEmailRequest :=
  {| to_ := ["alice@example.org"];
     subject_ := "Files";
     body_ := "See attached.";
     cc_ := None; bcc_ := None;
     attachments_ := Some ["missing.pdf"; "notes.txt"];
     html_body_ := None |}.

(* ================================================================== *)
(** ** What a run adds to the record of calls *)
(* ================================================================== *)

(** The backend calls among the events of a trace, in order. *)
Fixpoint calls_of (t : list Event) : list Call :=
  match t with
  | [] => []
  | EvCall c :: t' => c :: calls_of t'
  | EvLog _ _ :: t' => calls_of t'
  end.

Definition is_send (c : Call) : bool :=
  match c with CallSend _ => true | _ => false end.

Definition is_renewal (c : Call) : bool :=
  match c with CallRefresh | CallConsentFlow => true | _ => false end.

(** The renewal open to [renew_credentials]: without stored credentials
    there is nothing to refresh. *)
Definition renewal_for {C : Type} (creds : option C) (c : Call) : bool :=
  match creds, c with
  | Some _, CallRefresh => true
  | _, CallConsentFlow => true
  | _, _ => false
  end.

Definition is_build (c : Call) : bool :=
  match c with CallBuild => true | _ => false end.

(** The sequences of calls [obtain_credentials] can make: the token is
    loaded when its file exists, and unless it is valid the credentials are
    refreshed or asked for anew and then stored.  [ok] tells whether the
    credentials were obtained; a sequence cut short ends in a failure. *)
Definition creds_shape (ok : bool) (l : list Call) : bool :=
  match l with
  | [CallLoadToken] => true
  | [CallLoadToken; CallRefresh] => negb ok
  | [CallLoadToken; CallConsentFlow] => negb ok
  | [CallConsentFlow] => negb ok
  | [CallLoadToken; CallRefresh; CallStoreToken] => true
  | [CallLoadToken; CallConsentFlow; CallStoreToken] => true
  | [CallConsentFlow; CallStoreToken] => true
  | _ => false
  end.

(** The sequences of calls [authenticate] can make: those of
    [obtain_credentials], followed by [build] when the credentials were
    obtained.  [ok] is the value [authenticate] returns. *)
Definition auth_shape (ok : bool) (l : list Call) : bool :=
  match l with
  | [CallLoadToken] => negb ok
  | [CallLoadToken; CallRefresh] => negb ok
  | [CallLoadToken; CallConsentFlow] => negb ok
  | [CallConsentFlow] => negb ok
  | [CallLoadToken; CallRefresh; CallStoreToken] => negb ok
  | [CallLoadToken; CallConsentFlow; CallStoreToken] => negb ok
  | [CallConsentFlow; CallStoreToken] => negb ok
  | [CallLoadToken; CallBuild] => true
  | [CallLoadToken; CallRefresh; CallStoreToken; CallBuild] => true
  | [CallLoadToken; CallConsentFlow; CallStoreToken; CallBuild] => true
  | [CallConsentFlow; CallStoreToken; CallBuild] => true
  | _ => false
  end.

Definition is_ok {A} (r : Result A) : bool :=
  match r with Ok _ => true | Raise _ => false end.

(** The responses [send_email] gives without reaching the mail API. *)
Definition authentication_failed : EmailResponse :=
  {| success := false; message_id := JNull;
     error := JStr "Authentication failed"; details := JNull |}.

Definition creation_failed : EmailResponse :=
  {| success := false; message_id := JNull;
     error := JStr "Failed to create email message"; details := JNull |}.

(** The response [send_email] makes of what [execute()] did: the id and
    the thread id of the result, or the text of the exception, under the
    heading of its [except] clause.  A result without [id] is a [KeyError]. *)
Definition send_outcome (r : Result pydict) : EmailResponse :=
  match r with
  | Ok result =>
      match dict_get result "id" with
      | Some id =>
          {| success := true; message_id := id; error := JNull;
             details := JObj [("thread_id", dict_get_or_none result "threadId")] |}
      | None =>
          {| success := false; message_id := JNull;
             error := JStr "Unexpected error: 'id'"; details := JNull |}
      end
  | Raise e =>
      {| success := false; message_id := JNull;
         error := JStr ((if is_HttpError e then "Gmail API error: "
                         else "Unexpected error: ") ++ exc_str e);
         details := JNull |}
  end.

Section RunVocabulary.
Context {P : Platform}.

(** The response [process_agent_message] assembles around a response type
    and a payload. *)
Definition respond (a : GmailAgent) (now : string) (m : AgentMessage)
           (response_type : string) (response_payload : pydict) : AgentMessage :=
  {| agent_id := JStr (self_agent_id a);
     message_type := JStr response_type;
     timestamp := JStr now;
     payload := JObj response_payload;
     correlation_id := correlation_id m;
     reply_to := agent_id m |}.

(** What [authenticate] finds in the token file: nothing when the file does
    not exist, else what loading it gives. *)
Definition stored_credentials (st : State) : option (Result Credentials) :=
  if os_path_exists (world st) (JStr (token_file (self st)))
  then Some (from_authorized_user_file (world st) (token_file (self st))
               (scopes (self st)))
  else None.

Definition load_calls (st : State) : list Call :=
  match stored_credentials st with Some _ => [CallLoadToken] | None => [] end.

(** The renewal [authenticate] makes in a state, with what the call gives:
    none when valid credentials were loaded or loading raised; a refresh of
    expired credentials that hold a refresh token; the consent flow in every
    other case. *)
Definition renewal (st : State) : option (Call * (Result Credentials * World)) :=
  let consent :=
    Some (CallConsentFlow,
          run_local_server (world st) (credentials_file (self st)) (scopes (self st))) in
  match stored_credentials st with
  | Some (Raise _) => None
  | Some (Ok c) =>
      if creds_valid (world st) c then None
      else if creds_expired (world st) c && creds_refresh_token c
           then Some (CallRefresh, refresh (world st) c)
           else consent
  | None => consent
  end.


(** A state with one more line in the log. *)
Definition logged (level : LogLevel) (msg : string) (st : State) : State :=
  {| self := self st; world := world st;
     trace := (trace st ++ [EvLog level msg])%list |}.

End RunVocabulary.

(* ================================================================== *)
(** ** Well-typed requests and the message they describe *)
(* ================================================================== *)

(** The header line of an optional address list: none for an absent or an
    empty list. *)
Definition address_header (name : string) (o : option (list string))
  : list (string * json) :=
  match o with
  | Some (a :: l) => [(name, JStr (String.concat ", " (a :: l)))]
  | _ => []
  end.

(** The headers [create_message] sets for a well-typed request, in order. *)
Definition typed_headers (t : TypedEmailRequest) : list (string * json) :=
  ([("to", JStr (String.concat ", " (to_ t))); ("subject", JStr (subject_ t))]
     ++ address_header "cc" (cc_ t) ++ address_header "bcc" (bcc_ t))%list.

(** The message a well-typed request describes before any attachment: a
    plain text, or the plain text and the HTML text as alternatives when
    the request has a non-empty [html_body]. *)
Definition typed_message (t : TypedEmailRequest) : MIME :=
  match html_body_ t with
  | Some (String c h) =>
      MIMEMultipart (typed_headers t) "alternative"
        [MIMEText [] (body_ t) "plain"; MIMEText [] (String c h) "html"]
  | _ => MIMEText (typed_headers t) (body_ t) "plain"
  end.

Definition field_names (fs : list field_spec) : list string := map fst fs.

(* ================================================================== *)
(** ** [main] *)
(* ================================================================== *)

Section Main.
Context {P : Platform} {J : JsonLibrary}.

Notation "x <- m ;; k" := (bind m (fun x => k))
  (at level 61, m at next level, right associativity).

(** The request [main] sends; the addresses are the ones of the source. *)
Definition main_request : EmailRequest :=
  {| to := JArr [JStr "*******"];
     subject := JStr "Test Email from Gmail Agent";
     body := JStr "This is a test email sent using the Gmail Agent with Agent2Agent protocol.";
     cc := JArr [JStr "*******"];
     bcc := JNull;
     attachments := JNull;
     html_body := JNull |}.

Definition main_send_message (now : string) : AgentMessage :=
  {| agent_id := JStr "client-agent-001";
     message_type := JStr "email_send_request";
     timestamp := JStr now;
     payload := JObj (asdict_request main_request);
     correlation_id := JStr "test-001";
     reply_to := JNull |}.

Definition main_health_check (now : string) : AgentMessage :=
  {| agent_id := JStr "client-agent-001";
     message_type := JStr "health_check";
     timestamp := JStr now;
     payload := JObj [];
     correlation_id := JNull;
     reply_to := JNull |}.

(** The body of [main] once the agent is constructed; the value is the
    list of the lines given to [print], in order. *)
Definition main_body : M (list string) :=
  authenticated <- authenticate ;;
  if negb authenticated
  then ret ["Failed to authenticate. Please check your credentials."]
  else
    now <- observe utcnow_isoformat ;;
    response <- process_agent_message (main_send_message now) ;;
    now' <- observe utcnow_isoformat ;;
    health_response <- process_agent_message (main_health_check now') ;;
    ret ["Agent Response:";
         json_dumps (JObj (asdict_message response));
         String "010" "Health Check Response:";
         json_dumps (JObj (asdict_message health_response))].

Definition main (w : World) : Result (list string) * State :=
  main_body {| self := init "gmail-agent-001" "credentials.json";
               world := w; trace := [] |}.

End Main.

(* ================================================================== *)
(** ** More inputs for the concrete platform *)
(* ================================================================== *)

(** A world in which an earlier run has left its token file. *)
Definition demo_world_token : DemoWorld :=
  {| files := [("token.json", "token"); ("notes.txt", "hello")]; gmail_up := true;
     consent := None; clock := "2024-01-01T00:00:00" |}.

(** A request whose [body] is a number. *)
Definition demo_bad_body_request : EmailRequest :=
  {| to := JArr [JStr "alice@example.org"];
     subject := JStr "Hi";
     body := JInt 5;
     cc := JNull; bcc := JNull; attachments := JNull; html_body := JNull |}.

Definition demo_send_bad_body : AgentMessage :=
  {| agent_id := JStr "client-agent-001";
     message_type := JStr "email_send_request";
     timestamp := JStr "2024-01-01T00:00:00";
     payload := JObj [("to", JArr [JStr "alice@example.org"]);
                      ("subject", JStr "Hi"); ("body", JInt 5)];
     correlation_id := JStr "test-004";
     reply_to := JNull |}.

(** A typed request without attachments, with a copy to a second address
    and an empty list of blind copies. *)
Definition demo_typed_plain : TypedEmailRequest :=
  {| to_ := ["alice@example.org"; "carol@example.org"];
     subject_ := "Hello";
     body_ := "Plain text.";
     cc_ := Some ["bob@example.org"]; bcc_ := Some [];
     attachments_ := None;
     html_body_ := None |}.


(** A mail API whose result holds [None] under [id]. *)
Definition demo_execute_null_id (w : DemoWorld) (svc : unit) (body : pydict)
  : Result pydict * DemoWorld :=
  (Ok [("id", JNull); ("threadId", JStr "18c0ffee")], w).

(** The concrete platform with that mail API in place of its own. *)
Definition null_id_platform : Platform := {|
  World := DemoWorld;
  Credentials := string;
  Service := unit;
  repr := demo_repr;
  utcnow_isoformat := clock;
  os_path_exists := demo_exists;
  read_binary := demo_read;
  write_text := demo_write;
  encode_base64 := fun s => s;
  raw_bytes := fun m => Ok (demo_render m);
  from_authorized_user_file := fun w p _ => demo_read w (JStr p);
  creds_valid := fun _ _ => true;
  creds_expired := fun _ _ => false;
  creds_refresh_token := fun _ => true;
  refresh := fun w c => (Ok c, w);
  run_local_server := demo_consent;
  to_json := fun c => c;
  build := fun w _ => (Ok tt, w);
  execute_send := demo_execute_null_id
|}.

Definition null_id_state : @State null_id_platform :=
  @mkState null_id_platform
    (@mkGmailAgent null_id_platform "gmail-agent-001" "credentials.json"
       "token.json" ["https://www.googleapis.com/auth/gmail.send"] (Some tt))
    demo_world [].


(* ================================================================== *)
(** ** [_setup_logging] and the logger registry *)
(* ================================================================== *)

(** [logging.getLogger(name)] gives the one logger of that name, creating it
    on first use; the registry is the part of the [logging] module's state
    the agent reads and changes: for each named logger its level and its
    own handlers. *)
Record Handler : Type := mkHandler {
  handler_stream : string;
  handler_format : option string
}.

Record Logger : Type := mkLogger {
  logger_level : Z;
  logger_handlers : list Handler
}.

Definition Registry : Type := list (string * Logger).

Fixpoint registry_get (reg : Registry) (name : string) : option Logger :=
  match reg with
  | [] => None
  | (n, l) :: reg' => if String.eqb n name then Some l else registry_get reg' name
  end.

Fixpoint registry_set (reg : Registry) (name : string) (l : Logger) : Registry :=
  match reg with
  | [] => [(name, l)]
  | (n, l0) :: reg' =>
      if String.eqb n name then (n, l) :: reg'
      else (n, l0) :: registry_set reg' name l
  end.

(** A logger is created with level [NOTSET] and without handlers. *)
Definition getLogger (reg : Registry) (name : string) : Logger :=
  match registry_get reg name with
  | Some l => l
  | None => mkLogger 0 []
  end.

Definition logging_INFO : Z := 20.

(** [logging.StreamHandler()] writes to [sys.stderr]. *)
Definition stream_handler : Handler :=
  mkHandler "stderr" (Some "%(asctime)s - %(name)s - %(levelname)s - %(message)s").

Definition logger_name (agent_id : string) : string := "GmailAgent-" ++ agent_id.

Definition _setup_logging (agent_id : string) (reg : Registry) : Registry :=
  let name := logger_name agent_id in
  let logger := getLogger reg name in
  let logger := mkLogger logging_INFO (logger_handlers logger) in
  let logger :=
    match logger_handlers logger with
    | [] => mkLogger (logger_level logger)
                     (logger_handlers logger ++ [stream_handler])%list
    | _ => logger
    end in
  registry_set reg name logger.

(** The registry after agents with these ids have been constructed, in
    order: [__init__] calls [_setup_logging]. *)
Definition construct_agents (ids : list string) (reg : Registry) : Registry :=
  fold_left (fun r agent_id => _setup_logging agent_id r) ids reg.

(** The handlers the logger of an agent has once the agent exists: those it
    had, or the one stream handler if it had none. *)
Definition handlers_once_set_up (reg : Registry) (agent_id : string) : list Handler :=
  match logger_handlers (getLogger reg (logger_name agent_id)) with
  | [] => [stream_handler]
  | hs => hs
  end.

(* ================================================================== *)
(** * The Nextcloud client ([ConexionNextcloud.py]) *)
(* ================================================================== *)

Module ConexionNextcloud.

(* ------------------------------------------------------------------ *)
(** ** The string methods the client uses *)

(** [s.rstrip(c)] for a one-character [c]: [s] without its trailing [c]s. *)
Fixpoint rstrip (s : string) (c : ascii) : string :=
  match s with
  | EmptyString => EmptyString
  | String a s' =>
      match rstrip s' c with
      | EmptyString => if Ascii.eqb a c then EmptyString else String a EmptyString
      | r => String a r
      end
  end.

(** [s.split(sep)] for a non-empty [sep]: the pieces between the
    occurrences of [sep], found from the left and not overlapping.  [skip]
    counts the characters of a separator still to pass over. *)
Fixpoint split_from (sep : string) (skip : nat) (s : string) : list string :=
  match s with
  | EmptyString => [EmptyString]
  | String a s' =>
      match skip with
      | S k => split_from sep k s'
      | O =>
          if String.prefix sep s
          then EmptyString :: split_from sep (String.length sep - 1) s'
          else match split_from sep 0 s' with
               | piece :: rest => String a piece :: rest
               | [] => [String a EmptyString]
               end
      end
  end.

Definition split (s sep : string) : list string := split_from sep 0 s.

(** [s.find(sep)]: where [sep] first occurs in [s], if it does. *)
Fixpoint find (s sep : string) : option nat :=
  if String.prefix sep s then Some 0
  else match s with
       | EmptyString => None
       | String _ s' =>
           match find s' sep with Some i => Some (S i) | None => None end
       end.

(** The slices [s[:n]] and [s[n:]]. *)
Fixpoint take (n : nat) (s : string) : string :=
  match n, s with
  | S k, String a s' => String a (take k s')
  | _, _ => EmptyString
  end.

Fixpoint drop (n : nat) (s : string) : string :=
  match n, s with
  | S k, String _ s' => drop k s'
  | _, _ => s
  end.

(** [c * n] for a one-character string [c]. *)
Fixpoint times (c : ascii) (n : nat) : string :=
  match n with
  | O => EmptyString
  | S k => String c (times c k)
  end.

Definition all_slashes (s : string) : bool :=
  String.eqb s (times "/" (String.length s)).

(** [os.path.dirname] on POSIX: the path up to its last slash, without the
    trailing slashes unless it consists of slashes only. *)
Fixpoint upto_last_slash (p : string) : string :=
  match p with
  | EmptyString => EmptyString
  | String a p' =>
      match upto_last_slash p' with
      | EmptyString => if Ascii.eqb a "/" then String a EmptyString else EmptyString
      | h => String a h
      end
  end.

Definition dirname (p : string) : string :=
  let head := upto_last_slash p in
  if negb (String.eqb head EmptyString) && negb (all_slashes head)
  then rstrip head "/"
  else head.

Definition str_int (z : Z) : string := Wire.encode_int z.

(* ------------------------------------------------------------------ *)
(** ** Requests, responses and exceptions *)

(** The exceptions a call can raise.  The methods catch
    [requests.exceptions.RequestException] (and its subclasses) and nothing
    else; [OtherError] stands for every other exception but an
    [IndexError] (an [OSError] of the file system, the [ValueError] of
    [urljoin]); [fault_str] is [str(e)]. *)
Inductive Fault : Type :=
| RequestException (msg : string)
| IndexError (msg : string)
| OtherError (msg : string).

Definition fault_str (f : Fault) : string :=
  match f with
  | RequestException msg => msg
  | IndexError msg => msg
  | OtherError msg => msg
  end.

Inductive Outcome (A : Type) : Type :=
| Returned (a : A)
| Raised (f : Fault).
Arguments Returned {A} a.
Arguments Raised {A} f.

Record Request : Type := mkRequest {
  method : string;
  url : string;
  auth : string * string;
  headers : list (string * string);
  data : option string;
  timeout : Z
}.

Record Response : Type := mkResponse {
  status_code : Z;
  text : string;
  content : string
}.

(** What a run does outside the process, in order. *)
Inductive Op : Type :=
| OpRequest (r : Request)
| OpOpen (path : string)
| OpMakedirs (path : string)
| OpWrite (path content : string)
| OpRemove (path : string).

(** The server, the file system, the clock and [urllib.parse.urljoin],
    which raises a [ValueError] for some paths (a malformed host such as
    [//[]). *)
Class Environment : Type := {
  Cloud : Type;
  urljoin : string -> string -> Outcome string;
  (** [requests.request(method, url, ...)] *)
  send : Cloud -> Request -> Outcome Response * Cloud;
  (** [os.path.exists] *)
  path_exists : Cloud -> string -> bool;
  (** [open(path, 'rb')] or [open(path, 'r')], read to the end *)
  read_file : Cloud -> string -> Outcome string;
  (** [os.makedirs(path, exist_ok=True)] *)
  makedirs : Cloud -> string -> Outcome unit * Cloud;
  (** [open(path, 'wb')] or [open(path, 'w')], then the writes *)
  write_file : Cloud -> string -> string -> Outcome unit * Cloud;
  (** [os.remove] *)
  remove : Cloud -> string -> Outcome unit * Cloud;
  (** [str(datetime.now())] *)
  now : Cloud -> string
}.

Section Client.
Context {E : Environment}.

(** The instance: the fields [__init__] sets; [auth] is the pair given to
    [HTTPBasicAuth]. *)
Record NextcloudClient : Type := mkClient {
  server_url : string;
  username : string;
  password : string;
  webdav_url : string;
  client_auth : string * string
}.

Definition init (server_url username password : string) : NextcloudClient :=
  let server_url := rstrip server_url "/" in
  {| server_url := server_url;
     username := username;
     password := password;
     webdav_url := server_url ++ "/remote.php/dav/files/" ++ username ++ "/";
     client_auth := (username, password) |}.

(** A run: the world outside, the lines printed, what was done outside. *)
Record Run : Type := mkRun {
  cloud : Cloud;
  printed : list string;
  done : list Op
}.

Definition N (A : Type) : Type := Run -> Outcome A * Run.

Definition unit_ {A} (a : A) : N A := fun r => (Returned a, r).

Definition then_ {A B} (m : N A) (k : A -> N B) : N B :=
  fun r => match m r with
           | (Returned a, r') => k a r'
           | (Raised f, r') => (Raised f, r')
           end.

Notation "x <- m ;; k" := (then_ m (fun x => k))
  (at level 61, m at next level, right associativity).
Notation "m ;;; k" := (then_ m (fun _ => k))
  (at level 61, right associativity).

Definition raise_ {A} (f : Fault) : N A := fun r => (Raised f, r).

Definition print (line : string) : N unit :=
  fun r => (Returned tt,
            {| cloud := cloud r; printed := (printed r ++ [line])%list;
               done := done r |}).

(** A call outside the process: recorded, then answered by the environment. *)
Definition perform {A} (o : Op) (f : Cloud -> Outcome A * Cloud) : N A :=
  fun r => let (a, c') := f (cloud r) in
           (a, {| cloud := c'; printed := printed r;
                  done := (done r ++ [o])%list |}).

Definition look {A} (f : Cloud -> A) : N A := fun r => (Returned (f (cloud r)), r).

(** [urljoin(base, path)]: nothing is done outside the process. *)
Definition join (base path : string) : N string :=
  fun r => (urljoin base path, r).

Definition request (q : Request) : N Response :=
  perform (OpRequest q) (fun c => send c q).

Definition open_read (path : string) : N string :=
  perform (OpOpen path) (fun c => (read_file c path, c)).

(** [try: ... except requests.exceptions.RequestException as e: ...] *)
Definition except_RequestException {A} (body : N A) (handler : string -> N A) : N A :=
  fun r => match body r with
           | (Raised (RequestException msg), r') => handler msg r'
           | other => other
           end.

(** [try: ... except Exception as e: ...] *)
Definition except_Exception {A} (body : N A) (handler : string -> N A) : N A :=
  fun r => match body r with
           | (Raised f, r') => handler (fault_str f) r'
           | other => other
           end.

(* ------------------------------------------------------------------ *)
(** ** The methods *)

Definition test_connection (self : NextcloudClient) : N bool :=
  except_RequestException
    (response <- request (mkRequest "GET" (webdav_url self) (client_auth self)
                                    [] None 10) ;;
     if (status_code response =? 200)%Z then
       print "✅ Successfully connected to Nextcloud!" ;;;
       unit_ true
     else
       print ("❌ Connection failed. Status code: " ++ str_int (status_code response)) ;;;
       unit_ false)
    (fun e =>
       print ("❌ Connection error: " ++ e) ;;;
       unit_ false).

Definition quote : string := String Wire.dquote EmptyString.

Definition line_break : string := String "010" EmptyString.

Definition propfind_xml : string :=
  "<?xml version=" ++ quote ++ "1.0" ++ quote ++ "?>" ++ line_break
  ++ "        <d:propfind xmlns:d=" ++ quote ++ "DAV:" ++ quote ++ ">" ++ line_break
  ++ "            <d:prop>" ++ line_break
  ++ "                <d:displayname/>" ++ line_break
  ++ "                <d:getcontentlength/>" ++ line_break
  ++ "                <d:getlastmodified/>" ++ line_break
  ++ "                <d:resourcetype/>" ++ line_break
  ++ "            </d:prop>" ++ line_break
  ++ "        </d:propfind>".

(** [l[1]], [l[0]] and [l[-1]] *)
Definition item {A} (l : list A) (i : nat) : N A :=
  match nth_error l i with
  | Some a => unit_ a
  | None => raise_ (IndexError "list index out of range")
  end.

Definition last_item {A} (l : list A) : N A :=
  match rev l with
  | a :: _ => unit_ a
  | [] => raise_ (IndexError "list index out of range")
  end.

(** One round of the loop over the lines of the answer. *)
Definition list_line (path line : string) : N unit :=
  if containsb "<d:displayname>" line then
    after <- item (split line "<d:displayname>") 1 ;;
    name <- item (split after "</d:displayname>") 0 ;;
    if negb (String.eqb name EmptyString) then
      own <- last_item (split (rstrip path "/") "/") ;;
      if negb (String.eqb name own) then print ("  " ++ name) else unit_ tt
    else unit_ tt
  else unit_ tt.

Fixpoint for_each {A} (l : list A) (body : A -> N unit) : N unit :=
  match l with
  | [] => unit_ tt
  | a :: l' => body a ;;; for_each l' body
  end.

Definition list_files (self : NextcloudClient) (path : string) : N bool :=
  url <- join (webdav_url self) path ;;
  let headers := [("Depth", "1"); ("Content-Type", "application/xml")] in
  except_RequestException
    (response <- request (mkRequest "PROPFIND" url (client_auth self) headers
                                    (Some propfind_xml) 30) ;;
     if (status_code response =? 207)%Z then
       print ("📁 Contents of /" ++ path ++ ":") ;;;
       print (times "-" 50) ;;;
       for_each (split (text response) line_break) (list_line path) ;;;
       unit_ true
     else
       print ("❌ Failed to list files. Status code: "
              ++ str_int (status_code response)) ;;;
       unit_ false)
    (fun e =>
       print ("❌ Error listing files: " ++ e) ;;;
       unit_ false).

Definition upload_file (self : NextcloudClient) (local_path remote_path : string)
  : N bool :=
  exists_ <- look (fun c => path_exists c local_path) ;;
  if negb exists_ then
    print ("❌ Local file not found: " ++ local_path) ;;;
    unit_ false
  else
    url <- join (webdav_url self) remote_path ;;
    except_RequestException
      (f <- open_read local_path ;;
       response <- request (mkRequest "PUT" url (client_auth self) [] (Some f) 60) ;;
       if (status_code response =? 201)%Z || (status_code response =? 204)%Z then
         print ("✅ Successfully uploaded " ++ local_path ++ " to " ++ remote_path) ;;;
         unit_ true
       else
         print ("❌ Upload failed. Status code: " ++ str_int (status_code response)) ;;;
         unit_ false)
      (fun e =>
         print ("❌ Upload error: " ++ e) ;;;
         unit_ false).

Definition download_file (self : NextcloudClient) (remote_path local_path : string)
  : N bool :=
  url <- join (webdav_url self) remote_path ;;
  except_RequestException
    (response <- request (mkRequest "GET" url (client_auth self) [] None 60) ;;
     if (status_code response =? 200)%Z then
       perform (OpMakedirs (dirname local_path))
               (fun c => makedirs c (dirname local_path)) ;;;
       perform (OpWrite local_path (content response))
               (fun c => write_file c local_path (content response)) ;;;
       print ("✅ Successfully downloaded " ++ remote_path ++ " to " ++ local_path) ;;;
       unit_ true
     else
       print ("❌ Download failed. Status code: " ++ str_int (status_code response)) ;;;
       unit_ false)
    (fun e =>
       print ("❌ Download error: " ++ e) ;;;
       unit_ false).

Definition create_folder (self : NextcloudClient) (folder_path : string) : N bool :=
  url <- join (webdav_url self) folder_path ;;
  except_RequestException
    (response <- request (mkRequest "MKCOL" url (client_auth self) [] None 30) ;;
     if (status_code response =? 201)%Z then
       print ("✅ Successfully created folder: " ++ folder_path) ;;;
       unit_ true
     else if (status_code response =? 405)%Z then
       print ("ℹ️  Folder already exists: " ++ folder_path) ;;;
       unit_ true
     else
       print ("❌ Failed to create folder. Status code: "
              ++ str_int (status_code response)) ;;;
       unit_ false)
    (fun e =>
       print ("❌ Error creating folder: " ++ e) ;;;
       unit_ false).

(* ------------------------------------------------------------------ *)
(** ** [main] *)

(** The [try] block of [main]. *)
Definition demonstrate (client : NextcloudClient) : N unit :=
  print "1. Listing root directory:" ;;;
  list_files client EmptyString ;;;
  print EmptyString ;;;
  print "2. Creating a test folder:" ;;;
  create_folder client "test_folder" ;;;
  print EmptyString ;;;
  print "3. Creating and uploading a test file:" ;;;
  let test_file := "test_file.txt" in
  stamp <- look now ;;
  let lines := "Test file created at " ++ stamp ++ line_break
               ++ "This is a test upload to Nextcloud!" ++ line_break in
  perform (OpWrite test_file lines) (fun c => write_file c test_file lines) ;;;
  upload_file client test_file "test_folder/uploaded_test.txt" ;;;
  perform (OpRemove test_file) (fun c => remove c test_file) ;;;
  print EmptyString ;;;
  print "4. Listing test folder contents:" ;;;
  list_files client "test_folder/" ;;;
  print EmptyString ;;;
  print "5. Downloading the uploaded file:" ;;;
  download_file client "test_folder/uploaded_test.txt"
                "downloads/downloaded_test.txt" ;;;
  exists_ <- look (fun c => path_exists c "downloaded_test.txt") ;;
  if exists_ then
    print (line_break ++ "📄 Downloaded file contents:") ;;;
    f <- open_read "downloaded_test.txt" ;;
    print f ;;;
    perform (OpRemove "downloaded_test.txt") (fun c => remove c "downloaded_test.txt")
  else unit_ tt.

Definition main : N unit :=
  print "🌥️  Nextcloud Connection Program" ;;;
  print (times "=" 40) ;;;
  let client := init "https://mdan.online" "Prueba" "pruebaproyecto" in
  connected <- test_connection client ;;
  if negb connected then unit_ tt
  else
    print EmptyString ;;;
    except_Exception (demonstrate client)
      (fun e => print (line_break ++ "❌ Unexpected error: " ++ e)).

End Client.

Arguments N {E} A.
Arguments Run {E}.

End ConexionNextcloud.

(* ================================================================== *)
(** ** What a listing shows, and a server to run the client against *)
(* ================================================================== *)

Module NC := ConexionNextcloud.

(** The characters of [s] are all different from [c]. *)
Fixpoint without_char (c : ascii) (s : string) : bool :=
  match s with
  | EmptyString => true
  | String a s' => negb (Ascii.eqb a c) && without_char c s'
  end.

(** [s[:s.find(sep)]], or [s] when [sep] is not found. *)
Definition before (s sep : string) : string :=
  match NC.find s sep with
  | Some j => NC.take j s
  | None => s
  end.

(** The display name [list_files] reads off a line: what follows the first
    opening tag, up to the next tag of the name, opening or closing, or to
    the end of the line when none follows. *)
Definition first_displayname (line : string) : option string :=
  match NC.find line "<d:displayname>" with
  | None => None
  | Some i =>
      let after := NC.drop (i + String.length "<d:displayname>") line in
      Some (before (before after "<d:displayname>") "</d:displayname>")
  end.

(** The lines [list_files] prints for one line of the answer: the display
    name, unless it is empty or the name of the listed folder itself. *)
Definition listed (path line : string) : list string :=
  match first_displayname line with
  | Some name =>
      if negb (String.eqb name EmptyString)
         && negb (String.eqb name (basename (NC.rstrip path "/")))
      then ["  " ++ name]
      else []
  | None => []
  end.

(** A run with more printed and more done. *)
Definition run_after {E : NC.Environment} (r : NC.Run) (c : NC.Cloud)
           (lines : list string) (ops : list NC.Op) : NC.Run :=
  {| NC.cloud := c;
     NC.printed := (NC.printed r ++ lines)%list;
     NC.done := (NC.done r ++ ops)%list |}.

Definition is_RequestException (f : NC.Fault) : bool :=
  match f with NC.RequestException _ => true | _ => false end.

(** What the [except] clause of a method makes of an exception: a
    [RequestException] is printed behind the method's label and answered
    with [False], any other exception goes on to the caller. *)
Definition caught {E : NC.Environment} (label : string) (f : NC.Fault) (r : NC.Run)
  : NC.Outcome bool * NC.Run :=
  match f with
  | NC.RequestException msg =>
      (NC.Returned false, run_after r (NC.cloud r) [label ++ msg] [])
  | _ => (NC.Raised f, r)
  end.

(** A method that only talks to the server: on every run it makes the one
    request [q] and does nothing else outside the process; it returns
    [True] exactly when the request is answered with a status [ok] accepts;
    and it raises exactly when the request raises something else than a
    [RequestException]. *)
Definition server_method {E : NC.Environment} (m : NC.N bool) (q : NC.Request)
           (ok : Z -> bool) : Prop :=
  forall r, exists out r',
    m r = (out, r')
    /\ NC.done r' = (NC.done r ++ [NC.OpRequest q])%list
    /\ NC.cloud r' = snd (NC.send (NC.cloud r) q)
    /\ (out = NC.Returned true
        <-> exists resp, fst (NC.send (NC.cloud r) q) = NC.Returned resp
                         /\ ok (NC.status_code resp) = true)
    /\ (forall f, out = NC.Raised f
                  <-> fst (NC.send (NC.cloud r) q) = NC.Raised f
                      /\ is_RequestException f = false).

(** A small server and file system: the local files by path; the server
    answers while [reachable] and refuses connections otherwise. *)
Record DemoCloud : Type := mkDemoCloud {
  local_files : list (string * string);
  reachable : bool
}.

Definition demo_listing : string :=
  "<d:response><d:displayname>test_folder</d:displayname></d:response>"
  ++ NC.line_break
  ++ "<d:response><d:displayname>uploaded_test.txt</d:displayname></d:response>"
  ++ "<d:response><d:displayname>second.txt</d:displayname></d:response>"
  ++ NC.line_break ++ "<d:status>HTTP/1.1 200 OK</d:status>".

Definition demo_answer (q : NC.Request) : NC.Response :=
  if String.eqb (NC.method q) "PROPFIND" then NC.mkResponse 207 demo_listing demo_listing
  else if String.eqb (NC.method q) "GET" then NC.mkResponse 200 "data" "data"
  else NC.mkResponse 201 EmptyString EmptyString.

Definition demo_put (c : DemoCloud) (path content : string) : DemoCloud :=
  {| local_files := (path, content) :: local_files c; reachable := reachable c |}.

(** [urljoin] for the relative paths used here, and for the path [//[],
    which it refuses. *)
Definition demo_urljoin (base path : string) : NC.Outcome string :=
  if String.eqb path "//[" then NC.Raised (NC.OtherError "Invalid IPv6 URL")
  else NC.Returned (base ++ path).

#[export] Instance demo_environment : NC.Environment := {|
  NC.Cloud := DemoCloud;
  NC.urljoin := demo_urljoin;
  NC.send := fun c q =>
    if reachable c then (NC.Returned (demo_answer q), c)
    else (NC.Raised (NC.RequestException "Connection refused"), c);
  NC.path_exists := fun c path =>
    match lookup_file (local_files c) path with Some _ => true | None => false end;
  NC.read_file := fun c path =>
    match lookup_file (local_files c) path with
    | Some content => NC.Returned content
    | None => NC.Raised (NC.OtherError "[Errno 2] No such file or directory")
    end;
  NC.makedirs := fun c path =>
    if String.eqb path EmptyString
    then (NC.Raised (NC.OtherError "[Errno 2] No such file or directory: ''"), c)
    else (NC.Returned tt, c);
  NC.write_file := fun c path content => (NC.Returned tt, demo_put c path content);
  NC.remove := fun c path => (NC.Returned tt, c);
  NC.now := fun _ => "2024-01-01 00:00:00.000000"
|}.

Definition demo_cloud : DemoCloud :=
  {| local_files := [("notes.txt", "hello")]; reachable := true |}.

Definition demo_cloud_down : DemoCloud :=
  {| local_files := [("notes.txt", "hello")]; reachable := false |}.

Definition demo_client : NC.NextcloudClient :=
  NC.init "https://cloud.example.com/" "alice" "secret".

Definition demo_run (c : DemoCloud) : NC.Run :=
  {| NC.cloud := c; NC.printed := []; NC.done := [] |}.
(* ================================================================== *)
(** ** Strings *)
(* ================================================================== *)

Lemma append_assoc (a b c : string) : (a ++ b) ++ c = a ++ b ++ c.
Proof. induction a as [ | x a IH ]; cbn; [ reflexivity | now rewrite IH ]. Qed.

Lemma append_nil_r (a : string) : a ++ EmptyString = a.
Proof. induction a as [ | x a IH ]; cbn; [ reflexivity | now rewrite IH ]. Qed.

Lemma length_append (a b : string) :
  String.length (a ++ b) = String.length a + String.length b.
Proof. induction a as [ | x a IH ]; cbn; [ reflexivity | now rewrite IH ]. Qed.

(* ================================================================== *)
(** ** Facts about the monad *)
(* ================================================================== *)

Section AgentFacts.
Context {P : Platform}.

Lemma keeps_id_ret A (a : A) : keeps_id (ret a).
Proof. intros st r st' H. inversion H. reflexivity. Qed.

Lemma keeps_id_raise A (e : Exception) : keeps_id (@raise P A e).
Proof. intros st r st' H. inversion H. reflexivity. Qed.

Lemma keeps_id_lift A (x : Result A) : keeps_id (lift x).
Proof. intros st r st' H. inversion H. reflexivity. Qed.

Lemma keeps_id_observe A (f : World -> A) : keeps_id (observe f).
Proof. intros st r st' H. inversion H. reflexivity. Qed.

Lemma keeps_id_get_self : keeps_id get_self.
Proof. intros st r st' H. inversion H. reflexivity. Qed.

Lemma keeps_id_emit e : keeps_id (emit e).
Proof. intros st r st' H. inversion H. reflexivity. Qed.

Lemma keeps_id_set_service s : keeps_id (set_service s).
Proof. intros st r st' H. inversion H. reflexivity. Qed.

Lemma keeps_id_call A c (f : World -> Result A * World) : keeps_id (call c f).
Proof.
  intros st r st' H. unfold call in H.
  destruct (f (world st)) as [r0 w']. inversion H. reflexivity.
Qed.

Lemma keeps_id_bind A B (m : M A) (k : A -> M B) :
  keeps_id m -> (forall a, keeps_id (k a)) -> keeps_id (bind m k).
Proof.
  intros Hm Hk st r st' H. unfold bind in H.
  destruct (m st) as [[a | e] st1] eqn:E.
  - rewrite (Hk a _ _ _ H). exact (Hm _ _ _ E).
  - inversion H; subst. exact (Hm _ _ _ E).
Qed.

Lemma keeps_id_try_except A (m : M A) (h : Exception -> M A) :
  keeps_id m -> (forall e, keeps_id (h e)) -> keeps_id (try_except m h).
Proof.
  intros Hm Hh st r st' H. unfold try_except in H.
  destruct (m st) as [[a | e] st1] eqn:E.
  - inversion H; subst. exact (Hm _ _ _ E).
  - rewrite (Hh e _ _ _ H). exact (Hm _ _ _ E).
Qed.

Ltac keeps :=
  repeat first
    [ apply keeps_id_ret | apply keeps_id_raise | apply keeps_id_lift
    | apply keeps_id_observe | apply keeps_id_get_self | apply keeps_id_emit
    | apply keeps_id_call | apply keeps_id_set_service
    | apply keeps_id_bind; [ | intros ]
    | apply keeps_id_try_except; [ | intros ]
    | match goal with
      | |- keeps_id (if ?b then _ else _) => destruct b
      | |- keeps_id (match ?x with _ => _ end) => destruct x
      end ].

Lemma keeps_id_authenticate : keeps_id authenticate.
Proof.
  unfold authenticate, obtain_credentials, renew_credentials, log_info, log_error.
  keeps.
Qed.

Lemma keeps_id_create_message req : keeps_id (create_message req).
Proof. unfold create_message, log_error. keeps. Qed.

Lemma keeps_id_send_email req : keeps_id (send_email req).
Proof.
  unfold send_email, log_info, log_error.
  keeps; try apply keeps_id_authenticate; try apply keeps_id_create_message.
Qed.

Lemma keeps_id_dispatch m : keeps_id (dispatch m).
Proof.
  unfold dispatch. keeps; apply keeps_id_send_email.
Qed.

Lemma keeps_id_process m : keeps_id (process_agent_message m).
Proof.
  unfold process_agent_message, log_info, log_error.
  keeps. apply keeps_id_dispatch.
Qed.

End AgentFacts.

Section DispatchFacts.
Context {P : Platform}.

Lemma eq_str_true v s : eq_str v s = true <-> v = JStr s.
Proof.
  destruct v; simpl; split; intros H; try discriminate.
  - apply String.eqb_eq in H. now subst.
  - inversion H. apply String.eqb_refl.
Qed.

Lemma eq_str_false v s : eq_str v s = false <-> v <> JStr s.
Proof.
  split.
  - intros H E. apply eq_str_true in E. congruence.
  - intros H. destruct (eq_str v s) eqn:E; [ | reflexivity ].
    apply eq_str_true in E. contradiction.
Qed.

(** The [try]/[except] of [process_agent_message] always leaves a response
    type and payload, and the response is assembled from them. *)
Lemma process_agent_message_runs (m : AgentMessage) (st : State) :
  exists rt rp st',
    process_agent_message m st =
      (Ok {| agent_id := JStr (self_agent_id (self st));
             message_type := JStr rt;
             timestamp := JStr (utcnow_isoformat (world st'));
             payload := JObj rp;
             correlation_id := correlation_id m;
             reply_to := agent_id m |}, st')
    /\ (forall r st1, dispatch m (entered m st) = (Ok r, st1) ->
                      rt = fst r /\ rp = snd r /\ st' = st1)
    /\ (forall e st1, dispatch m (entered m st) = (Raise e, st1) ->
                      rt = "error_response"
                      /\ rp = [("error", JStr ("Processing error: " ++ exc_str e))]).
Proof.
  unfold process_agent_message, bind, log_info, emit, try_except.
  fold (entered m st).
  destruct (dispatch m (entered m st)) as [[[rt rp] | e] st1] eqn:E.
  - exists rt, rp, st1. cbn.
    rewrite (keeps_id_dispatch m _ _ _ E). cbn.
    split; [ reflexivity | split ].
    + intros r st2 H. inversion H. subst. auto.
    + intros e st2 H. discriminate.
  - exists "error_response",
           [("error", JStr ("Processing error: " ++ exc_str e))],
           {| self := self st1; world := world st1;
              trace := (trace st1 ++
                        [EvLog ERROR ("Error processing message: " ++ exc_str e)])%list |}.
    cbn. rewrite (keeps_id_dispatch m _ _ _ E). cbn.
    split; [ reflexivity | split ].
    + intros r st2 H. discriminate.
    + intros e' st2 H. inversion H. subst. auto.
Qed.

End DispatchFacts.

Section SendFacts.
Context {P : Platform}.

Lemma send_email_returns (req : EmailRequest) (st : State) :
  exists r st', send_email req st = (Ok r, st').
Proof.
  unfold send_email, try_except.
  match goal with |- context [match ?b st with _ => _ end] =>
    destruct (b st) as [[r | e] st1] end.
  - eauto.
  - destruct (is_HttpError e); do 2 eexists; reflexivity.
Qed.

Lemma failure_invariant (text : string) :
  EmailResponse_invariant
    {| success := false; message_id := JNull; error := JStr text; details := JNull |}.
Proof.
  split; cbn; intros H; [ discriminate | unfold present; discriminate ].
Qed.

Lemma send_email_invariant (req : EmailRequest) (st : State) r st' :
  backend_ids_present ->
  send_email req st = (Ok r, st') -> EmailResponse_invariant r.
Proof.
  intros Hid. unfold send_email, try_except.
  match goal with |- context [match ?b st with _ => _ end] =>
    destruct (b st) as [[r0 | e] st1] eqn:E end.
  - intros H. inversion H. subst r0 st1. clear H.
    revert E. unfold bind, get_self. cbn.
    destruct (match service (self st) with
              | Some _ => ret true
              | None => authenticate
              end st) as [[ok | e] st2] eqn:Ea; [ | discriminate ].
    destruct ok; cbn.
    + destruct (create_message req st2) as [[[msg | ] | e] st3] eqn:Ec;
        [ | | discriminate ].
      * destruct (service (self st3)) as [svc | ]; [ | discriminate ].
        unfold call.
        destruct (execute_send (world st3) svc msg) as [[res | e] w'] eqn:Es;
          [ | discriminate ].
        unfold lift, getitem.
        destruct (dict_get res "id") as [id | ] eqn:Eid; [ | discriminate ].
        cbn. intros H. inversion H. subst. clear H.
        split; cbn; intros H; [ | discriminate ].
        split; [ | reflexivity ].
        intros ->. exact (Hid _ _ _ _ _ Es Eid).
      * cbn. intros H. inversion H. apply failure_invariant.
    + intros H. inversion H. apply failure_invariant.
  - destruct (is_HttpError e); cbn; intros H; inversion H; apply failure_invariant.
Qed.

End SendFacts.

Section DispatchCases.
Context {P : Platform}.

Lemma dispatch_health_check (m : AgentMessage) (st : State) :
  message_type m = JStr "health_check" ->
  dispatch m st =
    (Ok ("health_check_response",
         [("status", JStr "healthy");
          ("agent_id", JStr (self_agent_id (self st)));
          ("authenticated", JBool (match service (self st) with
                                   | Some _ => true
                                   | None => false
                                   end))]), st).
Proof. intros H. unfold dispatch. rewrite H. reflexivity. Qed.

Lemma dispatch_capability_inquiry (m : AgentMessage) (st : State) :
  message_type m = JStr "capability_inquiry" ->
  dispatch m st = (Ok ("capability_response", capabilities_payload), st).
Proof. intros H. unfold dispatch. rewrite H. reflexivity. Qed.

Lemma dispatch_unknown (m : AgentMessage) (st : State) :
  message_type m <> JStr "email_send_request" ->
  message_type m <> JStr "health_check" ->
  message_type m <> JStr "capability_inquiry" ->
  dispatch m st =
    (Ok ("error_response",
         [("error", JStr ("Unknown message type: " ++ py_str (message_type m)))]),
     st).
Proof.
  intros H1 H2 H3. unfold dispatch.
  apply eq_str_false in H1, H2, H3. rewrite H1, H2, H3. reflexivity.
Qed.

Lemma dispatch_bad_payload (m : AgentMessage) (st : State) e :
  message_type m = JStr "email_send_request" ->
  EmailRequest_of (payload m) = Raise e ->
  dispatch m st = (Raise e, st).
Proof.
  intros H E. unfold dispatch. rewrite H. cbn.
  unfold bind, lift. rewrite E. reflexivity.
Qed.

Lemma dispatch_email_send (m : AgentMessage) (st : State) req :
  message_type m = JStr "email_send_request" ->
  EmailRequest_of (payload m) = Ok req ->
  exists r st',
    send_email req st = (Ok r, st')
    /\ dispatch m st = (Ok ("email_send_response", asdict_response r), st').
Proof.
  intros H E. destruct (send_email_returns req st) as (r & st' & Hs).
  exists r, st'. split; [ exact Hs | ].
  unfold dispatch. rewrite H. cbn.
  unfold bind, lift. rewrite E, Hs. reflexivity.
Qed.

End DispatchCases.

(* ================================================================== *)
(** ** The claims about [process_agent_message] *)
(* ================================================================== *)

(** C1.  Whatever the message and the state, [process_agent_message]
    returns (it does not raise) one response whose [correlation_id] is the
    request's (so [None] when the request had none), whose [reply_to] is
    the request's [agent_id] and whose [agent_id] is the dispatcher's own,
    which processing does not change.  The message type is not looked at,
    so this covers the three known types and the unknown-type branch. *)
Theorem response_carries_correlation
  {P : Platform} (m : AgentMessage) (st : State) :
  exists resp st',
    process_agent_message m st = (Ok resp, st')
    /\ correlation_id resp = correlation_id m
    /\ reply_to resp = agent_id m
    /\ agent_id resp = JStr (self_agent_id (self st))
    /\ self_agent_id (self st') = self_agent_id (self st).
Proof.
  destruct (process_agent_message_runs m st) as (rt & rp & st' & Hrun & _).
  eexists _, st'. split; [ exact Hrun | ]. cbn.
  repeat split.
  exact (keeps_id_process m _ _ _ Hrun).
Qed.

(** C4, as the code has it.  The response type is read off a fixed table:
    [health_check] gives [health_check_response], [capability_inquiry]
    gives [capability_response], [email_send_request] gives
    [email_send_response] when its payload builds an [EmailRequest] and
    [error_response] when it does not, and every other type gives
    [error_response]. *)
Theorem response_type_table
  {P : Platform} (m : AgentMessage) (st : State) :
  exists resp st',
    process_agent_message m st = (Ok resp, st')
    /\ (message_type m = JStr "health_check" ->
        message_type resp = JStr "health_check_response")
    /\ (message_type m = JStr "capability_inquiry" ->
        message_type resp = JStr "capability_response")
    /\ (message_type m = JStr "email_send_request" ->
        forall req, EmailRequest_of (payload m) = Ok req ->
                    message_type resp = JStr "email_send_response")
    /\ (message_type m = JStr "email_send_request" ->
        forall e, EmailRequest_of (payload m) = Raise e ->
                  message_type resp = JStr "error_response")
    /\ (message_type m <> JStr "email_send_request" ->
        message_type m <> JStr "health_check" ->
        message_type m <> JStr "capability_inquiry" ->
        message_type resp = JStr "error_response").
Proof.
  destruct (process_agent_message_runs m st) as (rt & rp & st' & Hrun & Hok & Herr).
  eexists _, st'. split; [ exact Hrun | ]. cbn.
  repeat split.
  - intros H. destruct (Hok _ _ (dispatch_health_check m (entered m st) H)) as (-> & _).
    reflexivity.
  - intros H.
    destruct (Hok _ _ (dispatch_capability_inquiry m (entered m st) H)) as (-> & _).
    reflexivity.
  - intros H req E.
    destruct (dispatch_email_send m (entered m st) req H E) as (r & st1 & _ & Hd).
    destruct (Hok _ _ Hd) as (-> & _). reflexivity.
  - intros H e E.
    destruct (Herr _ _ (dispatch_bad_payload m (entered m st) e H E)) as (-> & _).
    reflexivity.
  - intros H1 H2 H3.
    destruct (Hok _ _ (dispatch_unknown m (entered m st) H1 H2 H3)) as (-> & _).
    reflexivity.
Qed.

(** C5.  A message whose type is none of [email_send_request],
    [health_check], [capability_inquiry] is answered by an
    [error_response] whose payload is exactly the one entry
    [error: "Unknown message type: <type>"], where [<type>] is the
    message type as an f-string prints it: the string itself when the type
    is a string. *)
Theorem unknown_type_is_reported
  {P : Platform} (m : AgentMessage) (st : State) :
  message_type m <> JStr "email_send_request" ->
  message_type m <> JStr "health_check" ->
  message_type m <> JStr "capability_inquiry" ->
  exists resp st',
    process_agent_message m st = (Ok resp, st')
    /\ message_type resp = JStr "error_response"
    /\ payload resp =
         JObj [("error", JStr ("Unknown message type: " ++ py_str (message_type m)))]
    /\ (forall t, message_type m = JStr t ->
                  payload resp = JObj [("error", JStr ("Unknown message type: " ++ t))]).
Proof.
  intros H1 H2 H3.
  destruct (process_agent_message_runs m st) as (rt & rp & st' & Hrun & Hok & _).
  destruct (Hok _ _ (dispatch_unknown m (entered m st) H1 H2 H3)) as (-> & -> & _).
  eexists _, st'. split; [ exact Hrun | ]. cbn.
  repeat split. intros t Ht. rewrite Ht. reflexivity.
Qed.

(** C6.  A [health_check] is answered with exactly [status: "healthy"],
    the dispatcher's own [agent_id], and [authenticated] telling whether
    the session handle [service] is set: [false] while it is still [None].
    Handling it makes no backend call and leaves the instance and the world
    as they were. *)
Theorem health_check_reports_session
  {P : Platform} (m : AgentMessage) (st : State) :
  message_type m = JStr "health_check" ->
  exists resp st',
    process_agent_message m st = (Ok resp, st')
    /\ payload resp =
         JObj [("status", JStr "healthy");
               ("agent_id", JStr (self_agent_id (self st)));
               ("authenticated", JBool (match service (self st) with
                                        | Some _ => true
                                        | None => false
                                        end))]
    /\ (service (self st) = None ->
        payload resp =
          JObj [("status", JStr "healthy");
                ("agent_id", JStr (self_agent_id (self st)));
                ("authenticated", JBool false)])
    /\ backend_calls (trace st') = backend_calls (trace st)
    /\ self st' = self st
    /\ world st' = world st.
Proof.
  intros H.
  destruct (process_agent_message_runs m st) as (rt & rp & st' & Hrun & Hok & _).
  destruct (Hok _ _ (dispatch_health_check m (entered m st) H)) as (-> & -> & ->).
  eexists _, _. split; [ exact Hrun | ]. cbn.
  repeat split.
  - intros Hs. rewrite Hs. reflexivity.
  - unfold backend_calls. rewrite filter_app. cbn. apply List.app_nil_r.
Qed.

(** C7.  Two [capability_inquiry] messages, whatever else they hold and in
    whatever states they are processed, get the same payload, the constant
    capability description; handling one makes no backend call and leaves
    the instance and the world as they were. *)
Theorem capability_inquiry_is_constant
  {P : Platform} (m1 m2 : AgentMessage) (st1 st2 : State) :
  message_type m1 = JStr "capability_inquiry" ->
  message_type m2 = JStr "capability_inquiry" ->
  exists r1 st1' r2 st2',
    process_agent_message m1 st1 = (Ok r1, st1')
    /\ process_agent_message m2 st2 = (Ok r2, st2')
    /\ payload r1 = payload r2
    /\ payload r1 = JObj capabilities_payload
    /\ backend_calls (trace st1') = backend_calls (trace st1)
    /\ self st1' = self st1
    /\ world st1' = world st1.
Proof.
  intros H1 H2.
  destruct (process_agent_message_runs m1 st1) as (rt1 & rp1 & st1' & Hrun1 & Hok1 & _).
  destruct (process_agent_message_runs m2 st2) as (rt2 & rp2 & st2' & Hrun2 & Hok2 & _).
  destruct (Hok1 _ _ (dispatch_capability_inquiry m1 (entered m1 st1) H1))
    as (-> & -> & ->).
  destruct (Hok2 _ _ (dispatch_capability_inquiry m2 (entered m2 st2) H2))
    as (-> & -> & ->).
  eexists _, _, _, _.
  split; [ exact Hrun1 | ]. split; [ exact Hrun2 | ]. cbn.
  repeat split.
  unfold backend_calls. rewrite filter_app. cbn. apply List.app_nil_r.
Qed.

(* ================================================================== *)
(** ** Failures: payload coercion, the backend, the JSON envelope *)
(* ================================================================== *)



Lemma prefix_append (a b : string) : String.prefix a (a ++ b) = true.
Proof.
  induction a as [ | c a IH ]; cbn; [ now destruct b | ].
  destruct (ascii_dec c c) as [ _ | Hne ]; [ exact IH | now elim Hne ].
Qed.




Lemma bind_keywords_TypeError cls fs v e :
  bind_keywords cls fs v = Raise e -> exc_class e = TypeError.
Proof.
  unfold bind_keywords.
  destruct v; try (intros H; inversion H; reflexivity).
  destruct (unexpected_keyword fs fields); [ intros H; inversion H; reflexivity | ].
  destruct (missing_arguments fs fields); intros H; inversion H; reflexivity.
Qed.

Lemma AgentMessage_of_TypeError v e :
  AgentMessage_of v = Raise e -> exc_class e = TypeError.
Proof.
  unfold AgentMessage_of.
  destruct (bind_keywords "AgentMessage" AgentMessage_fields v) eqn:E;
    intros H; inversion H; subst.
  exact (bind_keywords_TypeError _ _ _ _ E).
Qed.

Lemma no_unexpected_keyword fs (kw : pydict) :
  (forall k, In k (dict_keys kw) -> is_field fs k = true) ->
  unexpected_keyword fs kw = None.
Proof.
  intros H. unfold unexpected_keyword.
  destruct (find (fun k => negb (is_field fs k)) (dict_keys kw)) as [k | ] eqn:E;
    [ | reflexivity ].
  apply find_some in E. destruct E as (Hin & Hneg).
  rewrite (H k Hin) in Hneg. discriminate.
Qed.


Section EnvelopeFacts.
Context {P : Platform} {J : JsonLibrary}.

Lemma handle_message_json_cases (s : string) (st : State) :
  (forall e, json_loads s = Raise e ->
     handle_message_json s st =
       (Ok (json_dumps (JObj (asdict_message
              (error_envelope (self st) (utcnow_isoformat (world st))
                 ((if is_JSONDecodeError e then "Invalid JSON: "
                   else "Message handling error: ") ++ exc_str e))))), st))
  /\ (forall v e, json_loads s = Ok v -> AgentMessage_of v = Raise e ->
     handle_message_json s st =
       (Ok (json_dumps (JObj (asdict_message
              (error_envelope (self st) (utcnow_isoformat (world st))
                 ("Message handling error: " ++ exc_str e))))), st))
  /\ (forall v m, json_loads s = Ok v -> AgentMessage_of v = Ok m ->
     exists resp st',
       process_agent_message m st = (Ok resp, st')
       /\ handle_message_json s st =
            (Ok (json_dumps (JObj (asdict_message resp))), st')).
Proof.
  unfold handle_message_json, try_except, bind, lift.
  repeat split.
  - intros e E. rewrite E. cbn. destruct (is_JSONDecodeError e); reflexivity.
  - intros v e E1 E2. rewrite E1, E2. cbn.
    unfold is_JSONDecodeError. rewrite (AgentMessage_of_TypeError _ _ E2). reflexivity.
  - intros v m E1 E2. rewrite E1, E2.
    destruct (process_agent_message_runs m st) as (rt & rp & st' & Hrun & _).
    rewrite Hrun. eexists _, st'. split; reflexivity.
Qed.


Lemma create_message_frame (req : EmailRequest) (st : State) r st' :
  create_message req st = (r, st') -> self st' = self st /\ world st' = world st.
Proof.
  unfold create_message, try_except, bind, observe, lift.
  destruct (build_message (world st) req) as [msg | e]; cbn.
  - destruct (raw_bytes msg); cbn; intros H; inversion H; auto.
  - intros H; inversion H; auto.
Qed.

(** A send the backend refuses is reported in an [EmailResponse]. *)
Lemma send_email_backend_failure (req : EmailRequest) (st : State)
      svc msg st1 e w' :
  service (self st) = Some svc ->
  create_message req st = (Ok (Some msg), st1) ->
  execute_send (world st1) svc msg = (Raise e, w') ->
  exists st',
    send_email req st =
      (Ok {| success := false; message_id := JNull;
             error := JStr ((if is_HttpError e then "Gmail API error: "
                             else "Unexpected error: ") ++ exc_str e);
             details := JNull |}, st').
Proof.
  intros Hs Hc He.
  destruct (create_message_frame _ _ _ _ Hc) as (Hself & _).
  unfold send_email, try_except, bind, get_self. cbn.
  rewrite Hs. cbn. rewrite Hc. rewrite Hself, Hs.
  unfold call. rewrite He.
  destruct (is_HttpError e); eexists; reflexivity.
Qed.

End EnvelopeFacts.

(** C10.  When the input parses as JSON but does not build an
    [AgentMessage], [handle_message_json] returns the serialization of an
    [error_response] envelope whose [correlation_id] and [reply_to] are
    both [None], whatever the parsed object held; the state is untouched.
    A mapping that lacks a required field or has a key that is no field is
    such an input. *)
Theorem malformed_envelope_is_uncorrelated {P : Platform} {J : JsonLibrary} :
  (forall s st v e,
     json_loads s = Ok v ->
     AgentMessage_of v = Raise e ->
     exists envelope,
       handle_message_json s st =
         (Ok (json_dumps (JObj (asdict_message envelope))), st)
       /\ message_type envelope = JStr "error_response"
       /\ payload envelope =
            JObj [("error", JStr ("Message handling error: " ++ exc_str e))]
       /\ agent_id envelope = JStr (self_agent_id (self st))
       /\ absent (correlation_id envelope)
       /\ absent (reply_to envelope))
  /\ (forall kw,
        missing_arguments AgentMessage_fields kw <> []
        \/ unexpected_keyword AgentMessage_fields kw <> None ->
        exists e, AgentMessage_of (JObj kw) = Raise e).
Proof.
  split.
  - intros s st v e E1 E2.
    destruct (handle_message_json_cases s st) as (_ & H2 & _).
    eexists. split; [ exact (H2 v e E1 E2) | ].
    cbn. repeat split.
  - intros kw H. unfold AgentMessage_of, bind_keywords.
    destruct (unexpected_keyword AgentMessage_fields kw) as [k | ]; [ eauto | ].
    destruct (missing_arguments AgentMessage_fields kw) as [ | a l ]; [ | eauto ].
    destruct H as [H | H]; contradiction.
Qed.

(* ================================================================== *)
(** ** Attachments *)
(* ================================================================== *)

Section AttachmentFacts.
Context {P : Platform}.

Lemma all_strs_map (l : list string) : all_strs (map JStr l) = Some l.
Proof. induction l as [ | s l IH ]; cbn; [ reflexivity | now rewrite IH ]. Qed.

Lemma str_join_str_list (sep : string) (l : list string) :
  str_join sep (str_list l) = Ok (String.concat sep l).
Proof. unfold str_join, str_list. cbn. now rewrite all_strs_map. Qed.

(** A missing file leaves the message as it is. *)
Lemma attach_one_missing (w : World) (message : MIME) (p : json) :
  os_path_exists w p = false -> attach_one w message p = Ok message.
Proof. intros H. unfold attach_one. now rewrite H. Qed.

(** The loop does not see the paths that do not exist. *)
Lemma attach_all_skips_missing (w : World) (paths : list string) :
  forall message,
    attach_all w message (map JStr paths)
    = attach_all w message (map JStr (existing w paths)).
Proof.
  induction paths as [ | p paths IH ]; intros message; [ reflexivity | ].
  cbn [map attach_all existing filter].
  destruct (os_path_exists w (JStr p)) eqn:E.
  - cbn [map attach_all]. destruct (attach_one w message (JStr p)); [ apply IH | reflexivity ].
  - rewrite (attach_one_missing w message (JStr p) E). apply IH.
Qed.

Lemma attach_all_multipart (w : World) (paths : list string) :
  readable w paths ->
  forall h s ps,
    attach_all w (MIMEMultipart h s ps) (map JStr paths)
    = Ok (MIMEMultipart h s
            (ps ++ map (fun p => attachment_part p (file_content w p))
                       (existing w paths))%list).
Proof.
  induction paths as [ | p paths IH ]; intros Hr h s ps.
  - cbn. now rewrite List.app_nil_r.
  - assert (Hr' : readable w paths).
    { intros q Hq. apply Hr. now right. }
    cbn [map attach_all existing filter]. unfold attach_one.
    destruct (os_path_exists w (JStr p)) eqn:E.
    + destruct (Hr p (or_introl eq_refl) E) as (content & Hc).
      rewrite Hc. cbn [attach]. rewrite (IH Hr').
      cbn [map]. unfold file_content at 2. rewrite Hc.
      now rewrite <- List.app_assoc.
    + apply (IH Hr').
Qed.

Lemma filter_attachment_parts (w : World) (l : list string) :
  filter is_attachment (map (fun p => attachment_part p (file_content w p)) l)
  = map (fun p => attachment_part p (file_content w p)) l.
Proof. induction l as [ | p l IH ]; cbn; [ reflexivity | now rewrite IH ]. Qed.

(** A well-typed request always gets its text and headers, and what it
    gets then holds no attachment. *)
Lemma typed_message_with_headers (t : TypedEmailRequest) :
  exists base,
    message_with_headers (well_typed t) = Ok base
    /\ ((exists h text st, base = MIMEText h text st)
        \/ (exists h st ps, base = MIMEMultipart h st ps
                            /\ filter is_attachment ps = [])).
Proof.
  unfold message_with_headers, well_typed. cbn [html_body body to subject cc bcc].
  rewrite str_join_str_list.
  destruct (html_body_ t) as [ [ | c hb ] | ];
    destruct (cc_ t) as [ [ | c1 l1 ] | ];
    destruct (bcc_ t) as [ [ | c2 l2 ] | ];
    cbn [some_or_none opt_str_list str_list truthy map negb String.eqb rbind
         new_MIMEText set_header];
    rewrite ?str_join_str_list; cbn [rbind set_header];
    eexists; (split; [ reflexivity | ]);
    first [ left; do 3 eexists; reflexivity
          | right; do 3 eexists; split; reflexivity ].
Qed.

End AttachmentFacts.

(** C9.  For a well-typed request with an attachments list, in a world
    where every listed file that exists can be read, the message is built,
    and its attachment parts are exactly the parts of the listed paths that
    exist, in the order of the list; [create_message] then returns the raw
    message whenever the built message serializes.  A path that does not
    exist changes nothing: the loop over the list gives what the loop over
    its existing paths gives. *)
Theorem missing_attachments_are_skipped
  {P : Platform} (w : World) (t : TypedEmailRequest) (paths : list string) :
  attachments_ t = Some paths ->
  readable w paths ->
  exists message,
    build_message w (well_typed t) = Ok message
    /\ attachment_parts message
       = map (fun p => attachment_part p (file_content w p)) (existing w paths)
    /\ (forall st raw,
          world st = w -> raw_bytes message = Ok raw ->
          create_message (well_typed t) st = (Ok (Some [("raw", JStr raw)]), st))
    /\ (forall m0,
          attach_all w m0 (map JStr paths)
          = attach_all w m0 (map JStr (existing w paths))).
Proof.
  intros Ha Hr.
  destruct (typed_message_with_headers t) as (base & Hbase & Hshape).
  assert (Hbuild : exists message,
             build_message w (well_typed t) = Ok message
             /\ attachment_parts message
                = map (fun p => attachment_part p (file_content w p))
                      (existing w paths)).
  { unfold build_message. rewrite Hbase. cbn [rbind].
    unfold well_typed at 1 2. cbn [attachments]. rewrite Ha.
    destruct paths as [ | p paths ].
    - cbn. exists base. split; [ reflexivity | ].
      destruct Hshape as [ (h & text & st & ->) | (h & st & ps & -> & Hps) ];
        [ reflexivity | exact Hps ].
    - cbn [opt_str_list str_list truthy map py_iter rbind].
      change (JStr p :: map JStr paths) with (map JStr (p :: paths)).
      destruct Hshape as [ (h & text & st & ->) | (h & st & ps & -> & Hps) ];
        cbn [is_multipart negb]; rewrite (attach_all_multipart w (p :: paths) Hr);
        eexists; (split; [ reflexivity | ]);
        cbn [attachment_parts]; rewrite filter_app, filter_attachment_parts.
      + reflexivity.
      + now rewrite Hps. }
  destruct Hbuild as (message & Hb & Hparts).
  exists message. split; [ exact Hb | ]. split; [ exact Hparts | ]. split.
  - intros st raw Hw Hraw.
    unfold create_message, try_except, bind, observe, lift.
    rewrite Hw, Hb. cbn. rewrite Hraw. reflexivity.
  - intros m0. apply attach_all_skips_missing.
Qed.

(* ================================================================== *)
(** ** The reference wire format reads back what it writes *)
(* ================================================================== *)

Module WireFacts.
Import Wire WireTerms.
Local Open Scope nat_scope.
#[local] Arguments newline_indent : simpl never.

Lemma skip_ws_stop (c : ascii) (s : string) :
  is_ws c = false -> skip_ws (String c s) = String c s.
Proof. intros H. cbn. now rewrite H. Qed.

Lemma skip_ws_spaces (n : nat) (s : string) :
  skip_ws (spaces n ++ s) = skip_ws s.
Proof. induction n as [ | n IH ]; [ reflexivity | exact IH ]. Qed.

Lemma skip_ws_newline_indent (lvl : nat) (s : string) :
  skip_ws (newline_indent lvl ++ s) = skip_ws s.
Proof. unfold newline_indent. cbn [append skip_ws]. cbn [is_ws]. apply skip_ws_spaces. Qed.

(** One character, escaped and scanned, is that character. *)
Lemma scan_escape_char (begin : string) (c : ascii) (tail : string) :
  scan_string begin (escape_char c ++ tail)
  = pmap (String c) (scan_string begin tail).
Proof.
  destruct c as [b0 b1 b2 b3 b4 b5 b6 b7].
  destruct b0, b1, b2, b3, b4, b5, b6, b7; reflexivity.
Qed.

Lemma scan_escape (begin : string) (s rest : string) :
  scan_string begin (escape s ++ String dquote rest) = Done s rest.
Proof.
  induction s as [ | c s IH ]; [ reflexivity | ].
  cbn [escape]. rewrite append_assoc, scan_escape_char, IH. reflexivity.
Qed.

(* ------------------------------------------------------------------ *)
(** *** Integers *)

Ltac ascii_cases c :=
  let b0 := fresh in let b1 := fresh in let b2 := fresh in let b3 := fresh in
  let b4 := fresh in let b5 := fresh in let b6 := fresh in let b7 := fresh in
  destruct c as [b0 b1 b2 b3 b4 b5 b6 b7];
  destruct b0, b1, b2, b3, b4, b5, b6, b7.

Lemma boundary_not_digit (c : ascii) (s : string) :
  boundary (String c s) -> is_digit c = false.
Proof. intros [-> | ->]; reflexivity. Qed.

Lemma boundary_not_float (rest : string) :
  boundary rest -> float_follows rest = false.
Proof.
  destruct rest as [ | c [ | d rest ] ]; [ reflexivity | reflexivity | ].
  intros [-> | ->]; reflexivity.
Qed.

Lemma span_digits_uint (d : Decimal.uint) (rest : string) :
  boundary rest ->
  span_digits (NilEmpty.string_of_uint d ++ rest)
  = (NilEmpty.string_of_uint d, rest).
Proof.
  intros Hb.
  induction d as [ | d IH | d IH | d IH | d IH | d IH | d IH | d IH | d IH | d IH | d IH ];
    try (cbn [NilEmpty.string_of_uint append span_digits];
         change (is_digit _) with true; cbn iota; rewrite IH; reflexivity).
  cbn. destruct rest as [ | c rest ]; [ reflexivity | ].
  cbn. now rewrite (boundary_not_digit c rest Hb).
Qed.

(** The decimal digits of a positive number do not start with a zero. *)
Lemma to_uint_head (p : positive) :
  Pos.to_uint p <> Decimal.Nil /\ forall d', Pos.to_uint p <> Decimal.D0 d'.
Proof.
  split; [ apply Unsigned.to_uint_nonnil | ].
  intros d' E.
  assert (Hn : Decimal.unorm (Pos.to_uint p) = Pos.to_uint p).
  { rewrite <- Unsigned.to_of, Unsigned.of_to. reflexivity. }
  rewrite E in Hn. rewrite unorm_D0 in Hn.
  destruct (Decimal.nzhead d') eqn:Ez;
    try (rewrite (unorm_nzhead d') in Hn by (rewrite Ez; discriminate);
         rewrite Ez in Hn; discriminate).
  - apply (Unsigned.to_uint_nonzero p). rewrite E.
    assert (H0 : Decimal.unorm d' = Decimal.zero) by (apply unorm_0; exact Ez).
    rewrite H0 in Hn. inversion Hn. reflexivity.
  - exact (nzhead_nonzero d' _ Ez).
Qed.

Lemma digits_value_to_uint (p : positive) :
  digits_value (NilEmpty.string_of_uint (Pos.to_uint p)) = Zpos p.
Proof.
  unfold digits_value.
  assert (E : NilZero.uint_of_string (NilEmpty.string_of_uint (Pos.to_uint p))
              = Some (Pos.to_uint p)).
  { generalize (NilZero.usu (Pos.to_uint p) (Unsigned.to_uint_nonnil p)).
    unfold NilZero.string_of_uint.
    destruct (Pos.to_uint p) eqn:Ep; auto.
    exfalso. exact (Unsigned.to_uint_nonnil p Ep). }
  rewrite E. unfold Z.of_uint. rewrite Unsigned.of_to. reflexivity.
Qed.

Lemma scan_digits_to_uint (p : positive) (rest : string) :
  boundary rest ->
  scan_digits (NilEmpty.string_of_uint (Pos.to_uint p) ++ rest)
  = Some (NilEmpty.string_of_uint (Pos.to_uint p), rest).
Proof.
  intros Hb. destruct (to_uint_head p) as (Hnil & H0).
  generalize (span_digits_uint (Pos.to_uint p) rest Hb).
  destruct (Pos.to_uint p) as [ | d | d | d | d | d | d | d | d | d | d ];
    [ contradiction | exfalso; exact (H0 d eq_refl) | .. ];
    intros Hs; unfold scan_digits; cbn [NilEmpty.string_of_uint append];
    change (Ascii.eqb _ "0") with false; change (is_digit _) with true;
    cbn iota; cbn [NilEmpty.string_of_uint append] in Hs; rewrite Hs; reflexivity.
Qed.

Lemma encode_int_pos (p : positive) :
  encode_int (Zpos p) = NilEmpty.string_of_uint (Pos.to_uint p).
Proof.
  unfold encode_int. cbn [Z.to_int NilZero.string_of_int].
  unfold NilZero.string_of_uint.
  destruct (Pos.to_uint p) eqn:E; try reflexivity.
  exfalso. exact (Unsigned.to_uint_nonnil p E).
Qed.

Lemma encode_int_neg (p : positive) :
  encode_int (Zneg p) = String "-" (NilEmpty.string_of_uint (Pos.to_uint p)).
Proof.
  unfold encode_int. cbn [Z.to_int NilZero.string_of_int].
  unfold NilZero.string_of_uint.
  destruct (Pos.to_uint p) eqn:E; try reflexivity.
  exfalso. exact (Unsigned.to_uint_nonnil p E).
Qed.

(** The digits of a number start with a digit that is not zero. *)
Lemma to_uint_first (p : positive) :
  exists c s, NilEmpty.string_of_uint (Pos.to_uint p) = String c s
              /\ is_digit c = true /\ Ascii.eqb c "-" = false.
Proof.
  destruct (to_uint_head p) as (Hnil & _).
  destruct (Pos.to_uint p); [ contradiction | .. ];
    cbn [NilEmpty.string_of_uint]; do 2 eexists; (split; [ reflexivity | ]);
    split; reflexivity.
Qed.

Lemma scan_number_unsigned (c : ascii) (s rest : string) :
  Ascii.eqb c "-" = false ->
  scan_number (String c s ++ rest)
  = match scan_digits (String c s ++ rest) with
    | None => None
    | Some (d, r) =>
        if float_follows r then Some (Unsupported "float")
        else Some (Done (JInt (digits_value d)) r)
    end.
Proof. intros H. unfold scan_number. cbn [append]. rewrite H. reflexivity. Qed.

Lemma scan_number_int (z : Z) (rest : string) :
  boundary rest ->
  scan_number (encode_int z ++ rest) = Some (Done (JInt z) rest).
Proof.
  intros Hb. destruct z as [ | p | p ].
  - unfold scan_number. cbn. rewrite (boundary_not_float rest Hb). reflexivity.
  - rewrite encode_int_pos.
    destruct (to_uint_first p) as (c & s & E & _ & Hm).
    rewrite E, (scan_number_unsigned c s rest Hm), <- E.
    rewrite (scan_digits_to_uint p rest Hb), (boundary_not_float rest Hb).
    now rewrite digits_value_to_uint.
  - rewrite encode_int_neg. unfold scan_number. cbn [append].
    change (Ascii.eqb "-" "-") with true. cbn iota.
    rewrite (scan_digits_to_uint p rest Hb), (boundary_not_float rest Hb).
    now rewrite digits_value_to_uint.
Qed.

(** An integer starts with a digit or a minus sign. *)
Lemma encode_int_first (z : Z) :
  exists c s, encode_int z = String c s /\ (is_digit c = true \/ c = "-"%char).
Proof.
  destruct z as [ | p | p ].
  - exists "0"%char, EmptyString. split; [ reflexivity | now left ].
  - rewrite encode_int_pos. destruct (to_uint_first p) as (c & s & E & Hd & _).
    exists c, s. split; [ exact E | now left ].
  - rewrite encode_int_neg. do 2 eexists. split; [ reflexivity | now right ].
Qed.

Lemma number_is_literal (c : ascii) (s : string) :
  is_digit c = true \/ c = "-"%char ->
  strip_prefix "null" (String c s) = None
  /\ strip_prefix "true" (String c s) = None
  /\ strip_prefix "false" (String c s) = None
  /\ Ascii.eqb c dquote = false
  /\ Ascii.eqb c "{" = false
  /\ Ascii.eqb c "[" = false
  /\ is_ws c = false
  /\ Ascii.eqb c "]" = false
  /\ Ascii.eqb c "}" = false.
Proof.
  intros [H | ->]; [ | repeat split ].
  revert H. ascii_cases c; cbn; intros H; try discriminate H; repeat split.
Qed.

(* ------------------------------------------------------------------ *)
(** *** Values *)

Lemma encode_arr (lvl : nat) (x : json) (xs : list json) :
  encode lvl (JArr (x :: xs))
  = "[" ++ newline_indent (S lvl) ++ encode (S lvl) x
        ++ more_items (S lvl) xs ++ newline_indent lvl ++ "]".
Proof.
  cbn [encode]. do 3 f_equal. f_equal.
  induction xs as [ | y ys IH ]; [ reflexivity | ].
  cbn [more_items]. now rewrite <- IH.
Qed.

Lemma encode_obj (lvl : nat) (k : string) (x : json) (kvs : pydict) :
  encode lvl (JObj ((k, x) :: kvs))
  = "{" ++ newline_indent (S lvl) ++ encode_string k ++ ": " ++ encode (S lvl) x
        ++ more_fields (S lvl) kvs ++ newline_indent lvl ++ "}".
Proof.
  cbn [encode]. do 5 f_equal. f_equal.
  induction kvs as [ | [k' y] ys IH ]; [ reflexivity | ].
  cbn [more_fields]. now rewrite <- IH.
Qed.

Lemma need_arr (l : list json) : need (JArr l) = S (need_items l).
Proof.
  reflexivity.
Qed.

Lemma need_obj (d : pydict) : need (JObj d) = S (need_fields d).
Proof.
  reflexivity.
Qed.

(** An encoding starts with a character that is neither white space nor a
    closing bracket. *)
Lemma encode_first (lvl : nat) (v : json) :
  exists c s, encode lvl v = String c s
              /\ is_ws c = false
              /\ Ascii.eqb c "]" = false
              /\ Ascii.eqb c "}" = false.
Proof.
  destruct v as [ | [ | ] | z | s | [ | x xs ] | [ | [k x] kvs ] | [ | [ | ] ] ];
    try (do 2 eexists; split; [ reflexivity | repeat split ]).
  - destruct (encode_int_first z) as (c & s & E & Hc).
    exists c, s. split; [ exact E | ].
    destruct (number_is_literal c s Hc) as (_ & _ & _ & _ & _ & _ & H1 & H2 & H3).
    auto.
Qed.

Lemma skip_ws_encode (lvl : nat) (v : json) (tail : string) :
  skip_ws (encode lvl v ++ tail) = encode lvl v ++ tail.
Proof.
  destruct (encode_first lvl v) as (c & s & E & Hws & _).
  rewrite E. cbn [append]. now apply skip_ws_stop.
Qed.

Lemma boundary_comma (s : string) : boundary ("," ++ s).
Proof. now left. Qed.

Lemma boundary_newline (lvl : nat) (s : string) : boundary (newline_indent lvl ++ s).
Proof. now right. Qed.

Lemma boundary_more_items (lvl lvl' : nat) (xs : list json) (s : string) :
  boundary (more_items lvl xs ++ newline_indent lvl' ++ s).
Proof. destruct xs; [ apply boundary_newline | apply boundary_comma ]. Qed.

Lemma boundary_more_fields (lvl lvl' : nat) (kvs : pydict) (s : string) :
  boundary (more_fields lvl kvs ++ newline_indent lvl' ++ s).
Proof. destruct kvs as [ | [k x] kvs ]; [ apply boundary_newline | apply boundary_comma ]. Qed.

Lemma parse_elements_encode (lvl lvl' : nat) (rest : string) (xs : list json) :
  Forall reads_back xs ->
  forallb json_wf xs = true ->
  forall x acc fuel,
    reads_back x -> json_wf x = true ->
    need_items (x :: xs) <= fuel ->
    parse_elements fuel
      (encode lvl x ++ more_items lvl xs ++ newline_indent lvl' ++ String "]" rest) acc
    = Done (acc ++ x :: xs)%list rest.
Proof.
  induction xs as [ | y ys IH ]; intros Hall Hwf x acc fuel Hx Hwx Hfuel.
  - destruct fuel as [ | fuel ]; [ cbn in Hfuel; lia | ].
    cbn [parse_elements more_items append].
    rewrite (Hx Hwx lvl _ fuel (boundary_newline lvl' _)) by (cbn in Hfuel; lia).
    rewrite skip_ws_newline_indent. reflexivity.
  - destruct fuel as [ | fuel ]; [ cbn in Hfuel; lia | ].
    cbn [parse_elements].
    cbn [need_items] in Hfuel.
    rewrite (Hx Hwx lvl _ fuel (boundary_more_items lvl lvl' (y :: ys) _)) by lia.
    cbn [more_items]. rewrite !append_assoc.
    cbn [append skip_ws]. change (is_ws ",") with false. cbn iota.
    change (Ascii.eqb "," "]") with false. change (Ascii.eqb "," ",") with true.
    cbn iota.
    rewrite skip_ws_newline_indent, skip_ws_encode.
    inversion Hall as [ | ? ? Hy Hys ]; subst.
    cbn [forallb] in Hwf. apply andb_true_iff in Hwf. destruct Hwf as (Hwy & Hwys).
    rewrite (IH Hys Hwys y (acc ++ [x])%list fuel Hy Hwy) by (cbn [need_items]; lia).
    now rewrite <- List.app_assoc.
Qed.

Lemma encode_string_app (k tail : string) :
  encode_string k ++ tail = String dquote (escape k ++ String dquote tail).
Proof. unfold encode_string. cbn [append]. now rewrite append_assoc. Qed.

Lemma parse_members_encode (lvl lvl' : nat) (rest : string) (kvs : pydict) :
  Forall (fun kv => reads_back (snd kv)) kvs ->
  forallb (fun kv => json_wf (snd kv)) kvs = true ->
  forall k x acc fuel,
    reads_back x -> json_wf x = true ->
    need_fields ((k, x) :: kvs) <= fuel ->
    parse_members fuel
      (encode_string k
         ++ String ":" (String " " (encode lvl x ++ more_fields lvl kvs
                                      ++ newline_indent lvl' ++ String "}" rest))) acc
    = Done (fold_left set_pair ((k, x) :: kvs) acc) rest.
Proof.
  induction kvs as [ | [k' y] kvs IH ]; intros Hall Hwf k x acc fuel Hx Hwx Hfuel;
    (destruct fuel as [ | fuel ]; [ cbn in Hfuel; lia | ]);
    cbn [need_fields] in Hfuel;
    rewrite encode_string_app; cbn [parse_members];
    change (Ascii.eqb dquote dquote) with true; cbn iota;
    rewrite scan_escape; cbn [append skip_ws];
    change (is_ws ":") with false; cbn iota;
    change (Ascii.eqb ":" ":") with true; cbn iota;
    change (skip_ws (String " " ?t)) with (skip_ws t);
    rewrite skip_ws_encode.
  - cbn [more_fields append].
    rewrite (Hx Hwx lvl _ fuel (boundary_newline lvl' _)) by lia.
    rewrite skip_ws_newline_indent. reflexivity.
  - rewrite (Hx Hwx lvl _ fuel (boundary_more_fields lvl lvl' ((k', y) :: kvs) _)) by lia.
    cbn [more_fields]. rewrite !append_assoc.
    cbn [append skip_ws]. change (is_ws ",") with false. cbn iota.
    change (Ascii.eqb "," "}") with false. change (Ascii.eqb "," ",") with true.
    cbn iota.
    rewrite skip_ws_newline_indent.
    inversion Hall as [ | ? ? Hy Hys ]; subst. cbn [snd] in Hy.
    cbn [forallb snd] in Hwf. apply andb_true_iff in Hwf. destruct Hwf as (Hwy & Hwys).
    assert (Hskip : forall t, skip_ws (String dquote t) = String dquote t)
      by (intros t; now apply skip_ws_stop).
    generalize (IH Hys Hwys k' y (dict_set acc k x) fuel Hy Hwy).
    rewrite encode_string_app, Hskip. intros E. rewrite E by (cbn [need_fields]; lia).
    reflexivity.
Qed.

(* ------------------------------------------------------------------ *)
(** *** Dicts with distinct keys *)

Lemma distinct_NoDup (l : list string) : distinct l = true <-> NoDup l.
Proof.
  induction l as [ | k l IH ]; cbn.
  - split; [ constructor | reflexivity ].
  - rewrite andb_true_iff, negb_true_iff, IH. split.
    + intros (Hk & Hl). constructor; [ | exact Hl ].
      intros Hin. assert (Ht : existsb (String.eqb k) l = true).
      { apply existsb_exists. exists k. split; [ exact Hin | apply String.eqb_refl ]. }
      congruence.
    + intros H. inversion H as [ | ? ? Hk Hl ]; subst. split; [ | exact Hl ].
      destruct (existsb (String.eqb k) l) eqn:E; [ | reflexivity ].
      apply existsb_exists in E. destruct E as (k' & Hin & Heq).
      apply String.eqb_eq in Heq. subst. contradiction.
Qed.

Lemma dict_set_fresh (d : pydict) (k : string) (v : json) :
  ~ In k (map fst d) -> dict_set d k v = (d ++ [(k, v)])%list.
Proof.
  induction d as [ | [k' v'] d IH ]; intros Hk; [ reflexivity | ].
  cbn [dict_set]. destruct (String.eqb_spec k' k) as [-> | Hne].
  - exfalso. apply Hk. now left.
  - cbn [app]. rewrite IH; [ reflexivity | ]. intros Hin. apply Hk. now right.
Qed.

Lemma fold_set_pair_distinct (l acc : pydict) :
  NoDup (map fst (acc ++ l)) -> fold_left set_pair l acc = (acc ++ l)%list.
Proof.
  revert acc. induction l as [ | [k v] l IH ]; intros acc Hnd.
  - cbn. now rewrite List.app_nil_r.
  - cbn [fold_left]. unfold set_pair at 2. cbn [fst snd].
    rewrite map_app in Hnd. cbn [map fst] in Hnd.
    destruct (NoDup_remove _ _ _ Hnd) as (_ & Hk).
    rewrite dict_set_fresh.
    + rewrite IH.
      * now rewrite <- List.app_assoc.
      * rewrite <- List.app_assoc. cbn [app]. rewrite map_app. exact Hnd.
    + intros Hin. apply Hk. apply in_or_app. now left.
Qed.

(* ------------------------------------------------------------------ *)
(** *** The round trip *)

Lemma literal_reads_back (v : json) (text : string) :
  (forall rest, scan_literal (text ++ rest) = Done v rest) ->
  (exists c s, text = String c s /\ Ascii.eqb c dquote = false
               /\ Ascii.eqb c "{" = false /\ Ascii.eqb c "[" = false) ->
  forall rest fuel, 1 <= fuel -> parse_value fuel (text ++ rest) = Done v rest.
Proof.
  intros Hscan (c & s & -> & H1 & H2 & H3) rest fuel Hfuel.
  destruct fuel as [ | fuel ]; [ lia | ].
  specialize (Hscan rest). cbn [append] in *. cbn [parse_value].
  now rewrite H1, H2, H3.
Qed.

Lemma parse_encode (v : json) : reads_back v.
Proof.
  induction v as [ | b | z | s | l IH | d IH | f ] using json_induction;
    intros Hwf lvl rest fuel Hb Hfuel.
  - destruct fuel as [ | fuel ]; [ cbn in Hfuel; lia | reflexivity ].
  - destruct fuel as [ | fuel ]; [ cbn in Hfuel; lia | ]. destruct b; reflexivity.
  - destruct fuel as [ | fuel ]; [ cbn in Hfuel; lia | ].
    cbn [encode].
    destruct (encode_int_first z) as (c & s & E & Hc).
    destruct (number_is_literal c (s ++ rest) Hc) as (N1 & N2 & N3 & N4 & N5 & N6 & _).
    generalize (scan_number_int z rest Hb). rewrite E. cbn [append]. intros Hn.
    cbn [parse_value]. rewrite N4, N5, N6.
    unfold scan_literal. now rewrite N1, N2, N3, Hn.
  - destruct fuel as [ | fuel ]; [ cbn in Hfuel; lia | ].
    cbn [encode]. rewrite encode_string_app. cbn [parse_value].
    change (Ascii.eqb dquote dquote) with true. cbn iota.
    now rewrite scan_escape.
  - rewrite need_arr in Hfuel.
    destruct fuel as [ | fuel ]; [ lia | ].
    destruct l as [ | x xs ]; [ reflexivity | ].
    rewrite encode_arr, !append_assoc. cbn [append parse_value].
    change (Ascii.eqb "[" dquote) with false. change (Ascii.eqb "[" "{") with false.
    change (Ascii.eqb "[" "[") with true. cbn iota.
    rewrite skip_ws_newline_indent, skip_ws_encode.
    destruct (encode_first (S lvl) x) as (c & s & E & _ & Hc & _).
    match goal with
    | |- context [parse_elements _ ?T _] => destruct T as [ | c1 r1 ] eqn:ET
    end; rewrite E in ET; [ discriminate | ].
    injection ET as <- <-. rewrite Hc.
    inversion IH as [ | ? ? Hx Hxs ]; subst.
    cbn [json_wf forallb] in Hwf. apply andb_true_iff in Hwf. destruct Hwf as (Hwx & Hwxs).
    change (String c (s ++ ?t)) with (String c s ++ t).
    rewrite <- E.
    change (String newline (spaces (lvl + (lvl + 0)) ++ ?t))
      with (newline_indent lvl ++ t).
    rewrite (parse_elements_encode (S lvl) lvl rest xs Hxs Hwxs x [] fuel Hx Hwx) by lia.
    reflexivity.
  - rewrite need_obj in Hfuel.
    destruct fuel as [ | fuel ]; [ lia | ].
    destruct d as [ | [k x] kvs ]; [ reflexivity | ].
    rewrite encode_obj, !append_assoc. cbn [append parse_value].
    change (Ascii.eqb "{" dquote) with false. change (Ascii.eqb "{" "{") with true.
    cbn iota.
    rewrite skip_ws_newline_indent.
    assert (Hskip : forall t, skip_ws (String dquote t) = String dquote t)
      by (intros t; now apply skip_ws_stop).
    rewrite encode_string_app, Hskip.
    change (Ascii.eqb dquote "}") with false. cbn iota.
    inversion IH as [ | ? ? Hx Hxs ]; subst. cbn [snd] in Hx.
    cbn [json_wf] in Hwf. apply andb_true_iff in Hwf. destruct Hwf as (Hkeys & Hvals).
    cbn [forallb snd] in Hvals. apply andb_true_iff in Hvals.
    destruct Hvals as (Hwx & Hwxs).
    change (String newline (spaces (lvl + (lvl + 0)) ++ ?t))
      with (newline_indent lvl ++ t).
    generalize (parse_members_encode (S lvl) lvl rest kvs Hxs Hwxs k x [] fuel Hx Hwx).
    rewrite encode_string_app. intros E. rewrite E by lia.
    cbn [pmap]. f_equal. f_equal.
    apply (fold_set_pair_distinct ((k, x) :: kvs) []).
    cbn [app]. now apply distinct_NoDup.
  - destruct fuel as [ | fuel ]; [ cbn in Hfuel; lia | ].
    destruct f as [ | [ | ] ]; reflexivity.
Qed.

(* ------------------------------------------------------------------ *)
(** *** The fuel [loads] starts with is enough *)

Lemma length_newline_indent (lvl : nat) :
  1 <= String.length (newline_indent lvl).
Proof. unfold newline_indent. cbn [String.length]. lia. Qed.

Lemma need_items_bound (lvl : nat) (l : list json) :
  Forall (fun v => forall lvl, need v <= 2 * String.length (encode lvl v)) l ->
  need_items l <= 2 * String.length (more_items lvl l) + 1.
Proof.
  induction 1 as [ | x l Hx _ IH ]; [ cbn; lia | ].
  cbn [need_items more_items]. rewrite !length_append.
  specialize (Hx lvl). pose proof (length_newline_indent lvl).
  cbn [String.length]. lia.
Qed.

Lemma need_fields_bound (lvl : nat) (d : pydict) :
  Forall (fun kv => forall lvl, need (snd kv) <= 2 * String.length (encode lvl (snd kv))) d ->
  need_fields d <= 2 * String.length (more_fields lvl d) + 1.
Proof.
  induction 1 as [ | [k x] d Hx _ IH ]; [ cbn; lia | ].
  cbn [need_fields more_fields]. rewrite !length_append.
  cbn [snd] in Hx. specialize (Hx lvl). pose proof (length_newline_indent lvl).
  cbn [String.length]. lia.
Qed.

Lemma need_bound (v : json) : forall lvl, need v <= 2 * String.length (encode lvl v).
Proof.
  induction v as [ | b | z | s | l IH | d IH | f ] using json_induction; intros lvl.
  - cbn. lia.
  - destruct b; cbn; lia.
  - cbn [need encode]. destruct (encode_int_first z) as (c & s & -> & _).
    cbn [String.length]. lia.
  - cbn [need encode]. unfold encode_string. cbn [String.length]. lia.
  - rewrite need_arr. destruct l as [ | x xs ]; [ cbn; lia | ].
    rewrite encode_arr, !length_append.
    inversion IH as [ | ? ? Hx Hxs ]; subst.
    pose proof (need_items_bound (S lvl) xs Hxs). specialize (Hx (S lvl)).
    pose proof (length_newline_indent (S lvl)).
    cbn [need_items String.length]. lia.
  - rewrite need_obj. destruct d as [ | [k x] kvs ]; [ cbn; lia | ].
    rewrite encode_obj, !length_append.
    inversion IH as [ | ? ? Hx Hxs ]; subst. cbn [snd] in Hx.
    pose proof (need_fields_bound (S lvl) kvs Hxs). specialize (Hx (S lvl)).
    pose proof (length_newline_indent (S lvl)).
    cbn [need_fields String.length]. lia.
  - destruct f as [ | [ | ] ]; cbn; lia.
Qed.

(** [json.loads(json.dumps(v, indent=2)) == v] for the reference codec. *)
Lemma loads_dumps (v : json) : json_wf v = true -> loads (dumps v) = Ok v.
Proof.
  intros Hwf. unfold loads, dumps.
  rewrite <- (append_nil_r (encode 0 v)) at 2.
  rewrite skip_ws_encode.
  rewrite (parse_encode v Hwf 0 EmptyString (2 * String.length (encode 0 v) + 2) I).
  - reflexivity.
  - pose proof (need_bound v 0). lia.
Qed.

End WireFacts.

(* ================================================================== *)
(** ** The wire format round trip *)
(* ================================================================== *)

Lemma AgentMessage_of_asdict (m : AgentMessage) :
  AgentMessage_of (JObj (asdict_message m)) = Ok m.
Proof. destruct m. reflexivity. Qed.

Lemma message_wf_asdict (m : AgentMessage) :
  message_wf m = true -> json_wf (JObj (asdict_message m)) = true.
Proof.
  unfold message_wf. intros H.
  repeat (apply andb_true_iff in H; destruct H as (H & ?)).
  cbn. repeat (apply andb_true_iff; split); auto.
Qed.





(* ================================================================== *)
(** ** The theorems at work on the concrete platform *)
(* ================================================================== *)

Lemma demo_backend_ids_present : backend_ids_present (P:=demo_platform).
Proof.
  intros w svc body res w' H. cbn in H. unfold demo_execute in H.
  destruct (gmail_up w); inversion H. discriminate.
Qed.

(** C4 at work: a health check in a fresh agent is answered by a
    [health_check_response]. *)
Lemma response_type_table_witness :
  exists resp st',
    process_agent_message demo_health (fresh_state demo_world) = (Ok resp, st')
    /\ message_type resp = JStr "health_check_response".
Proof.
  destruct (response_type_table demo_health (fresh_state demo_world))
    as (resp & st' & H & Hh & _).
  exists resp, st'. split; [ exact H | ]. apply Hh. reflexivity.
Defined.

(** C4 as stated fails: the answer to [capability_inquiry] is typed
    [capability_response], which is not the request type with [_response]
    appended, and likewise [email_send_request] gives [email_send_response]. *)
Lemma response_type_is_not_suffixed :
  (exists resp st',
     process_agent_message demo_capability (fresh_state demo_world) = (Ok resp, st')
     /\ message_type demo_capability = JStr "capability_inquiry"
     /\ message_type resp = JStr "capability_response"
     /\ message_type resp <> JStr ("capability_inquiry" ++ "_response"))
  /\ (exists resp st',
        process_agent_message demo_send (fresh_state demo_world) = (Ok resp, st')
        /\ message_type demo_send = JStr "email_send_request"
        /\ message_type resp = JStr "email_send_response"
        /\ message_type resp <> JStr ("email_send_request" ++ "_response")).
Proof.
  split; eexists _, _; (split; [ vm_compute; reflexivity | ]);
    cbn; repeat split; discriminate.
Qed.

(** C5 at work: a misspelt request type. *)
Lemma unknown_type_is_reported_witness :
  exists resp st',
    process_agent_message demo_unknown (fresh_state demo_world) = (Ok resp, st')
    /\ message_type resp = JStr "error_response"
    /\ payload resp = JObj [("error", JStr "Unknown message type: email_sent_request")].
Proof.
  destruct (unknown_type_is_reported demo_unknown (fresh_state demo_world))
    as (resp & st' & H & Ht & Hp & _); try discriminate.
  exists resp, st'. split; [ exact H | ]. split; [ exact Ht | exact Hp ].
Defined.

(** C6 at work: the example of the specification. *)
Lemma health_check_reports_session_witness :
  exists resp st',
    process_agent_message demo_health (fresh_state demo_world) = (Ok resp, st')
    /\ payload resp = JObj [("status", JStr "healthy");
                            ("agent_id", JStr "gmail-agent-001");
                            ("authenticated", JBool false)]
    /\ backend_calls (trace st') = [].
Proof.
  destruct (health_check_reports_session demo_health (fresh_state demo_world) eq_refl)
    as (resp & st' & H & _ & Hp & Hc & _).
  exists resp, st'. split; [ exact H | ]. split; [ exact (Hp eq_refl) | exact Hc ].
Defined.

(** C7 at work: two inquiries, one to a fresh agent with the backend up and
    one with the backend down. *)
Lemma capability_inquiry_is_constant_witness :
  exists r1 st1' r2 st2',
    process_agent_message demo_capability (fresh_state demo_world) = (Ok r1, st1')
    /\ process_agent_message demo_capability (fresh_state demo_world_down) = (Ok r2, st2')
    /\ payload r1 = payload r2.
Proof.
  destruct (capability_inquiry_is_constant demo_capability demo_capability
              (fresh_state demo_world) (fresh_state demo_world_down)
              eq_refl eq_refl)
    as (r1 & st1' & r2 & st2' & H1 & H2 & Hp & _).
  exists r1, st1', r2, st2'. split; [ exact H1 | ]. split; [ exact H2 | exact Hp ].
Defined.

(** C9 at work: of the two listed files only [notes.txt] exists, and the
    message carries exactly its part. *)
Lemma missing_attachments_are_skipped_witness :
  exists message,
    build_message demo_world (well_typed demo_typed) = Ok message
    /\ attachment_parts message = [attachment_part "notes.txt" "hello"].
Proof.
  assert (Hr : readable (P:=demo_platform) demo_world ["missing.pdf"; "notes.txt"]).
  { intros p [<- | [<- | []]] Hex.
    - discriminate Hex.
    - exists "hello". reflexivity. }
  destruct (missing_attachments_are_skipped (P:=demo_platform) demo_world demo_typed
              ["missing.pdf"; "notes.txt"] eq_refl Hr)
    as (message & Hb & Hp & _).
  exists message. split; [ exact Hb | exact Hp ].
Defined.

(** C10 at work: an object with [agent_id] and [correlation_id] but no
    [timestamp]. *)
Lemma malformed_envelope_is_uncorrelated_witness :
  exists envelope,
    handle_message_json
      (jtext "{'agent_id': 'c1', 'message_type': 'health_check', 'payload': {}, 'correlation_id': 'abc'}")
      (fresh_state demo_world)
    = (Ok (json_dumps (JObj (asdict_message envelope))), fresh_state demo_world)
    /\ message_type envelope = JStr "error_response"
    /\ absent (correlation_id envelope)
    /\ absent (reply_to envelope).
Proof.
  destruct (proj1 (malformed_envelope_is_uncorrelated (P:=demo_platform) (J:=wire_json))
              (jtext "{'agent_id': 'c1', 'message_type': 'health_check', 'payload': {}, 'correlation_id': 'abc'}")
              (fresh_state demo_world)
              (JObj [("agent_id", JStr "c1"); ("message_type", JStr "health_check");
                     ("payload", JObj []); ("correlation_id", JStr "abc")])
              (mkExc TypeError
                 ("AgentMessage.__init__() missing 1 "
                  ++ "required positional argument: 'timestamp'"))
              eq_refl eq_refl)
    as (envelope & H & Ht & _ & _ & Hc & Hr).
  exists envelope. split; [ exact H | ]. split; [ exact Ht | ]. split; assumption.
Defined.




(* ================================================================== *)
(** ** Runs over the wire *)
(* ================================================================== *)

(** The health check of the specification, as JSON text in and out. *)
Example health_check_over_the_wire :
  fst (handle_message_json
         (jtext "{'agent_id': 'c1', 'message_type': 'health_check', 'timestamp': 't', 'payload': {}}")
         (fresh_state demo_world))
  = Ok (Wire.dumps
          (JObj [("agent_id", JStr "gmail-agent-001");
                 ("message_type", JStr "health_check_response");
                 ("timestamp", JStr "2024-01-01T00:00:00");
                 ("payload", JObj [("status", JStr "healthy");
                                   ("agent_id", JStr "gmail-agent-001");
                                   ("authenticated", JBool false)]);
                 ("correlation_id", JNull);
                 ("reply_to", JStr "c1")])).
Proof. vm_compute. reflexivity. Qed.

(** The send of [main], with its correlation id, on a working backend. *)
Example send_over_the_wire :
  fst (handle_message_json (serialize demo_send) (fresh_state demo_world))
  = Ok (Wire.dumps
          (JObj [("agent_id", JStr "gmail-agent-001");
                 ("message_type", JStr "email_send_response");
                 ("timestamp", JStr "2024-01-01T00:00:00");
                 ("payload", JObj [("success", JBool true);
                                   ("message_id", JStr "18c0ffee");
                                   ("error", JNull);
                                   ("details", JObj [("thread_id", JStr "18c0ffee")])]);
                 ("correlation_id", JStr "test-001");
                 ("reply_to", JStr "client-agent-001")])).
Proof. vm_compute. reflexivity. Qed.

(** A JSON array is not a mapping of keywords. *)
Example array_is_not_an_envelope :
  fst (handle_message_json (jtext "[1, 2]") (fresh_state demo_world))
  = Ok (Wire.dumps
          (JObj [("agent_id", JStr "gmail-agent-001");
                 ("message_type", JStr "error_response");
                 ("timestamp", JStr "2024-01-01T00:00:00");
                 ("payload",
                  JObj [("error",
                         JStr ("Message handling error: gmail_agent.AgentMessage() argument "
                               ++ "after ** must be a mapping, not list"))]);
                 ("correlation_id", JNull);
                 ("reply_to", JNull)])).
Proof. vm_compute. reflexivity. Qed.

(** The indented text [json.dumps] writes for a small object. *)
Example dumps_layout :
  Wire.dumps (JObj [("a", JArr [JInt 1; JInt (-20)]); ("b", JObj [])])
  = jtext "{
  'a': [
    1,
    -20
  ],
  'b': {}
}".
Proof. vm_compute. reflexivity. Qed.

(* ================================================================== *)
(** ** [authenticate] *)
(* ================================================================== *)

Lemma calls_of_app (a b : list Event) :
  calls_of (a ++ b) = (calls_of a ++ calls_of b)%list.
Proof.
  induction a as [ | [lvl msg | c] a IH ]; cbn; [ reflexivity | exact IH | now rewrite IH ].
Qed.

Lemma backend_calls_calls_of (t : list Event) :
  backend_calls t = map EvCall (calls_of t).
Proof.
  unfold backend_calls. induction t as [ | [lvl msg | c] t IH ]; cbn; [ reflexivity | exact IH | now rewrite IH ].
Qed.

(** Closes a goal [exists d, trace st' = trace st ++ d /\ ...] once the
    final state is explicit. *)
Ltac added :=
  eexists; split;
  [ cbn; rewrite <- ?List.app_assoc; cbn [app];
    first [ reflexivity | symmetry; apply List.app_nil_r ]
  | try reflexivity ].

Section AuthenticateFacts.
Context {P : Platform}.

Lemma renew_credentials_spec (a : GmailAgent) creds (st : State) r st' :
  renew_credentials a creds st = (r, st') ->
  self st' = self st
  /\ exists d, trace st' = (trace st ++ d)%list
               /\ match calls_of d with
                  | [c] => renewal_for creds c && negb (is_ok r)
                  | [c; CallStoreToken] => renewal_for creds c
                  | _ => false
                  end = true.
Proof.
  unfold renew_credentials, bind, observe, call, ret.
  destruct creds as [c | ];
    [ destruct (creds_expired (world st) c && creds_refresh_token c);
      [ destruct (refresh (world st) c) as [[fresh | e] w1]
      | destruct (run_local_server (world st) (credentials_file a) (scopes a))
          as [[fresh | e] w1] ]
    | destruct (run_local_server (world st) (credentials_file a) (scopes a))
        as [[fresh | e] w1] ];
    cbn;
    try (destruct (write_text w1 (token_file a) (to_json fresh)) as [[[] | e] w2]; cbn);
    intros H; inversion H; subst; (split; [ reflexivity | added ]).
Qed.

#[local] Arguments renew_credentials : simpl never.

Lemma obtain_credentials_spec (a : GmailAgent) (st : State) r st' :
  obtain_credentials a st = (r, st') ->
  self st' = self st
  /\ exists d, trace st' = (trace st ++ d)%list
               /\ creds_shape (is_ok r) (calls_of d) = true.
Proof.
  unfold obtain_credentials, bind, observe, call, ret.
  destruct (os_path_exists (world st) (JStr (token_file a))); cbn.
  - destruct (from_authorized_user_file (world st) (token_file a) (scopes a))
      as [c | e]; cbn.
    + destruct (creds_valid (world st) c).
      * intros H; inversion H; subst. split; [ reflexivity | added ].
      * intros H. apply renew_credentials_spec in H.
        destruct H as (Hs & d & Ht & Hd). split; [ exact Hs | ].
        exists (EvCall CallLoadToken :: d). cbn in Ht |- *.
        rewrite Ht, <- List.app_assoc. split; [ reflexivity | ].
        destruct (calls_of d) as [ | [] [ | [] [ | ] ] ];
          try discriminate Hd; destruct r; cbn in *; congruence.
    + intros H; inversion H; subst. split; [ reflexivity | added ].
  - intros H. apply renew_credentials_spec in H.
    destruct H as (Hs & d & Ht & Hd). split; [ exact Hs | ].
    exists d. split; [ exact Ht | ].
    destruct (calls_of d) as [ | [] [ | [] [ | ] ] ];
      try discriminate Hd; destruct r; cbn in *; congruence.
Qed.

#[local] Arguments obtain_credentials : simpl never.

(** Every way [authenticate] can run: it returns a boolean, extends the
    trace, and either sets [service] (true) or leaves the instance alone
    (false). *)
Lemma authenticate_spec (st : State) :
  exists b st' d,
    authenticate st = (Ok b, st')
    /\ trace st' = (trace st ++ d)%list
    /\ auth_shape b (calls_of d) = true
    /\ (b = true -> exists svc,
          self st' = {| self_agent_id := self_agent_id (self st);
                        credentials_file := credentials_file (self st);
                        token_file := token_file (self st);
                        scopes := scopes (self st);
                        service := Some svc |})
    /\ (b = false -> self st' = self st).
Proof.
  unfold authenticate, try_except, bind, get_self. cbn.
  destruct (obtain_credentials (self st) st) as [[creds | e] st1] eqn:E;
    apply obtain_credentials_spec in E; destruct E as (Hs & d & Ht & Hd).
  - unfold call.
    destruct (build (world st1) creds) as [[svc | e] w2]; cbn.
    + eexists true, _, (d ++ [EvCall CallBuild; EvLog INFO _])%list.
      split; [ reflexivity | ]. cbn. rewrite Ht, Hs, <- !List.app_assoc. cbn [app].
      split; [ reflexivity | ]. rewrite calls_of_app. cbn.
      split; [ | split; [ intros _; eexists; reflexivity | discriminate ] ].
      destruct (calls_of d) as [ | [] [ | [] [ | [] [ | ] ] ] ];
        cbn in Hd |- *; congruence.
    + eexists false, _, (d ++ [EvCall CallBuild; EvLog ERROR _])%list.
      split; [ reflexivity | ]. cbn. rewrite Ht, Hs, <- !List.app_assoc. cbn [app].
      split; [ reflexivity | ]. rewrite calls_of_app. cbn.
      split; [ | split; [ discriminate | reflexivity ] ].
      destruct (calls_of d) as [ | [] [ | [] [ | [] [ | ] ] ] ];
        cbn in Hd |- *; try congruence.
  - cbn. eexists false, _, (d ++ [EvLog ERROR _])%list.
    split; [ reflexivity | ]. cbn. rewrite Ht, Hs, <- !List.app_assoc.
    split; [ reflexivity | ]. rewrite calls_of_app. cbn. rewrite List.app_nil_r.
    split; [ | split; [ discriminate | reflexivity ] ].
    destruct (calls_of d) as [ | [] [ | [] [ | [] [ | ] ] ] ];
      cbn in Hd |- *; congruence.
Qed.

End AuthenticateFacts.

(** X1.  [authenticate] never raises: it returns a boolean.  When it
    returns true the session handle [service] is set and nothing else of
    the instance has changed; when it returns false the instance is exactly
    as it was, so a handle set earlier is kept. *)
Theorem authenticate_sets_session {P : Platform} (st : State) :
  exists b st',
    authenticate st = (Ok b, st')
    /\ (b = true -> exists svc, service (self st') = Some svc)
    /\ (b = false -> self st' = self st)
    /\ self_agent_id (self st') = self_agent_id (self st)
    /\ token_file (self st') = token_file (self st)
    /\ credentials_file (self st') = credentials_file (self st)
    /\ scopes (self st') = scopes (self st).
Proof.
  destruct (authenticate_spec st) as (b & st' & d & H & _ & _ & Ht & Hf).
  exists b, st'. split; [ exact H | ].
  destruct b.
  - destruct (Ht eq_refl) as (svc & ->). cbn.
    split; [ intros _; now exists svc | ]. split; [ discriminate | auto ].
  - rewrite (Hf eq_refl). split; [ discriminate | auto ].
Qed.

(** X2.  The backend calls of one [authenticate], in order and with their
    outcomes.  The token file is loaded if it exists.  A renewal is made
    only when no valid credentials were loaded and loading did not raise: a
    refresh of expired credentials that hold a refresh token, the consent
    flow otherwise, never both.  The token file is written only directly
    after a renewal that returned credentials, and with these credentials;
    a renewal that raised ends [authenticate] with false, nothing written
    and [build] not called.  [build] is called last, on the valid loaded
    credentials or on the renewed ones once they are stored, and
    [authenticate] returns whether it succeeded.  No message is sent. *)
Theorem authenticate_call_order {P : Platform} (st : State) :
  exists b st' d,
    authenticate st = (Ok b, st')
    /\ trace st' = (trace st ++ d)%list
    /\ existsb is_send (calls_of d) = false
    /\ List.length (filter is_renewal (calls_of d)) <= 1
    /\ (b = true -> existsb is_build (calls_of d) = true)
    /\ match renewal st with
       | Some (c, (Raise e, w)) =>
           calls_of d = (load_calls st ++ [c])%list
           /\ b = false /\ world st' = w
       | Some (c, (Ok fresh, w)) =>
           match write_text w (token_file (self st)) (to_json fresh) with
           | (Raise e, w') =>
               calls_of d = (load_calls st ++ [c; CallStoreToken])%list
               /\ b = false /\ world st' = w'
           | (Ok _, w') =>
               calls_of d = (load_calls st ++ [c; CallStoreToken; CallBuild])%list
               /\ b = is_ok (fst (build w' fresh))
               /\ world st' = snd (build w' fresh)
           end
       | None =>
           match stored_credentials st with
           | Some (Ok c) =>
               calls_of d = [CallLoadToken; CallBuild]
               /\ b = is_ok (fst (build (world st) c))
               /\ world st' = snd (build (world st) c)
           | _ =>
               calls_of d = load_calls st /\ b = false /\ world st' = world st
           end
       end.
Proof.
  unfold renewal, load_calls, stored_credentials.
  unfold authenticate, obtain_credentials, renew_credentials.
  unfold try_except, bind, get_self, observe, call, ret, set_service, log_info,
    log_error, emit.
  cbn.
  destruct (os_path_exists (world st) (JStr (token_file (self st)))); cbn.
  - destruct (from_authorized_user_file (world st) (token_file (self st))
                (scopes (self st))) as [c | e]; cbn.
    + destruct (creds_valid (world st) c); cbn.
      * destruct (build (world st) c) as [[svc | e] w3]; cbn;
          eexists _, _, _; (split; [ reflexivity | ]); cbn;
          rewrite <- ?List.app_assoc; cbn;
          (split; [ reflexivity | ]); repeat split; auto; discriminate.
      * destruct (creds_expired (world st) c && creds_refresh_token c); cbn;
          [ destruct (refresh (world st) c) as [[fresh | e] w1]
          | destruct (run_local_server (world st) (credentials_file (self st))
                        (scopes (self st))) as [[fresh | e] w1] ];
          cbn;
          try (destruct (write_text w1 (token_file (self st)) (to_json fresh))
                 as [[[] | e] w2]; cbn;
               try (destruct (build w2 fresh) as [[svc | e] w3]; cbn));
          eexists _, _, _; (split; [ reflexivity | ]); cbn;
          rewrite <- ?List.app_assoc; cbn;
          (split; [ reflexivity | ]); repeat split; auto; discriminate.
    + eexists _, _, _. split; [ reflexivity | ].
      cbn. rewrite <- ?List.app_assoc. cbn.
      split; [ reflexivity | ]. repeat split; auto; discriminate.
  - destruct (run_local_server (world st) (credentials_file (self st))
                (scopes (self st))) as [[fresh | e] w1]; cbn;
      try (destruct (write_text w1 (token_file (self st)) (to_json fresh))
             as [[[] | e] w2]; cbn;
           try (destruct (build w2 fresh) as [[svc | e] w3]; cbn));
      eexists _, _, _; (split; [ reflexivity | ]); cbn;
      rewrite <- ?List.app_assoc; cbn;
      (split; [ reflexivity | ]); repeat split; auto; discriminate.
Qed.

(** X3.  With a token file whose credentials load and are valid,
    [authenticate] loads them and calls [build], nothing else: no refresh,
    no consent flow, and the token file is not rewritten.  It returns
    whether [build] succeeded, and the handle [build] returned becomes
    [service]. *)
Theorem authenticate_uses_cached_token {P : Platform} (st : State) creds :
  os_path_exists (world st) (JStr (token_file (self st))) = true ->
  from_authorized_user_file (world st) (token_file (self st)) (scopes (self st))
    = Ok creds ->
  creds_valid (world st) creds = true ->
  exists b st' d,
    authenticate st = (Ok b, st')
    /\ trace st' = (trace st ++ d)%list
    /\ calls_of d = [CallLoadToken; CallBuild]
    /\ world st' = snd (build (world st) creds)
    /\ (forall svc, fst (build (world st) creds) = Ok svc ->
                    b = true /\ service (self st') = Some svc)
    /\ (forall e, fst (build (world st) creds) = Raise e ->
                  b = false /\ self st' = self st).
Proof.
  intros Hex Hload Hvalid.
  unfold authenticate, obtain_credentials.
  unfold try_except, bind, get_self, observe, call, ret. cbn.
  rewrite Hex. cbn. rewrite Hload. cbn. rewrite Hvalid. cbn.
  destruct (build (world st) creds) as [[svc | e] w']; cbn;
    eexists _, _, _; (split; [ reflexivity | ]); cbn;
    rewrite <- !List.app_assoc; cbn [app];
    (split; [ reflexivity | ]); (split; [ reflexivity | ]);
    (split; [ reflexivity | ]);
    split; intros ? E; inversion E; subst; auto.
Qed.

(** X4.  Without a token file [authenticate] runs the consent flow.  When
    the flow hands out credentials they are written to the token file, as
    [creds.to_json()], before [build] is called on them; when the flow
    fails, nothing is written, [build] is not called, and [authenticate]
    returns false with the instance unchanged. *)
Theorem authenticate_first_run {P : Platform} (st : State) :
  os_path_exists (world st) (JStr (token_file (self st))) = false ->
  (forall creds w1 w2 svc w3,
     run_local_server (world st) (credentials_file (self st)) (scopes (self st))
       = (Ok creds, w1) ->
     write_text w1 (token_file (self st)) (to_json creds) = (Ok tt, w2) ->
     build w2 creds = (Ok svc, w3) ->
     exists st' d,
       authenticate st = (Ok true, st')
       /\ trace st' = (trace st ++ d)%list
       /\ calls_of d = [CallConsentFlow; CallStoreToken; CallBuild]
       /\ world st' = w3
       /\ service (self st') = Some svc)
  /\ (forall e w1,
        run_local_server (world st) (credentials_file (self st)) (scopes (self st))
          = (Raise e, w1) ->
        exists st' d,
          authenticate st = (Ok false, st')
          /\ trace st' = (trace st ++ d)%list
          /\ calls_of d = [CallConsentFlow]
          /\ world st' = w1
          /\ self st' = self st).
Proof.
  intros Hex. split.
  - intros creds w1 w2 svc w3 Hflow Hwrite Hbuild.
    unfold authenticate, obtain_credentials, renew_credentials.
    unfold try_except, bind, get_self, observe, call, ret. cbn.
    rewrite Hex. cbn. rewrite Hflow. cbn. rewrite Hwrite. cbn. rewrite Hbuild. cbn.
    eexists _, _. split; [ reflexivity | ]. cbn.
    rewrite <- !List.app_assoc. cbn [app]. repeat split.
  - intros e w1 Hflow.
    unfold authenticate, obtain_credentials, renew_credentials.
    unfold try_except, bind, get_self, observe, call, ret. cbn.
    rewrite Hex. cbn. rewrite Hflow. cbn.
    eexists _, _. split; [ reflexivity | ]. cbn.
    rewrite <- !List.app_assoc. cbn [app]. repeat split.
Qed.

(* ================================================================== *)
(** ** [create_message] and [send_email], call by call *)
(* ================================================================== *)

Section SendEmailFacts.
Context {P : Platform}.

Lemma create_message_run (req : EmailRequest) (st : State) :
  create_message req st
  = match rbind (build_message (world st) req) raw_bytes with
    | Ok raw => (Ok (Some [("raw", JStr raw)]), st)
    | Raise e =>
        (Ok None,
         {| self := self st; world := world st;
            trace := (trace st ++
                      [EvLog ERROR ("Failed to create message: " ++ exc_str e)])%list |})
    end.
Proof.
  unfold create_message, try_except, bind, observe, lift, ret, log_error, emit.
  destruct (build_message (world st) req) as [msg | e]; cbn; [ | reflexivity ].
  destruct (raw_bytes msg); reflexivity.
Qed.

(** With a session handle, [send_email] does not authenticate: it builds
    the message and, if that works, makes the one call to the mail API. *)
Lemma send_email_with_session (req : EmailRequest) (st : State) svc :
  service (self st) = Some svc ->
  exists r st' d,
    send_email req st = (Ok r, st')
    /\ trace st' = (trace st ++ d)%list
    /\ self st' = self st
    /\ ((exists e, rbind (build_message (world st) req) raw_bytes = Raise e
                   /\ r = creation_failed /\ calls_of d = []
                   /\ world st' = world st)
        \/ (exists raw, rbind (build_message (world st) req) raw_bytes = Ok raw
                        /\ r = send_outcome
                                 (fst (execute_send (world st) svc [("raw", JStr raw)]))
                        /\ calls_of d = [CallSend [("raw", JStr raw)]]
                        /\ world st'
                           = snd (execute_send (world st) svc [("raw", JStr raw)]))).
Proof.
  intros Hs.
  unfold send_email, try_except, bind, get_self. cbn. rewrite Hs. cbn.
  rewrite create_message_run.
  destruct (rbind (build_message (world st) req) raw_bytes) as [raw | e] eqn:E.
  - cbn. rewrite Hs. unfold call.
    destruct (execute_send (world st) svc [("raw", JStr raw)]) as [[res | e] w']
      eqn:Es; cbn.
    + unfold lift, getitem.
      destruct (dict_get res "id") as [id | ] eqn:Eid; cbn;
        eexists _, _, _; (split; [ reflexivity | ]); cbn;
        rewrite <- ?List.app_assoc; cbn [app];
        (split; [ reflexivity | ]); (split; [ reflexivity | ]);
        right; exists raw; rewrite Es; cbn; rewrite Eid; repeat split.
    + destruct (is_HttpError e) eqn:Eh; cbn;
        eexists _, _, _; (split; [ reflexivity | ]); cbn;
        rewrite <- ?List.app_assoc; cbn [app];
        (split; [ reflexivity | ]); (split; [ reflexivity | ]);
        right; exists raw; rewrite Es; cbn; rewrite Eh; repeat split.
  - cbn. eexists _, _, _. split; [ reflexivity | ]. cbn.
    split; [ reflexivity | ]. split; [ reflexivity | ].
    left. exists e. repeat split.
Qed.

(** Without a session handle, [send_email] is [authenticate] followed by
    the [send_email] of an agent that has one, or the failure response. *)
Lemma send_email_without_session (req : EmailRequest) (st : State) :
  service (self st) = None ->
  forall b st1,
    authenticate st = (Ok b, st1) ->
    send_email req st
    = if b then send_email req st1 else (Ok authentication_failed, st1).
Proof.
  intros Hs b st1 Ha.
  destruct (authenticate_spec st) as (b' & st1' & d & Ha' & _ & _ & Ht & _).
  rewrite Ha in Ha'. inversion Ha'. subst b' st1'. clear Ha'.
  unfold send_email at 1. unfold try_except, bind at 1 2, get_self. cbn.
  rewrite Hs, Ha. destruct b; [ | reflexivity ].
  destruct (Ht eq_refl) as (svc & Hself).
  unfold send_email, try_except, bind at 2 3, get_self. cbn.
  rewrite Hself. cbn. reflexivity.
Qed.

End SendEmailFacts.

(* ================================================================== *)
(** ** Sessions and backend calls across [process_agent_message] *)
(* ================================================================== *)

Section ProcessingFacts.
Context {P : Platform}.

(** [process_agent_message] in one equation: the outcome of the [try]
    block, the log line of the [except] clause, the assembled response. *)
Lemma process_agent_message_run (m : AgentMessage) (st : State) :
  process_agent_message m st
  = match dispatch m (entered m st) with
    | (Ok r, st1) =>
        (Ok (respond (self st1) (utcnow_isoformat (world st1)) m (fst r) (snd r)),
         st1)
    | (Raise e, st1) =>
        (Ok (respond (self st1) (utcnow_isoformat (world st1)) m "error_response"
               [("error", JStr ("Processing error: " ++ exc_str e))]),
         logged ERROR ("Error processing message: " ++ exc_str e) st1)
    end.
Proof.
  unfold process_agent_message, bind, log_info, log_error, emit, try_except,
    get_self, observe, ret.
  fold (entered m st).
  destruct (dispatch m (entered m st)) as [[r | e] st1]; reflexivity.
Qed.

Lemma auth_shape_no_send (b : bool) (l : list Call) :
  auth_shape b l = true -> filter is_send l = [].
Proof.
  destruct l as [ | [] [ | [] [ | [] [ | [] [ | ] ] ] ] ];
    cbn; intros H; try discriminate H; reflexivity.
Qed.

(** Every way [send_email] can run. *)
Lemma send_email_spec (req : EmailRequest) (st : State) :
  exists r st' d,
    send_email req st = (Ok r, st')
    /\ trace st' = (trace st ++ d)%list
    /\ (forall svc, service (self st) = Some svc -> self st' = self st)
    /\ ((r = authentication_failed /\ filter is_send (calls_of d) = []
         /\ service (self st) = None /\ self st' = self st)
        \/ (r = creation_failed /\ filter is_send (calls_of d) = [])
        \/ (exists svc raw o,
              service (self st') = Some svc
              /\ r = send_outcome o
              /\ filter is_send (calls_of d) = [CallSend [("raw", JStr raw)]])).
Proof.
  assert (Hwith : forall st0 svc, service (self st0) = Some svc ->
            exists r st' d,
              send_email req st0 = (Ok r, st')
              /\ trace st' = (trace st0 ++ d)%list
              /\ self st' = self st0
              /\ ((r = creation_failed /\ filter is_send (calls_of d) = [])
                  \/ (exists raw o,
                        r = send_outcome o
                        /\ filter is_send (calls_of d)
                           = [CallSend [("raw", JStr raw)]]))).
  { intros st0 svc Hs.
    destruct (send_email_with_session req st0 svc Hs)
      as (r & st' & d & H & Ht & Hself & [ (e & _ & -> & Hc & _)
                                         | (raw & _ & -> & Hc & _) ]).
    - exists creation_failed, st', d. repeat split; auto. left. now rewrite Hc.
    - eexists _, st', d. repeat split; eauto. right. exists raw. eexists.
      split; [ reflexivity | now rewrite Hc ]. }
  destruct (service (self st)) as [svc | ] eqn:Hs.
  - destruct (Hwith st svc Hs) as (r & st' & d & H & Ht & Hself & Hcase).
    exists r, st', d. split; [ exact H | ]. split; [ exact Ht | ].
    split; [ auto | ]. right.
    destruct Hcase as [ (-> & Hc) | (raw & o & -> & Hc) ]; [ now left | right ].
    exists svc, raw, o. rewrite Hself. auto.
  - destruct (authenticate_spec st) as (b & st1 & d1 & Ha & Ht1 & Hshape & Htrue & Hfalse).
    rewrite (send_email_without_session req st Hs b st1 Ha).
    destruct b.
    + destruct (Htrue eq_refl) as (svc & Hself1).
      assert (Hs1 : service (self st1) = Some svc) by now rewrite Hself1.
      destruct (Hwith st1 svc Hs1) as (r & st' & d & H & Ht & Hself & Hcase).
      exists r, st', (d1 ++ d)%list. split; [ exact H | ].
      split; [ now rewrite Ht, Ht1, List.app_assoc | ].
      split; [ discriminate | ]. right.
      rewrite calls_of_app, filter_app, (auth_shape_no_send _ _ Hshape). cbn [app].
      destruct Hcase as [ (-> & Hc) | (raw & o & -> & Hc) ]; [ now left | right ].
      exists svc, raw, o. rewrite Hself. auto.
    + exists authentication_failed, st1, d1. split; [ reflexivity | ].
      split; [ exact Ht1 | ]. split; [ discriminate | ]. left.
      rewrite (auth_shape_no_send _ _ Hshape). rewrite (Hfalse eq_refl). auto.
Qed.

End ProcessingFacts.

(* ================================================================== *)
(** ** Lazy authentication, one send, lasting sessions *)
(* ================================================================== *)

Section SessionLemmas.
Context {P : Platform}.

Lemma JStr_eq_dec (v : json) (s : string) : {v = JStr s} + {v <> JStr s}.
Proof.
  destruct (eq_str v s) eqn:E.
  - left. now apply eq_str_true.
  - right. now apply eq_str_false.
Qed.

Lemma dispatch_other (m : AgentMessage) (st : State) :
  message_type m <> JStr "email_send_request" ->
  exists r, dispatch m st = (Ok r, st).
Proof.
  intros H. apply eq_str_false in H. unfold dispatch. rewrite H.
  destruct (eq_str (message_type m) "health_check");
    [ | destruct (eq_str (message_type m) "capability_inquiry") ];
    eexists; reflexivity.
Qed.

Lemma dispatch_send (m : AgentMessage) (st : State) req :
  message_type m = JStr "email_send_request" ->
  EmailRequest_of (payload m) = Ok req ->
  forall r st', send_email req st = (Ok r, st') ->
                dispatch m st = (Ok ("email_send_response", asdict_response r), st').
Proof.
  intros H E r st' Hs. unfold dispatch. rewrite H. cbn.
  unfold bind, lift. rewrite E, Hs. reflexivity.
Qed.

Lemma not_a_string_fails (req : EmailRequest) :
  (forall s, body req <> JStr s) ->
  exists e, message_with_headers req = Raise e.
Proof.
  intros Hb. unfold message_with_headers.
  assert (Hn : forall st, exists e, new_MIMEText (body req) st = Raise e).
  { intros st. unfold new_MIMEText. destruct (body req); try (eexists; reflexivity).
    exfalso. exact (Hb s eq_refl). }
  destruct (Hn "plain") as (e & He). rewrite He.
  destruct (truthy (html_body req)); exists e; reflexivity.
Qed.

Lemma send_outcome_error (o : Result pydict) :
  error (send_outcome o) <> JStr "Authentication failed"
  /\ error (send_outcome o) <> JStr "Failed to create email message".
Proof.
  destruct o as [res | e]; cbn.
  - destruct (dict_get res "id"); cbn; split; discriminate.
  - destruct (is_HttpError e); cbn; split; discriminate.
Qed.

End SessionLemmas.

(** X5.  [send_email] authenticates lazily.  Without a session handle it
    is [authenticate] followed by the [send_email] of the authenticated
    agent, or, when [authenticate] returns false, the response
    ["Authentication failed"] with nothing further done.  With a session
    handle it does not authenticate: the instance is unchanged and the only
    backend call it can make is the one send. *)
Theorem send_email_authenticates_lazily
  {P : Platform} (req : EmailRequest) (st : State) :
  (service (self st) = None ->
   forall b st1,
     authenticate st = (Ok b, st1) ->
     send_email req st
     = if b then send_email req st1 else (Ok authentication_failed, st1))
  /\ (forall svc,
        service (self st) = Some svc ->
        exists r st' d,
          send_email req st = (Ok r, st')
          /\ trace st' = (trace st ++ d)%list
          /\ self st' = self st
          /\ (calls_of d = [] \/ exists body, calls_of d = [CallSend body])).
Proof.
  split.
  - intros Hs b st1 Ha. exact (send_email_without_session req st Hs b st1 Ha).
  - intros svc Hs.
    destruct (send_email_with_session req st svc Hs)
      as (r & st' & d & H & Ht & Hself & [ (e & _ & _ & Hc & _)
                                         | (raw & _ & _ & Hc & _) ]);
      exists r, st', d; repeat split; auto.
    right. eexists. exact Hc.
Qed.

(** X6.  What an authenticated [send_email] reports.  When the message is
    built, it makes one call to the mail API with the body [raw: <message>]
    and answers with what the call did: the [id] and [threadId] of the
    result with [success] true (a missing [threadId] becomes [None]); a
    result without [id] is reported as the failure
    ["Unexpected error: 'id'"] although the call was made; an exception is
    reported with its text.  When the message cannot be built, no call is
    made, the world is untouched and the answer is
    ["Failed to create email message"]. *)
Theorem send_email_reports_backend_result
  {P : Platform} (req : EmailRequest) (st : State) svc :
  service (self st) = Some svc ->
  (forall raw,
     rbind (build_message (world st) req) raw_bytes = Ok raw ->
     exists st' d,
       send_email req st
       = (Ok (send_outcome (fst (execute_send (world st) svc [("raw", JStr raw)]))),
          st')
       /\ trace st' = (trace st ++ d)%list
       /\ calls_of d = [CallSend [("raw", JStr raw)]]
       /\ world st' = snd (execute_send (world st) svc [("raw", JStr raw)]))
  /\ (forall e,
        rbind (build_message (world st) req) raw_bytes = Raise e ->
        exists st' d,
          send_email req st = (Ok creation_failed, st')
          /\ trace st' = (trace st ++ d)%list
          /\ calls_of d = []
          /\ world st' = world st)
  /\ (forall res, dict_get res "id" = None ->
                  send_outcome (Ok res)
                  = {| success := false; message_id := JNull;
                       error := JStr "Unexpected error: 'id'"; details := JNull |})
  /\ (forall res id, dict_get res "id" = Some id -> dict_get res "threadId" = None ->
                     send_outcome (Ok res)
                     = {| success := true; message_id := id; error := JNull;
                          details := JObj [("thread_id", JNull)] |}).
Proof.
  intros Hs.
  destruct (send_email_with_session req st svc Hs)
    as (r & st' & d & H & Ht & Hself & Hcase).
  split; [ | split; [ | split ] ].
  - intros raw Hraw.
    destruct Hcase as [ (e & He & _) | (raw' & Hraw' & -> & Hc & Hw) ];
      [ congruence | ].
    assert (raw' = raw) by congruence. subst raw'.
    exists st', d. auto.
  - intros e He.
    destruct Hcase as [ (e' & _ & -> & Hc & Hw) | (raw & Hraw & _) ];
      [ | congruence ].
    exists st', d. auto.
  - intros res Hid. cbn. now rewrite Hid.
  - intros res id Hid Hth. cbn. rewrite Hid. unfold dict_get_or_none. now rewrite Hth.
Qed.

(** X7.  One [send_email] makes at most one call to the mail API, whether
    it had to authenticate first or not.  It makes exactly one when it
    reports success, and then the agent holds a session handle; it makes
    none when it reports ["Authentication failed"] or
    ["Failed to create email message"]. *)
Theorem send_email_sends_at_most_once
  {P : Platform} (req : EmailRequest) (st : State) :
  exists r st' d,
    send_email req st = (Ok r, st')
    /\ trace st' = (trace st ++ d)%list
    /\ List.length (filter is_send (calls_of d)) <= 1
    /\ (success r = true ->
        List.length (filter is_send (calls_of d)) = 1
        /\ exists svc, service (self st') = Some svc)
    /\ (error r = JStr "Authentication failed"
        \/ error r = JStr "Failed to create email message" ->
        filter is_send (calls_of d) = []).
Proof.
  destruct (send_email_spec req st)
    as (r & st' & d & H & Ht & _ & [ (-> & Hc & _)
                                   | [ (-> & Hc) | (svc & raw & o & Hs & -> & Hc) ] ]);
    eexists _, st', d; (split; [ exact H | ]); (split; [ exact Ht | ]);
    rewrite Hc; cbn [List.length].
  - split; [ lia | ]. split; [ discriminate | reflexivity ].
  - split; [ lia | ]. split; [ discriminate | reflexivity ].
  - split; [ lia | ]. split; [ intros _; split; [ reflexivity | now exists svc ] | ].
    destruct (send_outcome_error o) as (H1 & H2). intros [E | E]; contradiction.
Qed.

(* ================================================================== *)
(** ** Failures of the backend and the response invariant *)
(* ================================================================== *)

Section BackendFailures.
Context {P : Platform}.

#[local] Arguments obtain_credentials : simpl never.

(** [authenticate] returns false only through its [except] clause, which
    logs the text of the exception. *)



(** What [success] says about the other fields, whatever the backend. *)
Lemma send_email_fields (req : EmailRequest) (st : State) r st' :
  send_email req st = (Ok r, st') ->
  (success r = false -> present (error r) /\ absent (message_id r))
  /\ (success r = true ->
      absent (error r)
      /\ exists svc w body res w',
           execute_send w svc body = (Ok res, w')
           /\ dict_get res "id" = Some (message_id r)).
Proof.
  assert (Hfail : forall text r0,
             r0 = {| success := false; message_id := JNull; error := JStr text;
                     details := JNull |} ->
             (success r0 = false -> present (error r0) /\ absent (message_id r0))
             /\ (success r0 = true ->
                 absent (error r0)
                 /\ exists svc w body res w',
                      execute_send w svc body = (Ok res, w')
                      /\ dict_get res "id" = Some (message_id r0))).
  { intros text r0 ->. cbn. split; [ intros _ | discriminate ].
    split; [ unfold present; discriminate | reflexivity ]. }
  unfold send_email, try_except.
  match goal with |- context [match ?b st with _ => _ end] =>
    destruct (b st) as [[r0 | e] st1] eqn:E end.
  - intros H. inversion H. subst r0 st1. clear H.
    revert E. unfold bind, get_self. cbn.
    destruct (match service (self st) with
              | Some _ => ret true
              | None => authenticate
              end st) as [[ok | e] st2] eqn:Ea; [ | discriminate ].
    destruct ok; cbn.
    + destruct (create_message req st2) as [[[msg | ] | e] st3] eqn:Ec;
        [ | | discriminate ].
      * destruct (service (self st3)) as [svc | ]; [ | discriminate ].
        unfold call.
        destruct (execute_send (world st3) svc msg) as [[res | e] w'] eqn:Es;
          [ | discriminate ].
        unfold lift, getitem.
        destruct (dict_get res "id") as [id | ] eqn:Eid; [ | discriminate ].
        cbn. intros H. inversion H. subst. clear H. cbn.
        split; [ discriminate | ]. intros _. split; [ reflexivity | ].
        exists svc, (world st3), msg, res, w'. auto.
      * cbn. intros H. inversion H. now apply (Hfail "Failed to create email message").
    + intros H. inversion H. now apply (Hfail "Authentication failed").
  - destruct (is_HttpError e); cbn; intros H; inversion H;
      eapply Hfail; reflexivity.
Qed.

Lemma fields_give_invariant (r : EmailResponse) :
  (success r = false -> present (error r) /\ absent (message_id r)) ->
  (success r = true -> absent (error r)) ->
  present (message_id r) \/ success r = false ->
  EmailResponse_invariant r.
Proof.
  intros Hf Ht Hcase. split.
  - intros Hs. split; [ | exact (Ht Hs) ].
    destruct Hcase as [Hp | Hfalse]; [ exact Hp | congruence ].
  - intros Hs. exact (proj1 (Hf Hs)).
Qed.

End BackendFailures.


(** C3, as the code has it.  Every [EmailResponse] that [send_email]
    returns (and it always returns one) has an [error] and no [message_id]
    when [success] is false, and no [error] when [success] is true.  On
    success [message_id] is the value the result of the mail API holds under
    [id], copied unchecked: the invariant holds for every response but a
    success whose [id] is [None], and so for all responses of a backend
    that never hands back [None] as an id.  An [email_send_request] whose
    payload builds an [EmailRequest] is answered by an
    [email_send_response] whose payload is such a response. *)
Theorem send_email_keeps_invariant {P : Platform} :
  (forall req st,
     exists r st',
       send_email req st = (Ok r, st')
       /\ (success r = false -> present (error r) /\ absent (message_id r))
       /\ (success r = true ->
           absent (error r)
           /\ exists svc w body res w',
                execute_send w svc body = (Ok res, w')
                /\ dict_get res "id" = Some (message_id r))
       /\ (present (message_id r) \/ success r = false -> EmailResponse_invariant r))
  /\ (forall m st req,
        message_type m = JStr "email_send_request" ->
        EmailRequest_of (payload m) = Ok req ->
        exists resp st' r,
          process_agent_message m st = (Ok resp, st')
          /\ message_type resp = JStr "email_send_response"
          /\ payload resp = JObj (asdict_response r)
          /\ (success r = false -> present (error r) /\ absent (message_id r))
          /\ (success r = true -> absent (error r))
          /\ (present (message_id r) \/ success r = false ->
              EmailResponse_invariant r))
  /\ (backend_ids_present ->
      forall req st r st',
        send_email req st = (Ok r, st') -> EmailResponse_invariant r).
Proof.
  split; [ | split ].
  - intros req st. destruct (send_email_returns req st) as (r & st' & H).
    destruct (send_email_fields req st r st' H) as (Hf & Ht).
    exists r, st'. split; [ exact H | ]. split; [ exact Hf | ]. split; [ exact Ht | ].
    apply fields_give_invariant; [ exact Hf | ]. intros Hs. exact (proj1 (Ht Hs)).
  - intros m st req H E.
    destruct (send_email_returns req (entered m st)) as (r & st' & Hs).
    destruct (send_email_fields req (entered m st) r st' Hs) as (Hf & Ht).
    rewrite process_agent_message_run.
    rewrite (dispatch_send m (entered m st) req H E r st' Hs).
    eexists _, st', r. split; [ reflexivity | ].
    split; [ reflexivity | ]. split; [ reflexivity | ]. split; [ exact Hf | ].
    split; [ intros Hs'; exact (proj1 (Ht Hs')) | ].
    apply fields_give_invariant; [ exact Hf | ]. intros Hs'. exact (proj1 (Ht Hs')).
  - intros Hid req st r st' H. exact (send_email_invariant req st r st' Hid H).
Qed.

(** X8.  A session handle is never dropped: whatever message an agent
    that holds one processes, it returns a response and the instance is
    afterwards exactly as before, with the same handle. *)
Theorem session_survives_processing
  {P : Platform} (m : AgentMessage) (st : State) svc :
  service (self st) = Some svc ->
  exists resp st',
    process_agent_message m st = (Ok resp, st')
    /\ self st' = self st
    /\ service (self st') = Some svc.
Proof.
  intros Hs. rewrite process_agent_message_run.
  assert (Hd : forall r st1, dispatch m (entered m st) = (r, st1) -> self st1 = self st).
  { intros r st1. unfold dispatch.
    destruct (eq_str (message_type m) "email_send_request").
    - unfold bind, lift.
      destruct (EmailRequest_of (payload m)) as [req | e]; cbn.
      + destruct (send_email_spec req (entered m st))
          as (r0 & st' & d & H & _ & Hself & _).
        rewrite H. cbn. intros E. inversion E. subst. exact (Hself svc Hs).
      + intros E. inversion E. reflexivity.
    - destruct (eq_str (message_type m) "health_check");
        [ | destruct (eq_str (message_type m) "capability_inquiry") ];
        cbn; intros E; inversion E; reflexivity. }
  destruct (dispatch m (entered m st)) as [[r | e] st1];
    eexists _, _; (split; [ reflexivity | ]); cbn;
    rewrite (Hd _ _ eq_refl); auto.
Qed.

(** X9.  Only an [email_send_request] whose payload builds an
    [EmailRequest] can reach the backend.  Every other message (another
    type, or a payload that does not coerce) is answered without any
    backend call, and the instance and the world are left as they were:
    the trace gains log lines only. *)
Theorem only_send_requests_reach_backend
  {P : Platform} (m : AgentMessage) (st : State) :
  message_type m <> JStr "email_send_request"
  \/ (exists e, EmailRequest_of (payload m) = Raise e) ->
  exists resp st' d,
    process_agent_message m st = (Ok resp, st')
    /\ trace st' = (trace st ++ d)%list
    /\ calls_of d = []
    /\ self st' = self st
    /\ world st' = world st.
Proof.
  intros Hcase. rewrite process_agent_message_run.
  destruct (JStr_eq_dec (message_type m) "email_send_request") as [Ht | Ht].
  - destruct Hcase as [Hn | (e & He)]; [ contradiction | ].
    rewrite (dispatch_bad_payload m (entered m st) e Ht He).
    eexists _, _, _. split; [ reflexivity | ]. cbn.
    rewrite <- List.app_assoc. cbn [app]. repeat split.
  - destruct (dispatch_other m (entered m st) Ht) as (r & ->).
    eexists _, _, _. split; [ reflexivity | ]. cbn. repeat split.
Qed.

(** X10.  The health check tells what the last send did to the session.
    After a send answered with [success] true, a health check reports
    [authenticated] true; after a send answered with
    ["Authentication failed"], it reports [authenticated] false. *)
Theorem health_check_follows_send
  {P : Platform} (m1 m2 : AgentMessage) (st st1 : State) r1 p :
  message_type m1 = JStr "email_send_request" ->
  message_type m2 = JStr "health_check" ->
  process_agent_message m1 st = (Ok r1, st1) ->
  payload r1 = JObj p ->
  (dict_get p "success" = Some (JBool true) ->
   exists r2 st2,
     process_agent_message m2 st1 = (Ok r2, st2)
     /\ payload r2 = JObj [("status", JStr "healthy");
                           ("agent_id", JStr (self_agent_id (self st)));
                           ("authenticated", JBool true)])
  /\ (dict_get p "error" = Some (JStr "Authentication failed") ->
      exists r2 st2,
        process_agent_message m2 st1 = (Ok r2, st2)
        /\ payload r2 = JObj [("status", JStr "healthy");
                              ("agent_id", JStr (self_agent_id (self st)));
                              ("authenticated", JBool false)]).
Proof.
  intros Ht1 Ht2 Hrun Hp.
  assert (Hid : self_agent_id (self st1) = self_agent_id (self st))
    by exact (keeps_id_process m1 _ _ _ Hrun).
  assert (Hhealth : forall b,
             (match service (self st1) with Some _ => true | None => false end) = b ->
             exists r2 st2,
               process_agent_message m2 st1 = (Ok r2, st2)
               /\ payload r2 = JObj [("status", JStr "healthy");
                                     ("agent_id", JStr (self_agent_id (self st)));
                                     ("authenticated", JBool b)]).
  { intros b Hb. rewrite process_agent_message_run.
    rewrite (dispatch_health_check m2 (entered m2 st1) Ht2). cbn.
    rewrite Hb, Hid. eexists _, _. split; reflexivity. }
  rewrite process_agent_message_run in Hrun.
  destruct (EmailRequest_of (payload m1)) as [req | e] eqn:Ereq.
  - destruct (send_email_spec req (entered m1 st))
      as (r & st' & d & Hsend & _ & _ & Hcase).
    rewrite (dispatch_send m1 (entered m1 st) req Ht1 Ereq r st' Hsend) in Hrun.
    inversion Hrun. subst r1 st1. cbn in Hp. inversion Hp. subst p. clear Hp Hrun.
    cbn [dict_get asdict_response String.eqb Ascii.eqb Bool.eqb].
    destruct Hcase as [ (-> & _ & Hnone & Hself)
                      | [ (-> & _) | (svc & raw & o & Hs & -> & _) ] ].
    + split; [ discriminate | ]. intros _. apply Hhealth.
      now rewrite Hself, Hnone.
    + split; discriminate.
    + split.
      * intros _. apply Hhealth. now rewrite Hs.
      * intros E. destruct (send_outcome_error o) as (H1 & _).
        exfalso. apply H1. congruence.
  - rewrite (dispatch_bad_payload m1 (entered m1 st) e Ht1 Ereq) in Hrun.
    inversion Hrun. subst r1 st1. cbn in Hp. inversion Hp. subst p.
    split; discriminate.
Qed.

(** X11.  A payload value of the wrong type is not a coercion error.  An
    [email_send_request] whose payload has the required keys but a [body]
    that is not a string builds an [EmailRequest]; the authenticated agent
    then fails to build the message, makes no call to the mail API, and
    answers with an [email_send_response] (not an [error_response]) whose
    payload is the failure ["Failed to create email message"]. *)
Theorem wrong_type_fails_at_message_creation
  {P : Platform} (m : AgentMessage) (st : State) req svc :
  message_type m = JStr "email_send_request" ->
  EmailRequest_of (payload m) = Ok req ->
  (forall s, body req <> JStr s) ->
  service (self st) = Some svc ->
  exists resp st' d,
    process_agent_message m st = (Ok resp, st')
    /\ message_type resp = JStr "email_send_response"
    /\ payload resp = JObj (asdict_response creation_failed)
    /\ trace st' = (trace st ++ d)%list
    /\ calls_of d = []
    /\ world st' = world st.
Proof.
  intros Ht Ereq Hbody Hs.
  destruct (not_a_string_fails req Hbody) as (e & He).
  assert (Hb : rbind (build_message (world (entered m st)) req) raw_bytes = Raise e).
  { unfold build_message. rewrite He. reflexivity. }
  destruct (send_email_with_session req (entered m st) svc Hs)
    as (r & st' & d & Hsend & Htr & _ & [ (e' & _ & -> & Hc & Hw)
                                        | (raw & Hraw & _) ]);
    [ | congruence ].
  rewrite process_agent_message_run.
  rewrite (dispatch_send m (entered m st) req Ht Ereq _ _ Hsend).
  eexists _, st', (_ :: d). split; [ reflexivity | ]. cbn.
  split; [ reflexivity | ]. split; [ reflexivity | ].
  rewrite Htr. cbn. rewrite <- List.app_assoc. cbn [app].
  split; [ reflexivity | ]. split; [ exact Hc | exact Hw ].
Qed.

(* ================================================================== *)
(** ** Failures at work on the concrete platform *)
(* ================================================================== *)

(** C3 at work: the send of the demonstration, on a backend that hands
    out an id. *)
Lemma send_email_keeps_invariant_witness :
  exists resp st' r,
    process_agent_message demo_send (fresh_state demo_world) = (Ok resp, st')
    /\ message_type resp = JStr "email_send_response"
    /\ payload resp = JObj (asdict_response r)
    /\ message_id r = JStr "18c0ffee"
    /\ EmailResponse_invariant r.
Proof.
  destruct (proj1 (proj2 (send_email_keeps_invariant (P:=demo_platform)))
              demo_send (fresh_state demo_world) demo_request eq_refl eq_refl)
    as (resp & st' & r & H & Ht & Hp & _ & _ & Hinv).
  assert (Hid : message_id r = JStr "18c0ffee").
  { vm_compute in H. injection H as <- _. vm_compute in Hp.
    destruct r as [s mid e d]. cbn in Hp. injection Hp as _ <- _ _. reflexivity. }
  exists resp, st', r. split; [ exact H | ]. split; [ exact Ht | ].
  split; [ exact Hp | ]. split; [ exact Hid | ].
  apply Hinv. left. rewrite Hid. discriminate.
Defined.

(** C3 as stated fails: the id of the result is copied unchecked.  With a
    mail API whose result holds [None] under [id], [send_email] reports
    success with no [message_id], and the answer to the request carries
    that response. *)
Lemma null_id_breaks_invariant :
  (exists r st',
     send_email (P:=null_id_platform) demo_request null_id_state = (Ok r, st')
     /\ success r = true
     /\ message_id r = JNull
     /\ ~ EmailResponse_invariant r)
  /\ (exists resp st',
        process_agent_message (P:=null_id_platform) demo_send null_id_state
        = (Ok resp, st')
        /\ message_type resp = JStr "email_send_response"
        /\ payload resp
           = JObj [("success", JBool true); ("message_id", JNull);
                   ("error", JNull);
                   ("details", JObj [("thread_id", JStr "18c0ffee")])]).
Proof.
  split.
  - eexists _, _. split; [ vm_compute; reflexivity | ].
    cbn. split; [ reflexivity | ]. split; [ reflexivity | ].
    intros (H & _). destruct (H eq_refl) as (Hp & _). now apply Hp.
  - eexists _, _. split; [ vm_compute; reflexivity | ]. split; reflexivity.
Qed.



(* ================================================================== *)
(** ** The dataclasses *)
(* ================================================================== *)

Lemma is_field_In (fs : list field_spec) (k : string) :
  is_field fs k = true <-> In k (field_names fs).
Proof.
  unfold is_field, field_names. rewrite existsb_exists. split.
  - intros ([n d] & Hin & Heq). cbn in Heq. apply String.eqb_eq in Heq. subst.
    apply in_map_iff. exists (k, d). auto.
  - intros Hin. apply in_map_iff in Hin. destruct Hin as ([n d] & <- & Hin).
    exists (n, d). split; [ exact Hin | apply String.eqb_refl ].
Qed.

Lemma bind_keywords_iff (cls : string) (fs : list field_spec) (v : json) (kw : pydict) :
  bind_keywords cls fs v = Ok kw
  <-> v = JObj kw
      /\ (forall k, In k (dict_keys kw) -> In k (field_names fs))
      /\ (forall k, In k (required_fields fs) -> dict_has kw k = true).
Proof.
  unfold bind_keywords. split.
  - destruct v as [ | | | | | kw' | ]; try discriminate.
    destruct (unexpected_keyword fs kw') as [k | ] eqn:Eu; [ discriminate | ].
    destruct (missing_arguments fs kw') as [ | a l ] eqn:Em; [ | discriminate ].
    intros H. inversion H. subst kw'. split; [ reflexivity | ]. split.
    + intros k Hin. apply is_field_In.
      unfold unexpected_keyword in Eu.
      destruct (is_field fs k) eqn:E; [ reflexivity | ].
      exfalso. apply (find_none _ _ Eu k) in Hin. rewrite E in Hin. discriminate.
    + intros k Hin. unfold missing_arguments in Em.
      destruct (dict_has kw k) eqn:E; [ reflexivity | ].
      assert (Hf : In k (filter (fun k => negb (dict_has kw k)) (required_fields fs))).
      { apply filter_In. split; [ exact Hin | now rewrite E ]. }
      rewrite Em in Hf. contradiction.
  - intros (-> & Hkeys & Hreq).
    rewrite (no_unexpected_keyword fs kw).
    + assert (Em : missing_arguments fs kw = []).
      { unfold missing_arguments.
        destruct (filter (fun k => negb (dict_has kw k)) (required_fields fs))
          as [ | a l ] eqn:E; [ reflexivity | ].
        assert (Hin : In a (a :: l)) by now left.
        rewrite <- E in Hin. apply filter_In in Hin. destruct Hin as (Hin & Hneg).
        rewrite (Hreq a Hin) in Hneg. discriminate. }
      now rewrite Em.
    + intros k Hin. apply is_field_In. auto.
Qed.

(** X12.  When a payload builds an [EmailRequest], and a JSON object an
    [AgentMessage]: exactly when it is a mapping whose keys are all field
    names and among them are the required ones ([to], [subject], [body];
    [agent_id], [message_type], [timestamp], [payload]).  Every field then
    holds the value given under its name, as it is and whatever its type,
    and an optional field that is not given is [None]. *)
Theorem dataclass_coercion (v : json) :
  ((exists r, EmailRequest_of v = Ok r)
   <-> exists kw,
         v = JObj kw
         /\ (forall k, In k (dict_keys kw) ->
                       In k ["to"; "subject"; "body"; "cc"; "bcc"; "attachments";
                             "html_body"])
         /\ dict_has kw "to" = true /\ dict_has kw "subject" = true
         /\ dict_has kw "body" = true)
  /\ ((exists m, AgentMessage_of v = Ok m)
      <-> exists kw,
            v = JObj kw
            /\ (forall k, In k (dict_keys kw) ->
                          In k ["agent_id"; "message_type"; "timestamp"; "payload";
                                "correlation_id"; "reply_to"])
            /\ dict_has kw "agent_id" = true /\ dict_has kw "message_type" = true
            /\ dict_has kw "timestamp" = true /\ dict_has kw "payload" = true)
  /\ (forall kw r,
        EmailRequest_of (JObj kw) = Ok r ->
        dict_get kw "to" = Some (to r)
        /\ dict_get kw "subject" = Some (subject r)
        /\ dict_get kw "body" = Some (body r)
        /\ (forall x, dict_get kw "cc" = Some x -> cc r = x)
        /\ (forall x, dict_get kw "bcc" = Some x -> bcc r = x)
        /\ (forall x, dict_get kw "attachments" = Some x -> attachments r = x)
        /\ (forall x, dict_get kw "html_body" = Some x -> html_body r = x)
        /\ (dict_get kw "cc" = None -> cc r = JNull)
        /\ (dict_get kw "bcc" = None -> bcc r = JNull)
        /\ (dict_get kw "attachments" = None -> attachments r = JNull)
        /\ (dict_get kw "html_body" = None -> html_body r = JNull))
  /\ (forall kw m,
        AgentMessage_of (JObj kw) = Ok m ->
        dict_get kw "agent_id" = Some (agent_id m)
        /\ dict_get kw "message_type" = Some (message_type m)
        /\ dict_get kw "timestamp" = Some (timestamp m)
        /\ dict_get kw "payload" = Some (payload m)
        /\ (forall x, dict_get kw "correlation_id" = Some x -> correlation_id m = x)
        /\ (forall x, dict_get kw "reply_to" = Some x -> reply_to m = x)
        /\ (dict_get kw "correlation_id" = None -> correlation_id m = JNull)
        /\ (dict_get kw "reply_to" = None -> reply_to m = JNull)).
Proof.
  split; [ | split; [ | split ] ].
  - unfold EmailRequest_of. split.
    + intros (r & H).
      destruct (bind_keywords "EmailRequest" EmailRequest_fields v) as [kw | e] eqn:E;
        [ | discriminate ].
      apply bind_keywords_iff in E. destruct E as (-> & Hk & Hr).
      exists kw. split; [ reflexivity | ]. split; [ exact Hk | ].
      repeat split; apply Hr; cbn; auto.
    + intros (kw & -> & Hk & H1 & H2 & H3).
      assert (E : bind_keywords "EmailRequest" EmailRequest_fields (JObj kw) = Ok kw).
      { apply bind_keywords_iff. split; [ reflexivity | ]. split; [ exact Hk | ].
        intros k [<- | [<- | [<- | []]]]; assumption. }
      rewrite E. eexists. reflexivity.
  - unfold AgentMessage_of. split.
    + intros (r & H).
      destruct (bind_keywords "AgentMessage" AgentMessage_fields v) as [kw | e] eqn:E;
        [ | discriminate ].
      apply bind_keywords_iff in E. destruct E as (-> & Hk & Hr).
      exists kw. split; [ reflexivity | ]. split; [ exact Hk | ].
      repeat split; apply Hr; cbn; auto.
    + intros (kw & -> & Hk & H1 & H2 & H3 & H4).
      assert (E : bind_keywords "AgentMessage" AgentMessage_fields (JObj kw) = Ok kw).
      { apply bind_keywords_iff. split; [ reflexivity | ]. split; [ exact Hk | ].
        intros k [<- | [<- | [<- | [<- | []]]]]; assumption. }
      rewrite E. eexists. reflexivity.
  - intros kw r. unfold EmailRequest_of.
    destruct (bind_keywords "EmailRequest" EmailRequest_fields (JObj kw)) as [kw' | e] eqn:E;
      [ | discriminate ].
    apply bind_keywords_iff in E. destruct E as (E & _ & Hreq). injection E as <-.
    assert (H1 := Hreq "to" ltac:(cbn; auto)).
    assert (H2 := Hreq "subject" ltac:(cbn; auto)).
    assert (H3 := Hreq "body" ltac:(cbn; auto)).
    unfold dict_has in H1, H2, H3.
    intros H. injection H as <-. cbn [to subject body cc bcc attachments html_body].
    unfold dict_get_or_none.
    destruct (dict_get kw "to"); [ | discriminate ].
    destruct (dict_get kw "subject"); [ | discriminate ].
    destruct (dict_get kw "body"); [ | discriminate ].
    repeat split;
      try (intros x Hx; rewrite Hx; reflexivity);
      try (intros Hx; rewrite Hx; reflexivity).
  - intros kw m. unfold AgentMessage_of.
    destruct (bind_keywords "AgentMessage" AgentMessage_fields (JObj kw)) as [kw' | e] eqn:E;
      [ | discriminate ].
    apply bind_keywords_iff in E. destruct E as (E & _ & Hreq). injection E as <-.
    assert (H1 := Hreq "agent_id" ltac:(cbn; auto)).
    assert (H2 := Hreq "message_type" ltac:(cbn; auto)).
    assert (H3 := Hreq "timestamp" ltac:(cbn; auto)).
    assert (H4 := Hreq "payload" ltac:(cbn; auto 6)).
    unfold dict_has in H1, H2, H3, H4.
    intros H. injection H as <-.
    cbn [agent_id message_type timestamp payload correlation_id reply_to].
    unfold dict_get_or_none.
    destruct (dict_get kw "agent_id"); [ | discriminate ].
    destruct (dict_get kw "message_type"); [ | discriminate ].
    destruct (dict_get kw "timestamp"); [ | discriminate ].
    destruct (dict_get kw "payload"); [ | discriminate ].
    repeat split;
      try (intros x Hx; rewrite Hx; reflexivity);
      try (intros Hx; rewrite Hx; reflexivity).
Qed.

(** X13.  An [EmailRequest] turned into a payload by [asdict] builds the
    same [EmailRequest] again, whatever its field values; so a request sent
    the way [main] sends it is never refused as a payload. *)
Theorem request_payload_round_trip
  {P : Platform} (r : EmailRequest) (m : AgentMessage) (st : State) :
  EmailRequest_of (JObj (asdict_request r)) = Ok r
  /\ (message_type m = JStr "email_send_request" ->
      payload m = JObj (asdict_request r) ->
      exists resp st',
        process_agent_message m st = (Ok resp, st')
        /\ message_type resp = JStr "email_send_response").
Proof.
  assert (E : EmailRequest_of (JObj (asdict_request r)) = Ok r)
    by (destruct r; reflexivity).
  split; [ exact E | ].
  intros Ht Hp. rewrite <- Hp in E.
  destruct (send_email_returns r (entered m st)) as (resp & st' & Hs).
  rewrite process_agent_message_run.
  rewrite (dispatch_send m (entered m st) r Ht E resp st' Hs).
  eexists _, st'. split; reflexivity.
Qed.

(** X14.  [handle_message_json] is [process_agent_message] seen through
    the wire format.  For a [json] library that reads back the
    JSON-compatible objects it writes, the text of a message [m] is answered
    by the text of the response to [m], with the same effect on the state;
    so the response text carries [m]'s correlation id and names [m]'s sender
    in [reply_to], and reading it back gives the response itself. *)
Theorem handle_message_json_over_the_wire
  {P : Platform} {J : JsonLibrary} (m : AgentMessage) (st : State) :
  (forall v, json_wf v = true -> json_loads (json_dumps v) = Ok v) ->
  message_wf m = true ->
  exists resp st',
    process_agent_message m st = (Ok resp, st')
    /\ handle_message_json (serialize m) st = (Ok (serialize resp), st')
    /\ correlation_id resp = correlation_id m
    /\ reply_to resp = agent_id m
    /\ (message_wf resp = true -> deserialize (serialize resp) = Ok resp).
Proof.
  intros Hrt Hwf.
  destruct (handle_message_json_cases (serialize m) st) as (_ & _ & H3).
  destruct (H3 (JObj (asdict_message m)) m) as (resp & st' & Hrun & Hh).
  - unfold serialize. apply Hrt. now apply message_wf_asdict.
  - apply AgentMessage_of_asdict.
  - exists resp, st'. split; [ exact Hrun | ]. split; [ exact Hh | ].
    rewrite process_agent_message_run in Hrun.
    destruct (dispatch m (entered m st)) as [[r | e] st1];
      inversion Hrun; subst; cbn; (split; [ reflexivity | ]);
      (split; [ reflexivity | ]);
      intros Hw; unfold deserialize, serialize;
      rewrite (Hrt _ (message_wf_asdict _ Hw)); apply AgentMessage_of_asdict.
Qed.

(* ================================================================== *)
(** ** The message of a well-typed request *)
(* ================================================================== *)

Section MessageLemmas.
Context {P : Platform}.

Lemma message_with_headers_typed (t : TypedEmailRequest) :
  message_with_headers (well_typed t) = Ok (typed_message t).
Proof.
  unfold message_with_headers, well_typed, typed_message, typed_headers.
  cbn [html_body body to subject cc bcc].
  rewrite str_join_str_list.
  destruct (html_body_ t) as [ [ | c hb ] | ];
    destruct (cc_ t) as [ [ | c1 l1 ] | ];
    destruct (bcc_ t) as [ [ | c2 l2 ] | ];
    cbn [some_or_none opt_str_list str_list truthy map negb String.eqb rbind
         new_MIMEText set_header address_header];
    rewrite ?str_join_str_list; cbn [rbind set_header app];
    reflexivity.
Qed.

End MessageLemmas.

(** X15.  The message of a well-typed request without attachments (none, or
    an empty list): the plain text carrying the headers [to] (the addresses
    joined by a comma and a space), [subject], and [cc] and [bcc] only for a
    non-empty list, in this order; with a non-empty [html_body] the headers
    sit on a multipart/alternative container of the plain and the HTML text
    instead.  An empty [html_body] counts as none. *)
Theorem message_without_attachments
  {P : Platform} (w : World) (t : TypedEmailRequest) :
  attachments_ t = None \/ attachments_ t = Some [] ->
  build_message w (well_typed t) = Ok (typed_message t)
  /\ (html_body_ t = None \/ html_body_ t = Some EmptyString ->
      typed_message t = MIMEText (typed_headers t) (body_ t) "plain")
  /\ (forall c h,
        html_body_ t = Some (String c h) ->
        typed_message t
        = MIMEMultipart (typed_headers t) "alternative"
            [MIMEText [] (body_ t) "plain"; MIMEText [] (String c h) "html"])
  /\ (forall l,
        In ("cc", l) (typed_headers t)
        <-> exists a r, cc_ t = Some (a :: r)
                        /\ l = JStr (String.concat ", " (a :: r))).
Proof.
  intros Ha. split; [ | split; [ | split ] ].
  - unfold build_message. rewrite message_with_headers_typed. cbn [rbind].
    unfold well_typed. cbn [attachments].
    destruct Ha as [-> | ->]; reflexivity.
  - intros Hh. unfold typed_message. destruct Hh as [-> | ->]; reflexivity.
  - intros c h Hh. unfold typed_message. now rewrite Hh.
  - intros l. unfold typed_headers. split.
    + intros Hin. cbn in Hin.
      destruct Hin as [Hin | [Hin | Hin]]; try discriminate.
      apply in_app_or in Hin. destruct Hin as [Hin | Hin].
      * destruct (cc_ t) as [ [ | a r ] | ]; cbn in Hin; try contradiction.
        destruct Hin as [Hin | []]. inversion Hin. now exists a, r.
      * destruct (bcc_ t) as [ [ | a r ] | ]; cbn in Hin; try contradiction.
        destruct Hin as [Hin | []]. discriminate.
    + intros (a & r & Hc & ->). rewrite Hc. cbn. right. right. now left.
Qed.

(** X16.  With a non-empty attachments list whose existing files can be
    read, a message that has no HTML alternative is wrapped: the result is
    a multipart/mixed container on which no header is set and whose first
    part is the plain text, which keeps the [to], [subject], [cc] and [bcc]
    headers set before; the parts of the existing files follow.  This holds even when
    no listed file exists.  A message with an HTML alternative is not
    wrapped: the file parts join the two texts in the multipart/alternative
    container, which keeps the headers. *)
Theorem attachments_wrap_the_plain_message
  {P : Platform} (w : World) (t : TypedEmailRequest) (p : string)
  (paths : list string) :
  attachments_ t = Some (p :: paths) ->
  readable w (p :: paths) ->
  let files := map (fun q => attachment_part q (file_content w q))
                   (existing w (p :: paths)) in
  (html_body_ t = None \/ html_body_ t = Some EmptyString ->
   build_message w (well_typed t)
   = Ok (MIMEMultipart [] "mixed"
           (MIMEText (typed_headers t) (body_ t) "plain" :: files)))
  /\ (forall c h,
        html_body_ t = Some (String c h) ->
        build_message w (well_typed t)
        = Ok (MIMEMultipart (typed_headers t) "alternative"
                ([MIMEText [] (body_ t) "plain"; MIMEText [] (String c h) "html"]
                   ++ files)%list)).
Proof.
  intros Ha Hr files.
  assert (Hb : build_message w (well_typed t)
               = attach_all w (if negb (is_multipart (typed_message t))
                               then MIMEMultipart [] "mixed" [typed_message t]
                               else typed_message t)
                              (map JStr (p :: paths))).
  { unfold build_message. rewrite message_with_headers_typed. cbn [rbind].
    unfold well_typed. cbn [attachments]. rewrite Ha. reflexivity. }
  rewrite Hb. split.
  - intros Hh.
    assert (Hm : typed_message t = MIMEText (typed_headers t) (body_ t) "plain")
      by (unfold typed_message; destruct Hh as [-> | ->]; reflexivity).
    rewrite Hm. cbn [is_multipart negb].
    rewrite (attach_all_multipart w (p :: paths) Hr). reflexivity.
  - intros c h Hh.
    assert (Hm : typed_message t
                 = MIMEMultipart (typed_headers t) "alternative"
                     [MIMEText [] (body_ t) "plain"; MIMEText [] (String c h) "html"])
      by (unfold typed_message; now rewrite Hh).
    rewrite Hm. cbn [is_multipart negb].
    rewrite (attach_all_multipart w (p :: paths) Hr). reflexivity.
Qed.

(* ================================================================== *)
(** ** [main] *)
(* ================================================================== *)

(** X17.  A run of [main], whatever the world: it prints either the one
    line of the failed authentication, and then has made no send call, or
    the two responses; the first is an [email_send_response] with the
    correlation id [test-001], the second reports the agent as healthy and
    authenticated under its id.  In all cases at most one send call is
    made, and the agent ends with a session handle exactly when the
    responses were printed. *)
Theorem main_sends_at_most_once
  {P : Platform} {J : JsonLibrary} (w : World) :
  exists out st',
    main w = (Ok out, st')
    /\ List.length (filter is_send (calls_of (trace st'))) <= 1
    /\ ((out = ["Failed to authenticate. Please check your credentials."]
         /\ service (self st') = None
         /\ filter is_send (calls_of (trace st')) = [])
        \/ (exists response health_response svc,
              out = ["Agent Response:"; serialize response;
                     String "010" "Health Check Response:";
                     serialize health_response]
              /\ service (self st') = Some svc
              /\ message_type response = JStr "email_send_response"
              /\ correlation_id response = JStr "test-001"
              /\ reply_to response = JStr "client-agent-001"
              /\ message_type health_response = JStr "health_check_response"
              /\ payload health_response
                 = JObj [("status", JStr "healthy");
                         ("agent_id", JStr "gmail-agent-001");
                         ("authenticated", JBool true)])).
Proof.
  unfold main, main_body, bind.
  set (st0 := {| self := init "gmail-agent-001" "credentials.json";
                 world := w; trace := [] |}).
  destruct (authenticate_spec st0) as (b & st1 & d1 & Ha & Ht1 & Hshape & Htrue & Hfalse).
  rewrite Ha. destruct b; cbn [negb].
  - destruct (Htrue eq_refl) as (svc & Hself1).
    assert (Hs1 : service (self st1) = Some svc) by now rewrite Hself1.
    assert (Hid1 : self_agent_id (self st1) = "gmail-agent-001") by now rewrite Hself1.
    unfold observe at 1. cbn [fst snd].
    set (m1 := main_send_message (utcnow_isoformat (world st1))).
    rewrite (process_agent_message_run m1 st1).
    destruct (send_email_spec main_request (entered m1 st1))
      as (r & st2 & d2 & Hsend & Ht2 & Hkeep & Hcase).
    assert (Hself2 : self st2 = self st1) by exact (Hkeep svc Hs1).
    rewrite (dispatch_send m1 (entered m1 st1) main_request eq_refl eq_refl r st2 Hsend).
    cbn [fst snd]. unfold observe. cbn [fst snd].
    set (m2 := main_health_check (utcnow_isoformat (world st2))).
    rewrite (process_agent_message_run m2 st2).
    rewrite (dispatch_health_check m2 (entered m2 st2) eq_refl).
    cbn [fst snd ret]. eexists _, _. split; [ reflexivity | ].
    assert (Hcalls : calls_of (trace (entered m2 st2))
                     = (calls_of d1 ++ calls_of d2)%list).
    { cbn [entered trace]. rewrite Ht2. cbn [entered trace]. rewrite Ht1.
      subst st0. cbn [trace app].
      rewrite !calls_of_app. cbn. now rewrite !List.app_nil_r. }
    assert (Hone : List.length (filter is_send (calls_of d2)) <= 1).
    { destruct Hcase as [ (_ & -> & _) | [ (_ & ->) | (s & raw & o & _ & _ & ->) ] ];
        cbn; lia. }
    split.
    + rewrite Hcalls, filter_app, (auth_shape_no_send _ _ Hshape). exact Hone.
    + right. eexists _, _, svc. split; [ reflexivity | ].
      cbn [entered self]. rewrite Hself2, Hs1, Hid1.
      repeat split; reflexivity.
  - cbn [ret]. exists ["Failed to authenticate. Please check your credentials."], st1.
    split; [ reflexivity | ].
    assert (Hcalls : filter is_send (calls_of (trace st1)) = []).
    { rewrite Ht1. subst st0. cbn [trace app]. exact (auth_shape_no_send _ _ Hshape). }
    split; [ rewrite Hcalls; cbn; lia | ].
    left. split; [ reflexivity | ]. split; [ | exact Hcalls ].
    rewrite (Hfalse eq_refl). reflexivity.
Qed.

(* ================================================================== *)
(** ** The logger of an agent *)
(* ================================================================== *)

Lemma registry_get_set (reg : Registry) (name : string) (l : Logger) :
  registry_get (registry_set reg name l) name = Some l.
Proof.
  induction reg as [ | [n l0] reg IH ]; cbn.
  - now rewrite String.eqb_refl.
  - destruct (String.eqb n name) eqn:E; cbn; rewrite E; [ reflexivity | exact IH ].
Qed.

Lemma registry_get_set_other (reg : Registry) (name other : string) (l : Logger) :
  other <> name ->
  registry_get (registry_set reg name l) other = registry_get reg other.
Proof.
  intros Hne. induction reg as [ | [n l0] reg IH ]; cbn.
  - destruct (String.eqb name other) eqn:E; [ | reflexivity ].
    apply String.eqb_eq in E. congruence.
  - destruct (String.eqb n name) eqn:E; cbn.
    + apply String.eqb_eq in E. subst n.
      destruct (String.eqb name other) eqn:E'; [ | reflexivity ].
      apply String.eqb_eq in E'. congruence.
    + destruct (String.eqb n other); [ reflexivity | exact IH ].
Qed.

Lemma logger_name_inj (a b : string) : logger_name a = logger_name b -> a = b.
Proof. unfold logger_name. cbn. intros H. now inversion H. Qed.

Lemma setup_logging_own (agent_id : string) (reg : Registry) :
  registry_get (_setup_logging agent_id reg) (logger_name agent_id)
  = Some (mkLogger logging_INFO (handlers_once_set_up reg agent_id)).
Proof.
  unfold _setup_logging, handlers_once_set_up. rewrite registry_get_set.
  cbn [logger_handlers logger_level].
  destruct (logger_handlers (getLogger reg (logger_name agent_id))); reflexivity.
Qed.

Lemma setup_logging_keeps_handlers (agent_id other : string) (reg : Registry) :
  handlers_once_set_up (_setup_logging agent_id reg) other
  = handlers_once_set_up reg other.
Proof.
  destruct (string_dec other agent_id) as [-> | Hne].
  - unfold handlers_once_set_up at 1. unfold getLogger.
    rewrite setup_logging_own. cbn [logger_handlers].
    unfold handlers_once_set_up.
    destruct (logger_handlers (getLogger reg (logger_name agent_id))); reflexivity.
  - unfold handlers_once_set_up, getLogger, _setup_logging.
    rewrite registry_get_set_other; [ reflexivity | ].
    intros H. apply Hne. now apply logger_name_inj.
Qed.

Lemma construct_agents_keeps_handlers (ids : list string) :
  forall reg other,
    handlers_once_set_up (construct_agents ids reg) other
    = handlers_once_set_up reg other.
Proof.
  induction ids as [ | i ids IH ]; intros reg other; [ reflexivity | ].
  cbn [construct_agents fold_left]. fold (construct_agents ids (_setup_logging i reg)).
  rewrite IH. apply setup_logging_keeps_handlers.
Qed.

(** X18.  However many agents are constructed, and however often with the
    same id, the logger of each of them ends at level INFO with the
    handlers it had before the first construction, or with the one stream
    handler if it had none: a second agent of the same id does not double
    the log lines.  The loggers of other names are not touched. *)
Theorem logger_gets_one_handler (ids : list string) (reg : Registry) :
  (forall agent_id,
     In agent_id ids ->
     registry_get (construct_agents ids reg) (logger_name agent_id)
     = Some (mkLogger logging_INFO (handlers_once_set_up reg agent_id)))
  /\ (forall agent_id,
        registry_get reg (logger_name agent_id) = None ->
        In agent_id ids ->
        logger_handlers (getLogger (construct_agents ids reg) (logger_name agent_id))
        = [stream_handler])
  /\ (forall name,
        (forall agent_id, In agent_id ids -> name <> logger_name agent_id) ->
        registry_get (construct_agents ids reg) name = registry_get reg name).
Proof.
  assert (Hown : forall l r agent_id,
             In agent_id l ->
             registry_get (construct_agents l r) (logger_name agent_id)
             = Some (mkLogger logging_INFO (handlers_once_set_up r agent_id))).
  { intros l. induction l as [ | i l IH ] using rev_ind; intros r a Hin;
      [ contradiction | ].
    unfold construct_agents. rewrite fold_left_app. cbn [fold_left].
    fold (construct_agents l r).
    destruct (string_dec a i) as [-> | Hne].
    - rewrite setup_logging_own. now rewrite construct_agents_keeps_handlers.
    - unfold _setup_logging. rewrite registry_get_set_other.
      + apply IH. apply in_app_or in Hin. destruct Hin as [Hin | [Hin | []]];
          [ exact Hin | congruence ].
      + intros H. apply Hne. now apply logger_name_inj. }
  split; [ | split ].
  - intros a Hin. now apply Hown.
  - intros a Hnone Hin. unfold getLogger at 1. rewrite (Hown ids reg a Hin).
    cbn [logger_handlers]. unfold handlers_once_set_up, getLogger.
    now rewrite Hnone.
  - revert reg. induction ids as [ | i ids IH ]; intros reg name Hother;
      [ reflexivity | ].
    cbn [construct_agents fold_left]. fold (construct_agents ids (_setup_logging i reg)).
    rewrite IH.
    + unfold _setup_logging. apply registry_get_set_other.
      apply Hother. now left.
    + intros a Hin. apply Hother. now right.
Qed.

(* ================================================================== *)
(** ** The string methods of the Nextcloud client *)
(* ================================================================== *)

Lemma rstrip_snoc (s : string) (c : ascii) :
  NC.rstrip (s ++ String c EmptyString) c = NC.rstrip s c.
Proof.
  induction s as [ | a s IH ]; cbn.
  - now rewrite Ascii.eqb_refl.
  - now rewrite IH.
Qed.

Lemma times_snoc (c : ascii) (n : nat) :
  NC.times c (S n) = NC.times c n ++ String c EmptyString.
Proof. induction n as [ | n IH ]; [ reflexivity | ]. cbn in *. now rewrite <- IH. Qed.

Lemma rstrip_times (s : string) (c : ascii) (n : nat) :
  NC.rstrip (s ++ NC.times c n) c = NC.rstrip s c.
Proof.
  induction n as [ | n IH ].
  - cbn. now rewrite append_nil_r.
  - rewrite times_snoc, <- append_assoc, rstrip_snoc. exact IH.
Qed.

Lemma rstrip_decompose (s : string) (c : ascii) :
  exists n, s = NC.rstrip s c ++ NC.times c n.
Proof.
  induction s as [ | a s (n & IH) ]; [ now exists 0 | ].
  cbn. destruct (NC.rstrip s c) as [ | b t ] eqn:E.
  - destruct (Ascii.eqb a c) eqn:Ea.
    + apply Ascii.eqb_eq in Ea. subst a. exists (S n). cbn in *. now rewrite <- IH.
    + exists n. cbn in *. now rewrite <- IH.
  - exists n. cbn in *. now rewrite <- IH.
Qed.

Lemma rstrip_no_trailing (s : string) (c : ascii) (t : string) :
  NC.rstrip s c <> t ++ String c EmptyString.
Proof.
  revert t. induction s as [ | a s IH ]; intros t; cbn.
  - destruct t; discriminate.
  - destruct (NC.rstrip s c) as [ | b u ] eqn:E.
    + destruct (Ascii.eqb a c) eqn:Ea.
      * destruct t; discriminate.
      * destruct t as [ | x [ | y t ] ]; cbn; try discriminate.
        intros H. inversion H. subst. now rewrite Ascii.eqb_refl in Ea.
    + destruct t as [ | x t ]; cbn.
      * discriminate.
      * intros H. injection H as _ H. exact (IH t H).
Qed.

Lemma split_from_not_nil (sep : string) (s : string) :
  forall skip, NC.split_from sep skip s <> [].
Proof.
  induction s as [ | a s IH ]; intros skip; cbn [NC.split_from]; [ discriminate | ].
  destruct skip as [ | k ]; [ | apply IH ].
  destruct (String.prefix sep (String a s)); [ discriminate | ].
  destruct (NC.split_from sep 0 s); discriminate.
Qed.

Lemma split_from_skip (sep : string) (k : nat) :
  forall s, NC.split_from sep k s = NC.split_from sep 0 (NC.drop k s).
Proof.
  induction k as [ | k IH ]; intros s; [ now destruct s | ].
  destruct s as [ | a s ]; [ reflexivity | ]. cbn [NC.split_from NC.drop]. apply IH.
Qed.

Lemma prefix_of_empty (sep : string) :
  sep <> EmptyString -> String.prefix sep EmptyString = false.
Proof. destruct sep; [ congruence | reflexivity ]. Qed.

(** [split] cuts at the first occurrence and goes on behind it. *)
Lemma split_find_some (sep : string) :
  sep <> EmptyString ->
  forall s i,
    NC.find s sep = Some i ->
    NC.split s sep
    = NC.take i s :: NC.split (NC.drop (i + String.length sep) s) sep.
Proof.
  intros Hsep. unfold NC.split.
  induction s as [ | a s IH ]; intros i Hf.
  - cbn [NC.find] in Hf. rewrite (prefix_of_empty sep Hsep) in Hf. discriminate.
  - cbn [NC.find] in Hf. cbn [NC.split_from].
    destruct (String.prefix sep (String a s)) eqn:Ep.
    + inversion Hf. subst i. cbn [NC.take Nat.add].
      rewrite split_from_skip.
      destruct sep as [ | c sep' ]; [ congruence | ].
      cbn [String.length NC.drop Nat.sub]. now rewrite Nat.sub_0_r.
    + destruct (NC.find s sep) as [j | ] eqn:Ej; [ | discriminate ].
      inversion Hf. subst i. rewrite (IH j eq_refl). reflexivity.
Qed.

Lemma split_find_none (sep : string) :
  forall s, NC.find s sep = None -> NC.split s sep = [s].
Proof.
  unfold NC.split. induction s as [ | a s IH ]; intros Hf; [ reflexivity | ].
  cbn [NC.find] in Hf. cbn [NC.split_from].
  destruct (String.prefix sep (String a s)); [ discriminate | ].
  destruct (NC.find s sep); [ discriminate | ].
  now rewrite (IH eq_refl).
Qed.

Lemma containsb_find (sep s : string) :
  containsb sep s = match NC.find s sep with Some _ => true | None => false end.
Proof.
  induction s as [ | a s IH ]; cbn [containsb NC.find].
  - now destruct (String.prefix sep EmptyString).
  - destruct (String.prefix sep (String a s)); [ reflexivity | ].
    rewrite IH. now destruct (NC.find s sep).
Qed.

Lemma prefix_single (c a : ascii) (s : string) :
  String.prefix (String c EmptyString) (String a s) = Ascii.eqb c a.
Proof.
  cbn. destruct (ascii_dec c a) as [-> | Hne].
  - rewrite Ascii.eqb_refl. now destruct s.
  - symmetry. now apply Ascii.eqb_neq.
Qed.

(** The last piece of [s.split('/')] is [os.path.basename(s)]. *)
Lemma basename_aux_split (s : string) :
  forall acc,
    basename_aux s acc
    = match NC.split s "/" with
      | [p] => acc ++ p
      | l => last l EmptyString
      end.
Proof.
  unfold NC.split. induction s as [ | a s IH ]; intros acc.
  - cbn. now rewrite append_nil_r.
  - cbn [basename_aux NC.split_from]. rewrite prefix_single.
    rewrite (Ascii.eqb_sym "/" a).
    destruct (Ascii.eqb a "/") eqn:Ea.
    + cbn [String.length Nat.sub]. rewrite IH.
      pose proof (split_from_not_nil "/" s 0) as Hn.
      destruct (NC.split_from "/" 0 s) as [ | p [ | q l ] ]; [ congruence | | ];
        reflexivity.
    + rewrite IH.
      pose proof (split_from_not_nil "/" s 0) as Hn.
      destruct (NC.split_from "/" 0 s) as [ | p [ | q l ] ]; [ congruence | | ].
      * rewrite append_assoc. reflexivity.
      * reflexivity.
Qed.

Lemma last_rev {A} (l : list A) (d : A) :
  last l d = match rev l with a :: _ => a | [] => d end.
Proof.
  induction l as [ | a l IH ] using rev_ind; [ reflexivity | ].
  rewrite last_last, rev_app_distr. reflexivity.
Qed.

Lemma last_piece_is_basename (s : string) :
  exists a l, rev (NC.split s "/") = a :: l /\ a = basename s.
Proof.
  unfold basename. rewrite basename_aux_split.
  pose proof (split_from_not_nil "/" s 0) as Hn. fold (NC.split s "/") in Hn.
  destruct (NC.split s "/") as [ | p [ | q l ] ] eqn:E; [ congruence | | ].
  - exists p, []. split; reflexivity.
  - rewrite last_rev.
    destruct (rev (p :: q :: l)) as [ | a l' ] eqn:Er.
    + apply (f_equal (@rev string)) in Er. rewrite rev_involutive in Er. discriminate.
    + now exists a, l'.
Qed.

(** A text without the first character of a separator is passed over. *)
Lemma find_passes (c : ascii) (sep' pre t : string) :
  without_char c pre = true ->
  NC.find (pre ++ t) (String c sep')
  = match NC.find t (String c sep') with
    | Some i => Some (String.length pre + i)
    | None => None
    end.
Proof.
  intros Hpre. induction pre as [ | a pre IH ].
  - cbn [append String.length Nat.add]. now destruct (NC.find t (String c sep')).
  - cbn in Hpre. apply andb_prop in Hpre. destruct Hpre as (Ha & Hpre).
    cbn [append NC.find String.length]. rewrite (IH Hpre).
    assert (Hp : String.prefix (String c sep') (String a (pre ++ t)) = false).
    { cbn [String.prefix]. destruct (ascii_dec c a) as [-> | Hne]; [ | reflexivity ].
      rewrite Ascii.eqb_refl in Ha. discriminate. }
    rewrite Hp. now destruct (NC.find t (String c sep')).
Qed.

Lemma find_here (sep rest : string) : NC.find (sep ++ rest) sep = Some 0.
Proof.
  destruct (sep ++ rest) eqn:E; cbn [NC.find]; rewrite <- E, prefix_append; reflexivity.
Qed.

Lemma find_behind (c : ascii) (sep' pre rest : string) :
  without_char c pre = true ->
  NC.find (pre ++ String c sep' ++ rest) (String c sep') = Some (String.length pre).
Proof.
  intros Hpre. rewrite (find_passes c sep' pre _ Hpre), find_here.
  now rewrite Nat.add_0_r.
Qed.

Lemma drop_append (a b : string) : NC.drop (String.length a) (a ++ b) = b.
Proof. induction a as [ | c a IH ]; [ now destruct b | exact IH ]. Qed.

Lemma take_append (a b : string) (n : nat) :
  NC.take (String.length a + n) (a ++ b) = a ++ NC.take n b.
Proof. induction a as [ | c a IH ]; [ reflexivity | cbn; now rewrite IH ]. Qed.

Lemma take_0 (s : string) : NC.take 0 s = EmptyString.
Proof. now destruct s. Qed.

Lemma drop_add (n m : nat) (s : string) : NC.drop (n + m) s = NC.drop m (NC.drop n s).
Proof.
  revert s. induction n as [ | n IH ]; intros s; [ reflexivity | ].
  destruct s as [ | a s ]; cbn [Nat.add NC.drop]; [ now destruct m | apply IH ].
Qed.

(** The display name of a line that holds an entry: the first one. *)
Lemma first_displayname_entry (pre name post : string) :
  without_char "<" pre = true ->
  without_char "<" name = true ->
  first_displayname (pre ++ "<d:displayname>" ++ name ++ "</d:displayname>" ++ post)
  = Some name.
Proof.
  intros Hpre Hname. unfold first_displayname.
  rewrite (find_behind "<" "d:displayname>" pre _ Hpre).
  cbv zeta. rewrite drop_add, drop_append.
  change (NC.drop (String.length "<d:displayname>")
            ("<d:displayname>" ++ name ++ "</d:displayname>" ++ post))
    with (name ++ "</d:displayname>" ++ post).
  assert (Hcut : exists post',
             before (name ++ "</d:displayname>" ++ post) "<d:displayname>"
             = name ++ "</d:displayname>" ++ post').
  { unfold before.
    rewrite (find_passes "<" "d:displayname>" name _ Hname).
    change ("</d:displayname>" ++ post)
      with (String "<" ("/d:displayname>" ++ post)).
    cbn [NC.find].
    assert (Hp : String.prefix "<d:displayname>" (String "<" ("/d:displayname>" ++ post))
                 = false) by reflexivity.
    rewrite Hp.
    rewrite (find_passes "<" "d:displayname>" "/d:displayname>" post eq_refl).
    destruct (NC.find post "<d:displayname>") as [k | ].
    - exists (NC.take k post). rewrite take_append.
      change (NC.take (S (String.length "/d:displayname>" + k))
                (String "<" ("/d:displayname>" ++ post)))
        with (String "<" (NC.take (String.length "/d:displayname>" + k)
                            ("/d:displayname>" ++ post))).
      now rewrite take_append.
    - now exists post. }
  destruct Hcut as (post' & ->).
  unfold before. rewrite (find_behind "<" "/d:displayname>" name post' Hname).
  rewrite <- (Nat.add_0_r (String.length name)), take_append, take_0.
  now rewrite append_nil_r.
Qed.

(** The string methods on a few inputs, as Python evaluates them. *)
Example split_examples :
  NC.split "a//b" "/" = ["a"; EmptyString; "b"]
  /\ NC.split "abc" "bc" = ["a"; EmptyString]
  /\ NC.split "aaa" "aa" = [EmptyString; "a"]
  /\ NC.split EmptyString "/" = [EmptyString]
  /\ NC.rstrip "https://cloud.example.com//" "/" = "https://cloud.example.com"
  /\ NC.rstrip "///" "/" = EmptyString.
Proof. repeat split; reflexivity. Qed.

Example dirname_examples :
  NC.dirname "downloads/downloaded_test.txt" = "downloads"
  /\ NC.dirname "a//b" = "a"
  /\ NC.dirname "/x" = "/"
  /\ NC.dirname "//x" = "//"
  /\ NC.dirname "x" = EmptyString.
Proof. repeat split; reflexivity. Qed.

(* ================================================================== *)
(** ** Runs of the Nextcloud client *)
(* ================================================================== *)

Section NextcloudRuns.
Context {E : NC.Environment}.

Lemma run_after_nil (r : NC.Run) : run_after r (NC.cloud r) [] [] = r.
Proof. destruct r. unfold run_after. cbn. now rewrite !List.app_nil_r. Qed.

Lemma run_after_after (r : NC.Run) c l o c' l' o' :
  run_after (run_after r c l o) c' l' o' = run_after r c' (l ++ l')%list (o ++ o')%list.
Proof. unfold run_after. cbn. now rewrite !List.app_assoc. Qed.

Lemma print_run (line : string) (r : NC.Run) :
  NC.print line r = (NC.Returned tt, run_after r (NC.cloud r) [line] []).
Proof. unfold NC.print, run_after. now rewrite List.app_nil_r. Qed.

Lemma request_run (q : NC.Request) (r : NC.Run) :
  NC.request q r
  = (fst (NC.send (NC.cloud r) q),
     run_after r (snd (NC.send (NC.cloud r) q)) [] [NC.OpRequest q]).
Proof.
  unfold NC.request, NC.perform, run_after.
  destruct (NC.send (NC.cloud r) q) as [a c']. cbn. now rewrite List.app_nil_r.
Qed.

Lemma perform_run {A} (o : NC.Op) (f : NC.Cloud -> NC.Outcome A * NC.Cloud) (r : NC.Run) :
  NC.perform o f r = (fst (f (NC.cloud r)), run_after r (snd (f (NC.cloud r))) [] [o]).
Proof.
  unfold NC.perform, run_after.
  destruct (f (NC.cloud r)) as [a c']. cbn. now rewrite List.app_nil_r.
Qed.

Lemma split_head (s sep : string) :
  sep <> EmptyString -> exists rest, NC.split s sep = before s sep :: rest.
Proof.
  intros Hsep. unfold before. destruct (NC.find s sep) as [i | ] eqn:Ef.
  - rewrite (split_find_some sep Hsep s i Ef). eauto.
  - rewrite (split_find_none sep s Ef). eauto.
Qed.

(** One round of the loop never fails: the indices it uses exist. *)
Lemma list_line_run (path line : string) (r : NC.Run) :
  NC.list_line path line r
  = (NC.Returned tt, run_after r (NC.cloud r) (listed path line) []).
Proof.
  unfold NC.list_line, listed, first_displayname. rewrite containsb_find.
  destruct (NC.find line "<d:displayname>") as [i | ] eqn:Ef;
    [ | now rewrite run_after_nil ].
  rewrite (split_find_some "<d:displayname>" ltac:(discriminate) line i Ef).
  cbv zeta.
  set (after := NC.drop (i + String.length "<d:displayname>") line).
  destruct (split_head after "<d:displayname>" ltac:(discriminate)) as (rest & ->).
  set (piece := before after "<d:displayname>").
  destruct (split_head piece "</d:displayname>" ltac:(discriminate)) as (rest' & Hs).
  unfold NC.then_ at 1. unfold NC.item at 1. cbn [nth_error NC.unit_].
  unfold NC.then_ at 1. rewrite Hs. unfold NC.item at 1. cbn [nth_error NC.unit_].
  set (name := before piece "</d:displayname>").
  destruct (String.eqb name EmptyString); cbn [negb andb];
    [ now rewrite run_after_nil | ].
  destruct (last_piece_is_basename (NC.rstrip path "/")) as (a & l & Hrev & ->).
  unfold NC.then_, NC.last_item. rewrite Hrev. cbn [NC.unit_].
  destruct (String.eqb name (basename (NC.rstrip path "/"))); cbn [negb].
  - now rewrite run_after_nil.
  - apply print_run.
Qed.

Lemma for_each_list_line (path : string) (lines : list string) :
  forall r,
    NC.for_each lines (NC.list_line path) r
    = (NC.Returned tt,
       run_after r (NC.cloud r) (flat_map (listed path) lines) []).
Proof.
  induction lines as [ | line lines IH ]; intros r.
  - cbn. now rewrite run_after_nil.
  - cbn [NC.for_each flat_map]. unfold NC.then_. rewrite list_line_run, IH.
    now rewrite run_after_after.
Qed.

(** The three ways [test_connection] can go. *)
Lemma test_connection_run (self : NC.NextcloudClient) (r : NC.Run) :
  let q := NC.mkRequest "GET" (NC.webdav_url self) (NC.client_auth self) [] None 10 in
  NC.test_connection self r
  = match NC.send (NC.cloud r) q with
    | (NC.Returned resp, c) =>
        if (NC.status_code resp =? 200)%Z
        then (NC.Returned true,
              run_after r c ["✅ Successfully connected to Nextcloud!"] [NC.OpRequest q])
        else (NC.Returned false,
              run_after r c ["❌ Connection failed. Status code: "
                             ++ NC.str_int (NC.status_code resp)] [NC.OpRequest q])
    | (NC.Raised (NC.RequestException msg), c) =>
        (NC.Returned false,
         run_after r c ["❌ Connection error: " ++ msg] [NC.OpRequest q])
    | (NC.Raised f, c) => (NC.Raised f, run_after r c [] [NC.OpRequest q])
    end.
Proof.
  intros q. unfold NC.test_connection, NC.except_RequestException.
  unfold NC.then_ at 1. fold q. rewrite request_run.
  destruct (NC.send (NC.cloud r) q) as [[resp | f] c]; cbn [fst snd].
  - destruct (NC.status_code resp =? 200)%Z;
      unfold NC.then_; rewrite print_run; cbn [NC.unit_];
      now rewrite run_after_after.
  - destruct f; try reflexivity.
    unfold NC.then_. rewrite print_run. cbn [NC.unit_]. now rewrite run_after_after.
Qed.

Lemma rstrip_empty_iff (s : string) (c : ascii) :
  NC.rstrip s c = EmptyString <-> s = NC.times c (String.length s).
Proof.
  induction s as [ | a s IH ]; cbn; [ tauto | ].
  destruct (NC.rstrip s c) as [ | b t ] eqn:Er.
  - destruct (Ascii.eqb a c) eqn:Ea.
    + apply Ascii.eqb_eq in Ea. subst a. split; [ intros _ | reflexivity ].
      f_equal. now apply IH.
    + split; [ discriminate | ]. intros H. injection H as Ha _.
      subst a. now rewrite Ascii.eqb_refl in Ea.
  - split; [ discriminate | ]. intros H. injection H as _ H.
    apply IH in H. discriminate.
Qed.

Lemma upto_last_slash_empty_iff (p : string) :
  NC.upto_last_slash p = EmptyString <-> without_char "/" p = true.
Proof.
  induction p as [ | a p IH ]; cbn; [ tauto | ].
  destruct (NC.upto_last_slash p) as [ | b t ] eqn:Eu.
  - destruct (Ascii.eqb a "/"); cbn.
    + split; discriminate.
    + split; [ intros _; now apply IH | reflexivity ].
  - split; [ discriminate | ]. intros H. apply andb_prop in H.
    destruct H as (_ & H). apply IH in H. discriminate.
Qed.

(** [os.path.dirname] is empty exactly for a path without a slash. *)
Lemma dirname_empty_iff (p : string) :
  NC.dirname p = EmptyString <-> without_char "/" p = true.
Proof.
  rewrite <- upto_last_slash_empty_iff. unfold NC.dirname, NC.all_slashes.
  destruct (NC.upto_last_slash p) as [ | a h ] eqn:Eu; [ cbn; tauto | ].
  change (String.eqb (String a h) EmptyString) with false. cbn [negb andb].
  destruct (String.eqb (String a h) (NC.times "/" (String.length (String a h)))) eqn:Es;
    cbn [negb]; [ tauto | ].
  split; [ | discriminate ]. intros H. apply rstrip_empty_iff in H.
  rewrite <- H in Es. now rewrite String.eqb_refl in Es.
Qed.

(** Closes the case of an exception reaching the [except] clause. *)
Ltac caught_case f :=
  unfold caught; destruct f; try reflexivity;
  unfold NC.then_; rewrite print_run; reflexivity.

(** Every way [download_file] can run. *)
Lemma download_file_run (self : NC.NextcloudClient) (remote_path local_path : string)
      (r : NC.Run) (u : string) :
  let q := NC.mkRequest "GET" u (NC.client_auth self) [] None 60 in
  let mk := NC.OpMakedirs (NC.dirname local_path) in
  NC.urljoin (NC.webdav_url self) remote_path = NC.Returned u ->
  NC.download_file self remote_path local_path r
  = match NC.send (NC.cloud r) q with
    | (NC.Returned resp, c) =>
        if (NC.status_code resp =? 200)%Z then
          match NC.makedirs c (NC.dirname local_path) with
          | (NC.Returned _, c1) =>
              let wr := NC.OpWrite local_path (NC.content resp) in
              match NC.write_file c1 local_path (NC.content resp) with
              | (NC.Returned _, c2) =>
                  (NC.Returned true,
                   run_after r c2
                     [("✅ Successfully downloaded " ++ remote_path ++ " to "
                       ++ local_path)%string]
                     [NC.OpRequest q; mk; wr])
              | (NC.Raised f, c2) =>
                  caught "❌ Download error: " f
                         (run_after r c2 [] [NC.OpRequest q; mk; wr])
              end
          | (NC.Raised f, c1) =>
              caught "❌ Download error: " f (run_after r c1 [] [NC.OpRequest q; mk])
          end
        else (NC.Returned false,
              run_after r c [("❌ Download failed. Status code: "
                              ++ NC.str_int (NC.status_code resp))%string]
                        [NC.OpRequest q])
    | (NC.Raised f, c) =>
        caught "❌ Download error: " f (run_after r c [] [NC.OpRequest q])
    end.
Proof.
  intros q mk Hu. unfold NC.download_file.
  unfold NC.then_ at 1. unfold NC.join. rewrite Hu. fold q.
  unfold NC.except_RequestException.
  unfold NC.then_ at 1. rewrite request_run.
  destruct (NC.send (NC.cloud r) q) as [[resp | f] c]; cbn [fst snd];
    [ | caught_case f ].
  destruct (NC.status_code resp =? 200)%Z.
  - unfold NC.then_ at 1. rewrite perform_run. cbn [NC.cloud run_after].
    fold (run_after r c [] [NC.OpRequest q]). rewrite run_after_after.
    destruct (NC.makedirs c (NC.dirname local_path)) as [[[] | f] c1]; cbn [fst snd];
      [ | caught_case f ].
    unfold NC.then_ at 1. rewrite perform_run. cbn [NC.cloud run_after].
    fold (run_after r c1 [] ([NC.OpRequest q] ++ [mk])%list).
    rewrite run_after_after.
    destruct (NC.write_file c1 local_path (NC.content resp)) as [[[] | f] c2];
      cbn [fst snd]; [ | caught_case f ].
    unfold NC.then_. rewrite print_run. cbn [NC.unit_].
    now rewrite run_after_after.
  - unfold NC.then_. rewrite print_run. cbn [NC.unit_]. now rewrite run_after_after.
Qed.

Lemma caught_done (label : string) (f : NC.Fault) (r : NC.Run) :
  NC.done (snd (caught label f r)) = NC.done r
  /\ NC.cloud (snd (caught label f r)) = NC.cloud r
  /\ fst (caught label f r) <> NC.Returned true.
Proof.
  unfold caught. destruct f; cbn; rewrite ?List.app_nil_r;
    repeat split; discriminate.
Qed.


(** A path [urljoin] refuses: the exception leaves the method before its
    [try], with nothing done. *)
Lemma join_refused {A} (base path : string) (f : NC.Fault) (k : string -> NC.N A)
      (r : NC.Run) :
  NC.urljoin base path = NC.Raised f ->
  NC.then_ (NC.join base path) k r = (NC.Raised f, r).
Proof. intros H. unfold NC.then_, NC.join. now rewrite H. Qed.

(** A missing local file ends [upload_file] before [urljoin] is called. *)
Lemma upload_file_missing (self : NC.NextcloudClient) (local_path remote_path : string)
      (r : NC.Run) :
  NC.path_exists (NC.cloud r) local_path = false ->
  NC.upload_file self local_path remote_path r
  = (NC.Returned false,
     run_after r (NC.cloud r) [("❌ Local file not found: " ++ local_path)%string] []).
Proof.
  intros H. unfold NC.upload_file. unfold NC.then_ at 1. unfold NC.look at 1.
  rewrite H. cbn [negb]. unfold NC.then_. now rewrite print_run.
Qed.

(** Every way [upload_file] can run. *)
Lemma upload_file_run (self : NC.NextcloudClient) (local_path remote_path : string)
      (r : NC.Run) (u : string) :
  NC.urljoin (NC.webdav_url self) remote_path = NC.Returned u ->
  NC.upload_file self local_path remote_path r
  = if NC.path_exists (NC.cloud r) local_path then
      match NC.read_file (NC.cloud r) local_path with
      | NC.Returned f =>
          let q := NC.mkRequest "PUT" u (NC.client_auth self) [] (Some f) 60 in
          match NC.send (NC.cloud r) q with
          | (NC.Returned resp, c) =>
              if (NC.status_code resp =? 201)%Z || (NC.status_code resp =? 204)%Z
              then (NC.Returned true,
                    run_after r c
                      [("✅ Successfully uploaded " ++ local_path ++ " to "
                        ++ remote_path)%string]
                      [NC.OpOpen local_path; NC.OpRequest q])
              else (NC.Returned false,
                    run_after r c
                      [("❌ Upload failed. Status code: "
                        ++ NC.str_int (NC.status_code resp))%string]
                      [NC.OpOpen local_path; NC.OpRequest q])
          | (NC.Raised e, c) =>
              caught "❌ Upload error: " e
                     (run_after r c [] [NC.OpOpen local_path; NC.OpRequest q])
          end
      | NC.Raised e =>
          caught "❌ Upload error: " e
                 (run_after r (NC.cloud r) [] [NC.OpOpen local_path])
      end
    else (NC.Returned false,
          run_after r (NC.cloud r) [("❌ Local file not found: " ++ local_path)%string]
                    []).
Proof.
  intros Hu. unfold NC.upload_file. unfold NC.then_ at 1. unfold NC.look at 1.
  destruct (NC.path_exists (NC.cloud r) local_path); cbn [negb].
  - unfold NC.then_ at 1. unfold NC.join. rewrite Hu.
    unfold NC.except_RequestException. unfold NC.then_ at 1.
    unfold NC.open_read. rewrite perform_run. cbn [fst snd].
    destruct (NC.read_file (NC.cloud r) local_path) as [f | e]; [ | caught_case e ].
    cbv zeta. unfold NC.then_ at 1. rewrite request_run. cbn [NC.cloud run_after].
    fold (run_after r (NC.cloud r) [] [NC.OpOpen local_path]).
    rewrite run_after_after.
    match goal with |- context [NC.send (NC.cloud r) ?q] =>
      destruct (NC.send (NC.cloud r) q) as [[resp | e] c] end;
    cbn [fst snd]; [ | caught_case e ].
    destruct ((NC.status_code resp =? 201)%Z || (NC.status_code resp =? 204)%Z);
      unfold NC.then_; rewrite print_run; cbn [NC.unit_];
      now rewrite run_after_after.
  - unfold NC.then_. now rewrite print_run.
Qed.

Lemma except_Exception_print (body : NC.N unit) (label : string -> string) (r : NC.Run) :
  exists r', NC.except_Exception body (fun e => NC.print (label e)) r
             = (NC.Returned tt, r').
Proof.
  unfold NC.except_Exception. destruct (body r) as [[[] | f] r1].
  - now exists r1.
  - rewrite print_run. eauto.
Qed.


(** The contract of a method from the three ways its one request can go. *)
Lemma server_method_intro (m : NC.N bool) (q : NC.Request) (ok : Z -> bool)
      (label : string) (line : NC.Response -> list string) :
  (forall r,
     m r = match NC.send (NC.cloud r) q with
           | (NC.Returned resp, c) =>
               (NC.Returned (ok (NC.status_code resp)),
                run_after r c (line resp) [NC.OpRequest q])
           | (NC.Raised f, c) =>
               caught label f (run_after r c [] [NC.OpRequest q])
           end) ->
  server_method m q ok.
Proof.
  intros Hm r. rewrite Hm.
  destruct (NC.send (NC.cloud r) q) as [[resp | f] c]; cbn [fst snd].
  - eexists _, _. split; [ reflexivity | ]. cbn [run_after NC.done NC.cloud].
    split; [ reflexivity | ]. split; [ reflexivity | ]. split.
    + split.
      * intros H. injection H as H. exists resp. auto.
      * intros (resp' & H & Hok). injection H as <-. now rewrite Hok.
    + intros f. split; [ discriminate | intros (H & _); discriminate ].
  - destruct (caught_done label f (run_after r c [] [NC.OpRequest q]))
      as (Hd & Hc & Hout).
    eexists _, _. split; [ apply surjective_pairing | ].
    rewrite Hd, Hc. cbn [run_after NC.done NC.cloud].
    split; [ reflexivity | ]. split; [ reflexivity | ]. split.
    + split; [ intros H; now elim Hout | intros (resp & H & _); discriminate ].
    + intros f'. unfold caught. destruct f; cbn [fst]; split;
        try discriminate;
        try (intros (H & Hf); injection H as <-; discriminate Hf);
        try (intros H; injection H as <-; split; reflexivity);
        try (intros (H & Hf); injection H as <-; reflexivity).
Qed.

End NextcloudRuns.

(** X19.  [__init__] takes the server URL without its trailing slashes:
    the stored URL is the given one up to slashes at its end, it never ends
    in a slash, and so any number of slashes added to the given URL gives
    the same client, whose WebDAV URL has a single slash between the server
    URL and [remote.php]. *)
Theorem server_url_is_normalised
  {E : NC.Environment} (url user pass : string) :
  (exists n, url = NC.server_url (NC.init url user pass) ++ NC.times "/" n)
  /\ (forall t, NC.server_url (NC.init url user pass) <> t ++ "/")
  /\ (forall n, NC.init (url ++ NC.times "/" n) user pass = NC.init url user pass)
  /\ NC.webdav_url (NC.init url user pass)
     = NC.rstrip url "/" ++ "/remote.php/dav/files/" ++ user ++ "/".
Proof.
  unfold NC.init. cbn [NC.server_url NC.webdav_url].
  split; [ apply rstrip_decompose | ].
  split; [ intros t; apply rstrip_no_trailing | ].
  split; [ intros n; now rewrite rstrip_times | reflexivity ].
Qed.

(** X20.  [list_files] on a 207 answer never fails, whatever the text of
    the answer: once [urljoin] has formed the URL, it returns [True] after
    one PROPFIND request and prints the heading, a rule of fifty dashes and
    then, for each line of the text in order, the display name of the line:
    what follows the first [<d:displayname>] up to the next tag of that
    name, if it is not empty and not the last segment of the listed path. *)
Theorem list_files_shows_first_names
  {E : NC.Environment} (self : NC.NextcloudClient) (path : string) (r : NC.Run)
  (u : string) (resp : NC.Response) (c : NC.Cloud) :
  let q := NC.mkRequest "PROPFIND" u (NC.client_auth self)
                        [("Depth", "1"); ("Content-Type", "application/xml")]
                        (Some NC.propfind_xml) 30 in
  NC.urljoin (NC.webdav_url self) path = NC.Returned u ->
  NC.send (NC.cloud r) q = (NC.Returned resp, c) ->
  NC.status_code resp = 207%Z ->
  NC.list_files self path r
  = (NC.Returned true,
     run_after r c
       ([("📁 Contents of /" ++ path ++ ":")%string; NC.times "-" 50]
          ++ flat_map (listed path) (NC.split (NC.text resp) NC.line_break))%list
       [NC.OpRequest q]).
Proof.
  intros q Hu Hsend Hstatus.
  unfold NC.list_files. unfold NC.then_ at 1. unfold NC.join. rewrite Hu.
  unfold NC.except_RequestException.
  unfold NC.then_ at 1. fold q. rewrite request_run, Hsend. cbn [fst snd].
  rewrite Hstatus. cbn [Z.eqb Pos.eqb].
  unfold NC.then_. rewrite !print_run, for_each_list_line. cbn [NC.unit_].
  rewrite !run_after_after. reflexivity.
Qed.

(** X21.  Of a line of the answer that holds entries only the first is
    shown: for a line [pre <d:displayname>name</d:displayname> post] whose
    [pre] and [name] have no [<], the loop prints [name] (after two
    spaces) whatever [post] holds, and prints nothing when [name] is empty
    or is the base name of the listed path without its trailing slashes,
    be it the folder itself or an entry of the same name. *)
Theorem list_line_shows_first_entry
  {E : NC.Environment} (path pre name post : string) (r : NC.Run) :
  without_char "<" pre = true ->
  without_char "<" name = true ->
  NC.list_line path
    (pre ++ "<d:displayname>" ++ name ++ "</d:displayname>" ++ post) r
  = (NC.Returned tt,
     run_after r (NC.cloud r)
       (if String.eqb name EmptyString
           || String.eqb name (basename (NC.rstrip path "/"))
        then [] else ["  " ++ name]) []).
Proof.
  intros Hpre Hname. rewrite list_line_run. unfold listed.
  rewrite (first_displayname_entry pre name post Hpre Hname).
  destruct (String.eqb name EmptyString);
    destruct (String.eqb name (basename (NC.rstrip path "/"))); reflexivity.
Qed.

(** X22.  [download_file] touches the file system only after a 200 answer.
    A remote path [urljoin] refuses makes it raise that exception before
    its [try], with nothing done.  Otherwise it makes one GET request to
    the joined URL; unless that is answered with 200, nothing else is done;
    and it returns [True] only after it has made the directory of the local
    path and written the content of the answer to the local path. *)
Theorem download_writes_only_after_200
  {E : NC.Environment} (self : NC.NextcloudClient) (remote_path local_path : string)
  (r : NC.Run) :
  (forall f,
     NC.urljoin (NC.webdav_url self) remote_path = NC.Raised f ->
     NC.download_file self remote_path local_path r = (NC.Raised f, r))
  /\ (forall u,
        NC.urljoin (NC.webdav_url self) remote_path = NC.Returned u ->
        let q := NC.mkRequest "GET" u (NC.client_auth self) [] None 60 in
        exists out r' d,
          NC.download_file self remote_path local_path r = (out, r')
          /\ NC.done r' = (NC.done r ++ NC.OpRequest q :: d)%list
          /\ ((forall resp, fst (NC.send (NC.cloud r) q) = NC.Returned resp ->
                            NC.status_code resp <> 200%Z) ->
              d = [] /\ NC.cloud r' = snd (NC.send (NC.cloud r) q))
          /\ (out = NC.Returned true ->
              exists resp,
                fst (NC.send (NC.cloud r) q) = NC.Returned resp
                /\ NC.status_code resp = 200%Z
                /\ d = [NC.OpMakedirs (NC.dirname local_path);
                        NC.OpWrite local_path (NC.content resp)])).
Proof.
  split.
  { intros f Hf. unfold NC.download_file. now apply join_refused. }
  intros u Hu q. rewrite (download_file_run self remote_path local_path r u Hu).
  fold q.
  destruct (NC.send (NC.cloud r) q) as [[resp | f] c]; cbn [fst snd].
  - destruct (NC.status_code resp =? 200)%Z eqn:Es.
    + apply Z.eqb_eq in Es.
      assert (Hno : (forall resp0, NC.Returned resp = NC.Returned resp0 ->
                                   NC.status_code resp0 <> 200%Z) ->
                    forall (d : list NC.Op) (c' : NC.Cloud), d = [] /\ c' = c).
      { intros H. now elim (H resp eq_refl). }
      destruct (NC.makedirs c (NC.dirname local_path)) as [[[] | f] c1].
      * destruct (NC.write_file c1 local_path (NC.content resp)) as [[[] | f] c2].
        -- eexists _, _, _. split; [ reflexivity | ]. cbn [run_after NC.done].
           split; [ reflexivity | ]. split; [ intros H; now apply Hno | ].
           intros _. exists resp. auto.
        -- destruct (caught_done "❌ Download error: " f
                       (run_after r c2 []
                          [NC.OpRequest q; NC.OpMakedirs (NC.dirname local_path);
                           NC.OpWrite local_path (NC.content resp)]))
             as (Hd & _ & Hout).
           eexists _, _, _. split; [ apply surjective_pairing | ].
           rewrite Hd. cbn [run_after NC.done].
           split; [ reflexivity | ]. split; [ intros H; now apply Hno | ].
           intros H. now elim Hout.
      * destruct (caught_done "❌ Download error: " f
                     (run_after r c1 []
                        [NC.OpRequest q; NC.OpMakedirs (NC.dirname local_path)]))
          as (Hd & _ & Hout).
        eexists _, _, _. split; [ apply surjective_pairing | ].
        rewrite Hd. cbn [run_after NC.done].
        split; [ reflexivity | ]. split; [ intros H; now apply Hno | ].
        intros H. now elim Hout.
    + eexists _, _, []. split; [ reflexivity | ]. cbn [run_after NC.done NC.cloud].
      split; [ reflexivity | ]. split; [ auto | discriminate ].
  - destruct (caught_done "❌ Download error: " f (run_after r c [] [NC.OpRequest q]))
      as (Hd & Hc & Hout).
    eexists _, _, []. split; [ apply surjective_pairing | ].
    rewrite Hd, Hc. cbn [run_after NC.done NC.cloud].
    split; [ reflexivity | ]. split; [ auto | ].
    intros H. now elim Hout.
Qed.

(** X23.  [download_file] to a local path without a directory part:
    [os.path.dirname] of a path is empty exactly when the path holds no
    slash, and then the empty path is what [os.makedirs] is asked to make
    after a 200 answer.  An exception it raises for that (as
    [os.makedirs] does for the empty path) is no [RequestException]: it is
    not caught, [download_file] raises it instead of returning, and the
    answer is never written. *)
Theorem download_to_bare_name_raises
  {E : NC.Environment} (self : NC.NextcloudClient) (remote_path local_path : string)
  (r : NC.Run) (u : string) (resp : NC.Response) (c c1 : NC.Cloud) (f : NC.Fault) :
  let q := NC.mkRequest "GET" u (NC.client_auth self) [] None 60 in
  without_char "/" local_path = true ->
  NC.urljoin (NC.webdav_url self) remote_path = NC.Returned u ->
  NC.send (NC.cloud r) q = (NC.Returned resp, c) ->
  NC.status_code resp = 200%Z ->
  NC.makedirs c EmptyString = (NC.Raised f, c1) ->
  is_RequestException f = false ->
  (forall p, NC.dirname p = EmptyString <-> without_char "/" p = true)
  /\ NC.download_file self remote_path local_path r
     = (NC.Raised f,
        run_after r c1 [] [NC.OpRequest q; NC.OpMakedirs EmptyString]).
Proof.
  intros q Hbare Hu Hsend Hstatus Hmk Hf.
  split; [ intros p; apply dirname_empty_iff | ].
  rewrite (download_file_run self remote_path local_path r u Hu). fold q.
  rewrite Hsend, Hstatus. cbn [Z.eqb Pos.eqb].
  apply dirname_empty_iff in Hbare. rewrite Hbare, Hmk.
  unfold caught. destruct f; [ discriminate | reflexivity | reflexivity ].
Qed.

(** X24.  [upload_file] sends the local file or nothing: when the local
    path does not exist it returns [False] without opening a file, joining
    a URL or making a request; and it returns [True] only when the path
    exists, [urljoin] formed the URL, the file was read, and one PUT request
    carrying what was read, to the remote path joined to the WebDAV URL,
    was answered with 201 or 204. *)
Theorem upload_sends_the_local_file
  {E : NC.Environment} (self : NC.NextcloudClient) (local_path remote_path : string)
  (r : NC.Run) :
  (NC.path_exists (NC.cloud r) local_path = false ->
   NC.upload_file self local_path remote_path r
   = (NC.Returned false,
      run_after r (NC.cloud r) [("❌ Local file not found: " ++ local_path)%string] []))
  /\ (forall r',
        NC.upload_file self local_path remote_path r = (NC.Returned true, r') ->
        exists u f resp,
          NC.path_exists (NC.cloud r) local_path = true
          /\ NC.urljoin (NC.webdav_url self) remote_path = NC.Returned u
          /\ NC.read_file (NC.cloud r) local_path = NC.Returned f
          /\ let q := NC.mkRequest "PUT" u (NC.client_auth self) [] (Some f) 60 in
             fst (NC.send (NC.cloud r) q) = NC.Returned resp
             /\ (NC.status_code resp = 201%Z \/ NC.status_code resp = 204%Z)
             /\ NC.done r' = (NC.done r ++ [NC.OpOpen local_path; NC.OpRequest q])%list
             /\ NC.cloud r' = snd (NC.send (NC.cloud r) q)).
Proof.
  split; [ apply upload_file_missing | ].
  intros r'.
  destruct (NC.path_exists (NC.cloud r) local_path) eqn:Ex;
    [ | rewrite (upload_file_missing self local_path remote_path r Ex); discriminate ].
  destruct (NC.urljoin (NC.webdav_url self) remote_path) as [u | e] eqn:Hu.
  2:{ unfold NC.upload_file. unfold NC.then_ at 1. unfold NC.look at 1.
      rewrite Ex. cbn [negb]. rewrite (join_refused _ _ e _ r Hu). discriminate. }
  rewrite (upload_file_run self local_path remote_path r u Hu), Ex.
  destruct (NC.read_file (NC.cloud r) local_path) as [f | e].
  - cbv zeta.
    match goal with |- context [NC.send (NC.cloud r) ?q] =>
      destruct (NC.send (NC.cloud r) q) as [[resp | e] c] eqn:Es end.
    + destruct ((NC.status_code resp =? 201)%Z || (NC.status_code resp =? 204)%Z)
        eqn:Et; [ | discriminate ].
      intros H. injection H as <-. exists u, f, resp.
      split; [ reflexivity | ]. split; [ reflexivity | ]. split; [ reflexivity | ].
      rewrite Es. cbn [fst snd run_after NC.done NC.cloud].
      split; [ reflexivity | ]. split; [ | split; reflexivity ].
      apply orb_prop in Et. destruct Et as [Et | Et]; apply Z.eqb_eq in Et; auto.
    + intros H. exfalso.
      destruct (caught_done "❌ Upload error: " e
                  (run_after r c [] [NC.OpOpen local_path;
                     NC.OpRequest (NC.mkRequest "PUT" u
                        (NC.client_auth self) [] (Some f) 60)]))
        as (_ & _ & Hout).
      apply Hout. now rewrite H.
  - intros H. exfalso.
    destruct (caught_done "❌ Upload error: " e
                (run_after r (NC.cloud r) [] [NC.OpOpen local_path]))
      as (_ & _ & Hout).
    apply Hout. now rewrite H.
Qed.

(** X25.  [main] goes no further than the connection test unless that
    succeeds: after the two lines of the banner it makes one GET request
    to the WebDAV URL of the account; answered with another status than
    200, or failing with a [RequestException], it prints one more line and
    returns, having made no other request and touched no file.  Whatever
    happens after a successful test is caught, so [main] raises exactly
    when the connection test raises another exception than a
    [RequestException]. *)
Theorem main_stops_without_connection {E : NC.Environment} (r : NC.Run) :
  let q := NC.mkRequest "GET" "https://mdan.online/remote.php/dav/files/Prueba/"
                        ("Prueba", "pruebaproyecto") [] None 10 in
  ((forall resp, fst (NC.send (NC.cloud r) q) = NC.Returned resp ->
                 NC.status_code resp <> 200%Z) ->
   (forall f, fst (NC.send (NC.cloud r) q) = NC.Raised f ->
              is_RequestException f = true) ->
   exists line,
     NC.main r
     = (NC.Returned tt,
        run_after r (snd (NC.send (NC.cloud r) q))
          ["🌥️  Nextcloud Connection Program"; NC.times "=" 40; line]
          [NC.OpRequest q]))
  /\ ((forall f, fst (NC.send (NC.cloud r) q) = NC.Raised f ->
                 is_RequestException f = true) ->
      exists r', NC.main r = (NC.Returned tt, r'))
  /\ (forall f, fst (NC.send (NC.cloud r) q) = NC.Raised f ->
                is_RequestException f = false ->
                fst (NC.main r) = NC.Raised f).
Proof.
  intros q.
  set (client := NC.init "https://mdan.online" "Prueba" "pruebaproyecto").
  set (r0 := run_after r (NC.cloud r)
               ["🌥️  Nextcloud Connection Program"; NC.times "=" 40] []).
  assert (Hmain : NC.main r
                  = match NC.test_connection client r0 with
                    | (NC.Returned true, r1) =>
                        NC.then_ (NC.print EmptyString)
                          (fun _ => NC.except_Exception (NC.demonstrate client)
                             (fun e => NC.print (NC.line_break
                                                 ++ "❌ Unexpected error: " ++ e))) r1
                    | (NC.Returned false, r1) => (NC.Returned tt, r1)
                    | (NC.Raised f, r1) => (NC.Raised f, r1)
                    end).
  { unfold NC.main. fold client. unfold NC.then_ at 1. rewrite print_run.
    unfold NC.then_ at 1. rewrite print_run, run_after_after.
    change (NC.cloud (run_after r (NC.cloud r) ["🌥️  Nextcloud Connection Program"] []))
      with (NC.cloud r).
    cbn [app]. fold r0.
    unfold NC.then_ at 1.
    destruct (NC.test_connection client r0) as [[[ | ] | f] r1]; reflexivity. }
  pose proof (test_connection_run client r0) as Ht. cbv zeta in Ht.
  change (NC.mkRequest "GET" (NC.webdav_url client) (NC.client_auth client) [] None 10)
    with q in Ht.
  change (NC.cloud r0) with (NC.cloud r) in Ht.
  rewrite Hmain, Ht. clear Hmain Ht.
  destruct (NC.send (NC.cloud r) q) as [[resp | f] c]; cbn [fst snd].
  - split; [ | split; [ | discriminate ] ].
    + intros Hno _. specialize (Hno resp eq_refl).
      apply Z.eqb_neq in Hno. rewrite Hno.
      eexists. unfold r0. rewrite run_after_after. reflexivity.
    + intros _. destruct (NC.status_code resp =? 200)%Z; [ | eauto ].
      unfold NC.then_. rewrite print_run.
      apply except_Exception_print.
  - split; [ | split ].
    + intros _ Hreq. specialize (Hreq f eq_refl).
      destruct f; try discriminate.
      eexists. unfold r0. rewrite run_after_after. reflexivity.
    + intros Hreq. specialize (Hreq f eq_refl). destruct f; try discriminate. eauto.
    + intros f' H Hf. injection H as <-. destruct f; try discriminate; reflexivity.
Qed.

(** X26.  The methods that only talk to the server.  [test_connection]
    makes exactly one request, a GET of the WebDAV URL.  [list_files] and
    [create_folder] first join the path to the WebDAV URL, outside their
    [try]: a path [urljoin] refuses makes them raise that exception with
    nothing done; otherwise they make exactly one request to the joined URL
    (a PROPFIND with depth 1, a MKCOL).  The three do nothing else outside
    the process; they return [True] exactly when the request is answered
    with 200, with 207, and with 201 or 405 (the folder exists already); a
    [RequestException] makes them return [False], and they raise only what
    the request raises besides.  In particular no answer text makes
    [list_files] fail. *)
Theorem server_methods_make_one_request
  {E : NC.Environment} (self : NC.NextcloudClient) (path : string) :
  server_method (NC.test_connection self)
    (NC.mkRequest "GET" (NC.webdav_url self) (NC.client_auth self) [] None 10)
    (fun status => (status =? 200)%Z)
  /\ (forall u,
        NC.urljoin (NC.webdav_url self) path = NC.Returned u ->
        server_method (NC.list_files self path)
          (NC.mkRequest "PROPFIND" u (NC.client_auth self)
                        [("Depth", "1"); ("Content-Type", "application/xml")]
                        (Some NC.propfind_xml) 30)
          (fun status => (status =? 207)%Z)
        /\ server_method (NC.create_folder self path)
             (NC.mkRequest "MKCOL" u (NC.client_auth self) [] None 30)
             (fun status => (status =? 201)%Z || (status =? 405)%Z))
  /\ (forall f r,
        NC.urljoin (NC.webdav_url self) path = NC.Raised f ->
        NC.list_files self path r = (NC.Raised f, r)
        /\ NC.create_folder self path r = (NC.Raised f, r)).
Proof.
  split; [ | split ].
  - apply (server_method_intro _ _ _ "❌ Connection error: "
             (fun resp =>
                if (NC.status_code resp =? 200)%Z
                then ["✅ Successfully connected to Nextcloud!"]
                else [("❌ Connection failed. Status code: "
                       ++ NC.str_int (NC.status_code resp))%string])).
    intros r. pose proof (test_connection_run self r) as H. cbv zeta in H.
    rewrite H.
    match goal with |- context [NC.send (NC.cloud r) ?q] =>
      destruct (NC.send (NC.cloud r) q) as [[resp | f] c] end.
    + now destruct (NC.status_code resp =? 200)%Z.
    + unfold caught. destruct f; try reflexivity.
      unfold run_after. cbn. now rewrite !List.app_nil_r.
  - intros u Hu. split.
    + apply (server_method_intro _ _ _ "❌ Error listing files: "
               (fun resp =>
                  if (NC.status_code resp =? 207)%Z
                  then (("📁 Contents of /" ++ path ++ ":")%string :: NC.times "-" 50
                        :: flat_map (listed path)
                             (NC.split (NC.text resp) NC.line_break))
                  else [("❌ Failed to list files. Status code: "
                         ++ NC.str_int (NC.status_code resp))%string])).
      intros r. unfold NC.list_files. unfold NC.then_ at 1. unfold NC.join.
      rewrite Hu. unfold NC.except_RequestException.
      unfold NC.then_ at 1. rewrite request_run.
      match goal with |- context [NC.send (NC.cloud r) ?q] =>
        destruct (NC.send (NC.cloud r) q) as [[resp | f] c] end;
        cbn [fst snd];
        [ | unfold caught; destruct f; try reflexivity;
            unfold NC.then_; rewrite print_run; reflexivity ].
      destruct (NC.status_code resp =? 207)%Z;
        unfold NC.then_; rewrite ?print_run, ?for_each_list_line; cbn [NC.unit_];
        now rewrite !run_after_after.
    + apply (server_method_intro _ _ _ "❌ Error creating folder: "
               (fun resp =>
                  if (NC.status_code resp =? 201)%Z
                  then [("✅ Successfully created folder: " ++ path)%string]
                  else if (NC.status_code resp =? 405)%Z
                       then [("ℹ️  Folder already exists: " ++ path)%string]
                       else [("❌ Failed to create folder. Status code: "
                              ++ NC.str_int (NC.status_code resp))%string])).
      intros r. unfold NC.create_folder. unfold NC.then_ at 1. unfold NC.join.
      rewrite Hu. unfold NC.except_RequestException.
      unfold NC.then_ at 1. rewrite request_run.
      match goal with |- context [NC.send (NC.cloud r) ?q] =>
        destruct (NC.send (NC.cloud r) q) as [[resp | f] c] end;
        cbn [fst snd];
        [ | unfold caught; destruct f; try reflexivity;
            unfold NC.then_; rewrite print_run; reflexivity ].
      destruct (NC.status_code resp =? 201)%Z;
        [ | destruct (NC.status_code resp =? 405)%Z ];
        unfold NC.then_; rewrite print_run; cbn [NC.unit_ orb];
        now rewrite !run_after_after.
  - intros f r Hf. split.
    + unfold NC.list_files. now apply join_refused.
    + unfold NC.create_folder. now apply join_refused.
Qed.

(* ================================================================== *)
(** ** More theorems at work on the concrete platform *)
(* ================================================================== *)

(** X3 at work: a world with a token file. *)
Lemma authenticate_uses_cached_token_witness :
  exists st' d,
    authenticate (fresh_state demo_world_token) = (Ok true, st')
    /\ trace st' = (trace (fresh_state demo_world_token) ++ d)%list
    /\ calls_of d = [CallLoadToken; CallBuild]
    /\ service (self st') = Some tt.
Proof.
  destruct (authenticate_uses_cached_token (P:=demo_platform)
              (fresh_state demo_world_token) "token" eq_refl eq_refl eq_refl)
    as (b & st' & d & H & Ht & Hc & _ & Hok & _).
  destruct (Hok tt eq_refl) as (-> & Hs).
  exists st', d. auto.
Defined.

(** X4 at work: a first run, with a consent flow that hands out a token. *)
Lemma authenticate_first_run_witness :
  exists st' d,
    authenticate (fresh_state demo_world) = (Ok true, st')
    /\ calls_of d = [CallConsentFlow; CallStoreToken; CallBuild]
    /\ lookup_file (files (world st')) "token.json" = Some "token"
    /\ service (self st') = Some tt.
Proof.
  destruct (authenticate_first_run (P:=demo_platform) (fresh_state demo_world) eq_refl)
    as (H1 & _).
  destruct (H1 "token" demo_world
               (snd (demo_write demo_world "token.json" "token")) tt
               (snd (demo_write demo_world "token.json" "token"))
               eq_refl eq_refl eq_refl)
    as (st' & d & H & _ & Hc & Hw & Hs).
  exists st', d. split; [ exact H | ]. split; [ exact Hc | ].
  split; [ now rewrite Hw | exact Hs ].
Defined.

(** X6 at work: the request of the demonstration, sent by an agent that
    holds a session. *)
Lemma send_email_reports_backend_result_witness :
  exists st' d raw,
    send_email demo_request (authenticated_state demo_world)
    = (Ok {| success := true; message_id := JStr "18c0ffee"; error := JNull;
             details := JObj [("thread_id", JStr "18c0ffee")] |}, st')
    /\ calls_of d = [CallSend [("raw", JStr raw)]]
    /\ trace st' = d.
Proof.
  destruct (send_email_reports_backend_result (P:=demo_platform) demo_request
              (authenticated_state demo_world) tt eq_refl)
    as (H1 & _).
  destruct (H1 "This is a test email." eq_refl) as (st' & d & H & Ht & Hc & _).
  exists st', d, "This is a test email.".
  split; [ exact H | ]. split; [ exact Hc | exact Ht ].
Defined.

(** X8 at work. *)
Lemma session_survives_processing_witness :
  exists resp st',
    process_agent_message demo_send (authenticated_state demo_world) = (Ok resp, st')
    /\ service (self st') = Some tt.
Proof.
  destruct (session_survives_processing (P:=demo_platform) demo_send
              (authenticated_state demo_world) tt eq_refl)
    as (resp & st' & H & _ & Hs).
  exists resp, st'. split; [ exact H | exact Hs ].
Defined.

(** X9 at work: a misspelt request type, in a fresh agent. *)
Lemma only_send_requests_reach_backend_witness :
  exists resp st' d,
    process_agent_message demo_unknown (fresh_state demo_world) = (Ok resp, st')
    /\ trace st' = d
    /\ calls_of d = []
    /\ world st' = demo_world.
Proof.
  assert (Hne : message_type demo_unknown <> JStr "email_send_request") by discriminate.
  destruct (only_send_requests_reach_backend (P:=demo_platform) demo_unknown
              (fresh_state demo_world) (or_introl Hne))
    as (resp & st' & d & H & Ht & Hc & _ & Hw).
  exists resp, st', d. split; [ exact H | ]. split; [ exact Ht | ].
  split; [ exact Hc | exact Hw ].
Defined.

(** X10 at work: a fresh agent sends, then is asked for its health. *)
Lemma health_check_follows_send_witness :
  exists r1 st1 r2 st2,
    process_agent_message demo_send (fresh_state demo_world) = (Ok r1, st1)
    /\ process_agent_message demo_health st1 = (Ok r2, st2)
    /\ payload r2 = JObj [("status", JStr "healthy");
                          ("agent_id", JStr "gmail-agent-001");
                          ("authenticated", JBool true)].
Proof.
  destruct (process_agent_message demo_send (fresh_state demo_world))
    as [[r1 | e] st1] eqn:E1; [ | discriminate E1 ].
  assert (Hp : payload r1
               = JObj [("success", JBool true); ("message_id", JStr "18c0ffee");
                       ("error", JNull);
                       ("details", JObj [("thread_id", JStr "18c0ffee")])]).
  { vm_compute in E1. injection E1 as <- _. reflexivity. }
  destruct (health_check_follows_send (P:=demo_platform) demo_send demo_health
              (fresh_state demo_world) st1 r1 _ eq_refl eq_refl E1 Hp)
    as (H1 & _).
  destruct (H1 eq_refl) as (r2 & st2 & H2 & Hp2).
  exists r1, st1, r2, st2. split; [ reflexivity | ]. split; [ exact H2 | exact Hp2 ].
Defined.

(** X11 at work: a number as the body. *)
Lemma wrong_type_fails_at_message_creation_witness :
  exists resp st',
    process_agent_message demo_send_bad_body (authenticated_state demo_world)
    = (Ok resp, st')
    /\ message_type resp = JStr "email_send_response"
    /\ payload resp = JObj (asdict_response creation_failed)
    /\ calls_of (trace st') = [].
Proof.
  assert (Hb : forall s, body demo_bad_body_request <> JStr s) by discriminate.
  destruct (wrong_type_fails_at_message_creation (P:=demo_platform) demo_send_bad_body
              (authenticated_state demo_world) demo_bad_body_request tt
              eq_refl eq_refl Hb eq_refl)
    as (resp & st' & d & H & Ht & Hp & Htr & Hc & _).
  exists resp, st'. split; [ exact H | ]. split; [ exact Ht | ].
  split; [ exact Hp | ]. rewrite Htr. exact Hc.
Defined.

(** X14 at work: the send request of the demonstration over the reference
    wire format. *)
Lemma handle_message_json_over_the_wire_witness :
  exists resp st',
    process_agent_message demo_send (fresh_state demo_world) = (Ok resp, st')
    /\ handle_message_json (J:=wire_json) (serialize (J:=wire_json) demo_send)
         (fresh_state demo_world)
       = (Ok (serialize (J:=wire_json) resp), st')
    /\ correlation_id resp = JStr "test-001".
Proof.
  destruct (handle_message_json_over_the_wire (P:=demo_platform) (J:=wire_json)
              demo_send (fresh_state demo_world) WireFacts.loads_dumps eq_refl)
    as (resp & st' & H & Hh & Hc & _).
  exists resp, st'. split; [ exact H | ]. split; [ exact Hh | exact Hc ].
Defined.

(** X15 at work: two recipients, one copy, an empty list of blind copies. *)
Lemma message_without_attachments_witness :
  build_message demo_world (well_typed demo_typed_plain)
  = Ok (MIMEText [("to", JStr "alice@example.org, carol@example.org");
                  ("subject", JStr "Hello");
                  ("cc", JStr "bob@example.org")]
                 "Plain text." "plain").
Proof.
  exact (proj1 (message_without_attachments (P:=demo_platform) demo_world
                  demo_typed_plain (or_introl eq_refl))).
Defined.

(** X16 at work: of the two listed files one exists; the headers are on the
    text part inside the container. *)
Lemma attachments_wrap_the_plain_message_witness :
  build_message demo_world (well_typed demo_typed)
  = Ok (MIMEMultipart [] "mixed"
          [MIMEText [("to", JStr "alice@example.org"); ("subject", JStr "Files")]
                    "See attached." "plain";
           attachment_part "notes.txt" "hello"]).
Proof.
  assert (Hr : readable (P:=demo_platform) demo_world ["missing.pdf"; "notes.txt"]).
  { intros p [<- | [<- | []]] Hex.
    - discriminate Hex.
    - exists "hello". reflexivity. }
  exact (proj1 (attachments_wrap_the_plain_message (P:=demo_platform) demo_world
                  demo_typed "missing.pdf" ["notes.txt"] eq_refl Hr)
               (or_introl eq_refl)).
Defined.

(** X20 at work: the listing of [test_folder/] on the small server.  The
    folder itself is left out, and of the two entries on the second line
    the first is shown. *)
Lemma list_files_shows_first_names_witness :
  exists r',
    NC.list_files demo_client "test_folder/" (demo_run demo_cloud)
    = (NC.Returned true, r')
    /\ NC.printed r'
       = ["📁 Contents of /test_folder/:"; NC.times "-" 50; "  uploaded_test.txt"].
Proof.
  eexists. split.
  - exact (list_files_shows_first_names (E:=demo_environment) demo_client
             "test_folder/" (demo_run demo_cloud) _ _ _ eq_refl eq_refl eq_refl).
  - reflexivity.
Defined.

(** X21 at work: a line with two entries. *)
Lemma list_line_shows_first_entry_witness :
  NC.list_line "test_folder/"
    ("  <d:displayname>a.txt</d:displayname><d:displayname>b.txt</d:displayname>")
    (demo_run demo_cloud)
  = (NC.Returned tt,
     {| NC.cloud := demo_cloud; NC.printed := ["  a.txt"]; NC.done := [] |}).
Proof.
  exact (list_line_shows_first_entry (E:=demo_environment) "test_folder/" "  " "a.txt"
           "<d:displayname>b.txt</d:displayname>" (demo_run demo_cloud)
           eq_refl eq_refl).
Defined.

(** X23 at work: a download to a bare file name. *)
Lemma download_to_bare_name_raises_witness :
  exists r',
    NC.download_file demo_client "test_folder/uploaded_test.txt" "downloaded_test.txt"
      (demo_run demo_cloud)
    = (NC.Raised (NC.OtherError "[Errno 2] No such file or directory: ''"), r')
    /\ filter (fun o => match o with NC.OpWrite _ _ => true | _ => false end)
              (NC.done r') = [].
Proof.
  eexists. split.
  - exact (proj2 (download_to_bare_name_raises (E:=demo_environment) demo_client
                    "test_folder/uploaded_test.txt" "downloaded_test.txt"
                    (demo_run demo_cloud) _ _ _ _ _
                    eq_refl eq_refl eq_refl eq_refl eq_refl eq_refl)).
  - reflexivity.
Defined.

(** X22 at work: a remote path [urljoin] refuses. *)
Lemma download_writes_only_after_200_witness :
  NC.download_file demo_client "//[" "downloads/x.txt" (demo_run demo_cloud)
  = (NC.Raised (NC.OtherError "Invalid IPv6 URL"), demo_run demo_cloud).
Proof.
  exact (proj1 (download_writes_only_after_200 (E:=demo_environment) demo_client
                  "//[" "downloads/x.txt" (demo_run demo_cloud))
               (NC.OtherError "Invalid IPv6 URL") eq_refl).
Defined.

(** X26 at work: the same path given to [list_files] and [create_folder],
    and a folder that exists already. *)
Lemma server_methods_make_one_request_witness :
  NC.list_files demo_client "//[" (demo_run demo_cloud)
  = (NC.Raised (NC.OtherError "Invalid IPv6 URL"), demo_run demo_cloud)
  /\ NC.create_folder demo_client "//[" (demo_run demo_cloud)
     = (NC.Raised (NC.OtherError "Invalid IPv6 URL"), demo_run demo_cloud)
  /\ exists out r',
       NC.create_folder demo_client "test_folder" (demo_run demo_cloud) = (out, r')
       /\ List.length (NC.done r') = 1.
Proof.
  destruct (server_methods_make_one_request (E:=demo_environment) demo_client "//[")
    as (_ & _ & Hrefused).
  destruct (Hrefused (NC.OtherError "Invalid IPv6 URL") (demo_run demo_cloud) eq_refl)
    as (Hl & Hc).
  split; [ exact Hl | ]. split; [ exact Hc | ].
  destruct (server_methods_make_one_request (E:=demo_environment) demo_client
              "test_folder")
    as (_ & Hjoined & _).
  destruct (Hjoined _ eq_refl) as (_ & Hfolder).
  destruct (Hfolder (demo_run demo_cloud)) as (out & r' & H & Hd & _).
  exists out, r'. split; [ exact H | ]. rewrite Hd. reflexivity.
Defined.
